(** * FastChat [llm_judge/gen_model_answer.py]: a shallow embedding

    The script loads a benchmark question list, shards it over the
    accelerator groups ([run_eval]), samples [num_choices] multi-turn
    completions per question ([get_model_answers]), appends one JSON record
    per question to the answer file, and finally rewrites that file sorted
    and de-duplicated by question id ([reorg_answer_file]).  Generation is
    steered by one custom logits processor ([StopAfterEosTextGenerated]).

    Python values are modelled directly: integers as [Z] (with Python's
    floor division and modulo, which are [Z.div] and [Z.modulo] away from a
    zero divisor), strings as [string], lists as [list], the [answers]
    dictionary as a [gmap].  A raised exception is a value of [result]; the
    script's effects (global random generator, answer file, console and
    sampling calls) are threaded through an explicit world. *)

From Stdlib Require Import ZArith QArith Ascii String List.
From stdpp Require Import gmap strings list sorting.

Open Scope Z_scope.

(** ** Python exceptions *)

(** The exception classes the script can meet, with the part of the class
    hierarchy that decides which [except] clause catches which exception.
    [OutOfMemoryError] is [torch.cuda.OutOfMemoryError], which PyTorch
    derives from [RuntimeError]. *)
Inductive exc_class : Set :=
  | BaseException
  | KeyboardInterrupt
  | PyException
  | RuntimeError
  | NotImplementedError
  | RecursionError
  | OutOfMemoryError
  | AssertionError
  | ArithmeticError
  | ZeroDivisionError
  | ValueError
  | JSONDecodeError
  | TypeError
  | LookupError
  | KeyError
  | IndexError
  | OSError
  | FileNotFoundError.

Global Instance exc_class_eq_dec : EqDecision exc_class.
Proof. solve_decision. Defined.

(** The direct base class ([None] for the root). *)
Definition exc_base (c : exc_class) : option exc_class :=
  match c with
  | BaseException => None
  | KeyboardInterrupt => Some BaseException
  | PyException => Some BaseException
  | RuntimeError => Some PyException
  | NotImplementedError => Some RuntimeError
  | RecursionError => Some RuntimeError
  | OutOfMemoryError => Some RuntimeError
  | AssertionError => Some PyException
  | ArithmeticError => Some PyException
  | ZeroDivisionError => Some ArithmeticError
  | ValueError => Some PyException
  | JSONDecodeError => Some ValueError
  | TypeError => Some PyException
  | LookupError => Some PyException
  | KeyError => Some LookupError
  | IndexError => Some LookupError
  | OSError => Some PyException
  | FileNotFoundError => Some OSError
  end.

(** [issubclass c d]: walk up from [c]; the hierarchy is four levels deep. *)
Fixpoint issubclass_fuel (fuel : nat) (c d : exc_class) : bool :=
  if decide (c = d) then true
  else match fuel, exc_base c with
       | S k, Some b => issubclass_fuel k b d
       | _, _ => false
       end.

Definition issubclass : exc_class → exc_class → bool := issubclass_fuel 4.

(** A computation either returns or raises. *)
Inductive result (A : Type) : Type :=
  | Ok (a : A)
  | Raise (e : exc_class).
Arguments Ok {A} a.
Arguments Raise {A} e.

Global Instance result_ret : MRet result := λ A a, Ok a.
Global Instance result_bind : MBind result :=
  λ A B f m, match m with Ok a => f a | Raise e => Raise e end.

Definition is_ok {A} (r : result A) : bool :=
  match r with Ok _ => true | Raise _ => false end.

(** ** Python integers, ranges and slices *)

(** [a // b] and [a % b]. *)
Definition py_floordiv (a b : Z) : result Z :=
  if decide (b = 0) then Raise ZeroDivisionError else Ok (a / b).

Definition py_mod (a b : Z) : result Z :=
  if decide (b = 0) then Raise ZeroDivisionError else Ok (a mod b).

(** [range(start, stop, step)], as the list it iterates over. *)
Definition py_range (start stop step : Z) : result (list Z) :=
  if decide (step = 0) then Raise ValueError
  else if decide (0 < step) then
    Ok (if decide (start < stop)
        then map (λ k : nat, start + Z.of_nat k * step)
                 (seq 0 (Z.to_nat ((stop - start + step - 1) / step)))
        else [])
  else
    Ok (if decide (stop < start)
        then map (λ k : nat, start + Z.of_nat k * step)
                 (seq 0 (Z.to_nat ((start - stop - step - 1) / (- step))))
        else []).

(** A slice bound: negative bounds count from the end, and every bound is
    clamped to the sequence. *)
Definition clamp_index (len i : Z) : Z :=
  if decide (i < 0) then Z.max 0 (i + len) else Z.min i len.

(** [l[start:stop]] *)
Definition py_slice {A} (l : list A) (start stop : Z) : list A :=
  let n := Z.of_nat (length l) in
  let a := clamp_index n start in
  let b := clamp_index n stop in
  take (Z.to_nat (b - a)) (drop (Z.to_nat a) l).

(** [l[start:]] *)
Definition py_slice_from {A} (l : list A) (start : Z) : list A :=
  drop (Z.to_nat (clamp_index (Z.of_nat (length l)) start)) l.

(** [l[i]], with negative indices counting from the end. *)
Definition py_getitem {A} (l : list A) (i : Z) : result A :=
  let n := Z.of_nat (length l) in
  let j := if decide (i < 0) then i + n else i in
  if decide (0 ≤ j < n)
  then match l !! Z.to_nat j with Some x => Ok x | None => Raise IndexError end
  else Raise IndexError.

(** [l[i] = x], with negative indices counting from the end. *)
Definition py_setitem {A} (l : list A) (i : Z) (x : A) : result (list A) :=
  let n := Z.of_nat (length l) in
  let j := if decide (i < 0) then i + n else i in
  if decide (0 ≤ j < n) then Ok (<[Z.to_nat j := x]> l) else Raise IndexError.

(** ** Python strings *)

(** [s.find(sub)]: the lowest index where [sub] occurs in [s], or [-1]. *)
Fixpoint find_from (sub s : string) (i : Z) : Z :=
  if String.prefix sub s then i
  else match s with
       | EmptyString => -1
       | String _ s' => find_from sub s' (i + 1)
       end.

Definition str_find (s sub : string) : Z := find_from sub s 0.

(** [s[:k]] and [s[k:]] for a non-negative [k]. *)
Fixpoint str_take (k : nat) (s : string) : string :=
  match k, s with
  | S k', String c s' => String c (str_take k' s')
  | _, _ => EmptyString
  end.

Fixpoint str_drop (k : nat) (s : string) : string :=
  match k, s with
  | S k', String _ s' => str_drop k' s'
  | _, _ => s
  end.

(** [s[:i]] for any integer [i]. *)
Definition str_slice_to (s : string) (i : Z) : string :=
  str_take (Z.to_nat (clamp_index (Z.of_nat (String.length s)) i)) s.

(** [s.replace(old, empty)] and [s.replace(old, empty, 1)]: remove the
    occurrences of [old], scanning left to right without overlap; [skip]
    counts the characters of a match still to be dropped, [count] bounds
    the number of removals ([None]: all).  Removing the empty string
    changes nothing. *)
Fixpoint remove_sub (old : string) (count : option nat) (skip : nat) (s : string)
  : string :=
  match s with
  | EmptyString => EmptyString
  | String c s' =>
      match skip with
      | S k => remove_sub old count k s'
      | O =>
          match count with
          | Some O => s
          | _ =>
              if String.prefix old s && negb (String.eqb old EmptyString)
              then remove_sub old (pred <$> count) (String.length old - 1)%nat s'
              else String c (remove_sub old count 0 s')
          end
      end
  end.

Definition str_remove_all (s old : string) : string := remove_sub old None 0 s.
Definition str_remove_first (s old : string) : string :=
  remove_sub old (Some 1%nat) 0 s.

(** The white space [str.strip()] removes, for code points below 256. *)
Definition is_space (c : ascii) : bool :=
  let n := nat_of_ascii c in
  ((9 <=? n) && (n <=? 13) || (28 <=? n) && (n <=? 32)
   || (n =? 133) || (n =? 160))%nat.

Fixpoint str_lstrip (s : string) : string :=
  match s with
  | String c s' => if is_space c then str_lstrip s' else s
  | EmptyString => EmptyString
  end.

Fixpoint str_rstrip (s : string) : string :=
  match s with
  | EmptyString => EmptyString
  | String c s' =>
      match str_rstrip s' with
      | EmptyString => if is_space c then EmptyString else String c EmptyString
      | r => String c r
      end
  end.

Definition str_strip (s : string) : string := str_rstrip (str_lstrip s).

(** [s.startswith(p)] *)
Definition str_startswith (s p : string) : bool := String.prefix p s.

(** ** Floating-point values

    The script never computes with floats: it stores them, compares a
    temperature with a threshold and writes the constants [0] and
    [-inf] into score rows.  Finite values are kept as rationals. *)
Inductive pyfloat : Set :=
  | NegInf
  | Finite (q : Q)
  | PosInf
  | NaN.

(** [a < b] on floats; every comparison with a NaN is false. *)
Definition float_lt (a b : pyfloat) : bool :=
  match a, b with
  | NaN, _ | _, NaN => false
  | _, NegInf => false
  | NegInf, _ => true
  | PosInf, _ => false
  | Finite _, PosInf => true
  | Finite x, Finite y => negb (Qle_bool y x)
  end.

(** ** Two-dimensional tensors

    A tensor of shape [(size0, size1)] is the list of its [size0] rows
    together with the row width [size1] (which a tensor without rows still
    has). *)
Record tensor (A : Type) : Type := Tensor {
  size1 : nat;
  rows : list (list A)
}.
Arguments Tensor {A} size1 rows.
Arguments size1 {A} t.
Arguments rows {A} t.

Definition size0 {A} (t : tensor A) : nat := length (rows t).

Definition wf_tensor {A} (t : tensor A) : Prop :=
  Forall (λ r, length r = size1 t) (rows t).

(** [t[:, -k:]]: the last [k] columns (all of them when there are fewer). *)
Definition last_columns {A} (t : tensor A) (k : nat) : tensor A :=
  Tensor (Nat.min k (size1 t))
         (map (λ r, py_slice_from r (- Z.of_nat k)) (rows t)).

(** [torch.eq(t, v).all(dim=1)] for a vector [v]: the last dimension is
    broadcast (equal widths, or one of them 1), any other pair of widths
    is a shape mismatch, which torch reports as a [RuntimeError]. *)
Definition eq_all_dim1 (t : tensor Z) (v : list Z) : result (list bool) :=
  if decide (size1 t = length v) then
    Ok (map (λ r, forallb (λ p : Z * Z, bool_decide (p.1 = p.2)) (zip r v))
            (rows t))
  else if decide (size1 t = 1%nat) then
    Ok (map (λ r, forallb (λ x, forallb (λ y, bool_decide (x = y)) v) r)
            (rows t))
  else if decide (length v = 1%nat) then
    Ok (map (λ r, forallb (λ x, forallb (λ y, bool_decide (x = y)) v) r)
            (rows t))
  else Raise RuntimeError.

(** [t[mask] = row]: overwrite the rows selected by a boolean mask over
    dimension 0; a mask of another length is an [IndexError]. *)
Definition masked_assign {A} (t : tensor A) (mask : list bool) (row : list A)
  : result (tensor A) :=
  if decide (length mask = size0 t)
  then Ok (Tensor (size1 t)
                  (zip_with (λ (m : bool) r, if m then row else r) mask (rows t)))
  else Raise IndexError.

(** ** The logits processor [StopAfterEosTextGenerated] *)
Module StopAfterEosTextGenerated.

Record t : Set := init {
  base_len : Z;
  eos_token_id : Z
}.

Definition stop_token_ids : list Z := [15501; 281; 926].

(** [__call__(self, input_ids, scores)] *)
Definition call (self : t) (input_ids : tensor Z) (scores : tensor pyfloat)
  : result (tensor pyfloat) :=
  if decide (base_len self < Z.of_nat (size1 input_ids)) then
    forced_eos ← py_setitem (replicate (size1 scores) NegInf)
                            (eos_token_id self) (Finite 0);
    stop_sample_ids ←
      eq_all_dim1 (last_columns input_ids (length stop_token_ids))
                  stop_token_ids;
    masked_assign scores stop_sample_ids forced_eos
  else Ok scores.

End StopAfterEosTextGenerated.

(** ** JSON values

    What [json.loads] returns and [json.dumps] accepts.  A dictionary is
    the list of its items in insertion order. *)
#[local] Unset Elimination Schemes.
Inductive json : Type :=
  | JNull
  | JBool (b : bool)
  | JInt (z : Z)
  | JFloat (f : pyfloat)
  | JStr (s : string)
  | JList (l : list json)
  | JDict (items : list (string * json)).
#[local] Set Elimination Schemes.

(** [d[k]] on the items of a dictionary. *)
Fixpoint dict_lookup (k : string) (items : list (string * json)) : option json :=
  match items with
  | [] => None
  | (k', v) :: rest => if String.eqb k k' then Some v else dict_lookup k rest
  end.

(** [v[k]] for a string key: only a dictionary can be subscripted by a
    string. *)
Definition subscript_key (v : json) (k : string) : result json :=
  match v with
  | JDict items =>
      match dict_lookup k items with Some x => Ok x | None => Raise KeyError end
  | _ => Raise TypeError
  end.

(** [len(v)] *)
Definition py_len (v : json) : result Z :=
  match v with
  | JList l => Ok (Z.of_nat (length l))
  | JStr s => Ok (Z.of_nat (String.length s))
  | JDict items => Ok (Z.of_nat (length items))
  | _ => Raise TypeError
  end.

(** [v[j]] for an integer index: an element of a list, a one-character
    string of a string; the keys of a JSON dictionary are strings, so an
    integer key is missing. *)
Definition subscript_index (v : json) (j : Z) : result json :=
  match v with
  | JList l => py_getitem l j
  | JStr s =>
      c ← py_getitem (list_ascii_of_string s) j; Ok (JStr (String c EmptyString))
  | JDict _ => Raise KeyError
  | _ => Raise TypeError
  end.

(** ** The conversation template ([fastchat.conversation.Conversation]) *)

(** [Conversation.stop_str] is [None], a string, or a list of strings. *)
Inductive stop_str_t : Set :=
  | StopNone
  | StopStr (s : string)
  | StopList (l : list string).

Record conversation : Type := Conversation {
  name : string;
  roles : string * string;
  messages : list (string * json);
  stop_str : stop_str_t;
  stop_token_ids : option (list Z)
}.

(** [conv.append_message(role, message)] *)
Definition append_message (conv : conversation) (role : string) (message : json)
  : conversation :=
  Conversation (name conv) (roles conv) (messages conv ++ [(role, message)])
               (stop_str conv) (stop_token_ids conv).

(** [conv.update_last_message(message)], that is
    [self.messages[-1][1] = message]. *)
Definition update_last_message (conv : conversation) (message : json)
  : result conversation :=
  match last (messages conv) with
  | None => Raise IndexError
  | Some (role, _) =>
      Ok (Conversation (name conv) (roles conv)
            (take (length (messages conv) - 1)%nat (messages conv)
               ++ [(role, message)])
            (stop_str conv) (stop_token_ids conv))
  end.

(** ** The loaded model and tokenizer *)

(** The state of torch's global random generator. *)
Definition generator_state : Set := N.

(** What [tokenizer([prompt], return_tensors="pt")] returns. *)
Record encoding : Type := Encoding {
  input_ids : tensor Z;
  attention_mask : tensor Z
}.

(** The keyword arguments of [model.generate]. *)
Record generate_kwargs : Type := GenerateKwargs {
  kw_input_ids : tensor Z;
  kw_attention_mask : tensor Z;
  kw_bos_token_id : option Z;
  kw_eos_token_id : Z;
  kw_pad_token_id : option Z;
  kw_do_sample : bool;
  kw_temperature : pyfloat;
  kw_max_new_tokens : Z;
  kw_logits_processor : list StopAfterEosTextGenerated.t
}.

Record tokenizer_t : Type := Tokenizer {
  tokenize : string → result encoding;
  eos_token_id : Z;
  pad_token_id : option Z;
  decode : list Z → result string;
  (** the values of [special_tokens_map]: a token or a list of tokens *)
  special_tokens_map_values : list (string + list string)
}.

(** Sampling reads and advances the global generator. *)
Record model_t : Type := Model {
  generate : generator_state → generate_kwargs
             → result (list (list Z)) * generator_state;
  is_encoder_decoder : bool
}.

Record load_model_kwargs : Type := LoadModelKwargs {
  lm_revision : string;
  lm_device : string;
  lm_num_gpus : Z;
  lm_max_gpu_memory : option string;
  lm_dtype : option string;
  lm_load_8bit : bool;
  lm_cpu_offloading : bool;
  lm_debug : bool
}.

(** ** The libraries and the operating system the script runs against *)
Record environment : Type := Environment {
  (** [fastchat.llm_judge.common] *)
  load_questions : string → option Z → option Z → result (list json);
  temperature_config : gmap string pyfloat;
  (** [fastchat.model] *)
  load_model : string → load_model_kwargs → result (model_t * tokenizer_t);
  get_conversation_template : string → conversation;
  get_prompt : conversation → result string;
  (** [torch.manual_seed] *)
  manual_seed : Z → generator_state;
  (** [shortuuid.uuid], [time.time]: the n-th value drawn *)
  shortuuid_uuid : nat → string;
  time_time : nat → pyfloat;
  (** [json] *)
  json_dumps : json → string;
  json_loads : string → result json;
  (** [os.path.dirname], [os.path.expanduser], [os.makedirs],
      and whether [open] succeeds on a path *)
  os_path_dirname : string → string;
  os_path_expanduser : string → string;
  os_makedirs : string → result unit;
  open_ok : string → result unit
}.

(** ** What the script does to the world *)

(** Console output, one constructor per [print] of the script, and the
    calls into torch. *)
Inductive event : Type :=
  | PrintTextInput (prompt : string)
  | PrintInputTokens (ids : tensor Z)
  | PrintAttentionMask (mask : tensor Z)
  | PrintNumInputTokens (n : Z)
  | PrintReduced (max_new_token num_input_tokens : Z)
  | PrintNumGenerated (n : Z)
  | PrintGeneratedTokens (ids : list Z)
  | PrintGeneratedText (output : string)
  | PrintException (e : exc_class)
  | PrintErrorQuestionId (qid : json)
  | PrintOutputTo (answer_file : string)
  | ManualSeed (seed : Z)
  | Generate (kwargs : generate_kwargs).

Record world : Type := World {
  rng : generator_state;
  log : list event;
  files : gmap string (list string);
  uuids_drawn : nat;
  clock : nat
}.

(** Stateful computations that may raise; the world survives a raise. *)
Definition M (A : Type) : Type := world → result A * world.

Global Instance M_ret : MRet M := λ A a w, (Ok a, w).
Global Instance M_bind : MBind M :=
  λ A B f m w, match m w with
               | (Ok a, w') => f a w'
               | (Raise e, w') => (Raise e, w')
               end.

Definition lift {A} (r : result A) : M A := λ w, (r, w).

Definition emit (ev : event) : M unit :=
  λ w, (Ok (), World (rng w) (log w ++ [ev]) (files w) (uuids_drawn w) (clock w)).

(** [try: body except RuntimeError as e: handler(e)] *)
Definition try_except_RuntimeError {A} (body : M A) (handler : exc_class → M A)
  : M A :=
  λ w, match body w with
       | (Raise e, w') =>
           if issubclass e RuntimeError then handler e w' else (Raise e, w')
       | (Ok a, w') => (Ok a, w')
       end.

(** [for x in xs: acc = body(acc, x)] *)
Fixpoint for_each {A B} (xs : list A) (body : B → A → M B) (acc : B) : M B :=
  match xs with
  | [] => mret acc
  | x :: rest => acc' ← body acc x; for_each rest body acc'
  end.

Definition modify (f : world → world) : M unit := λ w, (Ok (), f w).

Definition set_rng (g : generator_state) (w : world) : world :=
  World g (log w) (files w) (uuids_drawn w) (clock w).

Definition set_files (fs : gmap string (list string)) (w : world) : world :=
  World (rng w) (log w) fs (uuids_drawn w) (clock w).

(** [torch.manual_seed(seed)] *)
Definition torch_manual_seed (E : environment) (seed : Z) : M unit :=
  λ w, emit (ManualSeed seed) (set_rng (manual_seed E seed) w).

(** [model.generate] called with keyword arguments *)
Definition model_generate (model : model_t) (kwargs : generate_kwargs)
  : M (list (list Z)) :=
  λ w, let (_, w1) := emit (Generate kwargs) w in
       let (r, g) := generate model (rng w1) kwargs in
       (r, set_rng g w1).

(** [shortuuid.uuid()] *)
Definition uuid (E : environment) : M string :=
  λ w, (Ok (shortuuid_uuid E (uuids_drawn w)),
        World (rng w) (log w) (files w) (S (uuids_drawn w)) (clock w)).

(** [time.time()] *)
Definition time (E : environment) : M pyfloat :=
  λ w, (Ok (time_time E (clock w)),
        World (rng w) (log w) (files w) (uuids_drawn w) (S (clock w))).

(** [open(path, mode)] for the modes ["a"] and ["w"], which create the
    file when it is missing; ["w"] truncates it. *)
Definition open_append (E : environment) (path : string) : M unit :=
  _ ← lift (open_ok E path);
  modify (λ w, set_files (<[path := default [] (files w !! path)]> (files w)) w).

Definition open_write (E : environment) (path : string) : M unit :=
  _ ← lift (open_ok E path);
  modify (λ w, set_files (<[path := []]> (files w)) w).

(** [open(path, "r")] and iteration over the lines of the file. *)
Definition read_lines (E : environment) (path : string) : M (list string) :=
  _ ← lift (open_ok E path);
  ((λ w, match files w !! path with
         | Some ls => (Ok ls, w)
         | None => (Raise FileNotFoundError, w)
         end) : M (list string)).

(** [fout.write(s)] on an open file. *)
Definition file_write (path : string) (s : string) : M unit :=
  modify (λ w, set_files (<[path := default [] (files w !! path) ++ [s]]> (files w)) w).

(** ** [get_model_answers] *)

(** Lines 191-198: cut the generated ids at the first one that is a stop
    token of the template. *)
Definition truncate_at_stop_token (stop_ids : option (list Z)) (output_ids : list Z)
  : list Z :=
  match stop_ids with
  | Some ((_ :: _) as ids) =>
      let stop_token_ids_index :=
        omap (λ p : nat * Z, if bool_decide (p.2 ∈ ids) then Some (Z.of_nat p.1) else None)
             (imap pair output_ids) in
      match stop_token_ids_index with
      | i :: _ => py_slice output_ids 0 i
      | [] => output_ids
      end
  | _ => output_ids
  end.

(** Lines 204-215: cut the decoded output at a stop string of the
    template. *)
Definition truncate_at_stop_str (stop : stop_str_t) (output : string) : string :=
  match stop with
  | StopList ((_ :: _) as l) =>
      let stop_str_indices :=
        merge_sort Z.le
          (omap (λ s, if bool_decide (0 < str_find output s)
                      then Some (str_find output s) else None) l) in
      match stop_str_indices with
      | i :: _ => str_slice_to output i
      | [] => output
      end
  | StopStr ((String _ _) as s) =>
      if bool_decide (0 < str_find output s)
      then str_slice_to output (str_find output s)
      else output
  | _ => output
  end.

(** Lines 217-222: delete every special token of the tokenizer. *)
Definition remove_special_tokens (values : list (string + list string))
    (output : string) : string :=
  fold_left (λ output special_token,
               match special_token with
               | inl tok => str_remove_all output tok
               | inr toks => fold_left str_remove_all toks output
               end)
            values output.

(** Lines 225-226. *)
Definition strip_xgen_prefix (conv : conversation) (output : string) : string :=
  if String.eqb (name conv) "xgen" && str_startswith output "Assistant:"
  then str_strip (str_remove_first output "Assistant:")
  else output.

(** What a turn has ready when it enters the [try] block. *)
Record turn_setup : Type := TurnSetup {
  ts_conv : conversation;
  ts_inputs : encoding;
  ts_logits_processor : list StopAfterEosTextGenerated.t;
  ts_do_sample : bool;
  ts_max_new_token : Z
}.

Section GetModelAnswers.

Variable E : environment.
Variables (model : model_t) (tokenizer : tokenizer_t).
Variable model_id : string.
Variable answer_file : string.
Variable MAX_NEW_TOKEN : Z.
Variable num_choices : Z.

(** The body of the [try] block (lines 172-229). *)
Definition sample (conv : conversation) (inputs : encoding)
    (logits_processor : list StopAfterEosTextGenerated.t)
    (do_sample : bool) (temperature : pyfloat) (max_new_token : Z) : M string :=
  output_ids ← model_generate model
    (GenerateKwargs (input_ids inputs) (attention_mask inputs)
       (pad_token_id tokenizer) (eos_token_id tokenizer) (pad_token_id tokenizer)
       do_sample temperature max_new_token logits_processor);
  output_ids ← lift (
    if is_encoder_decoder model then py_getitem output_ids 0
    else
      first ← py_getitem output_ids 0;
      prompt_ids ← py_getitem (rows (input_ids inputs)) 0;
      Ok (py_slice_from first (Z.of_nat (length prompt_ids))));
  _ ← emit (PrintNumGenerated (Z.of_nat (length output_ids)));
  let output_ids := truncate_at_stop_token (stop_token_ids conv) output_ids in
  output ← lift (decode tokenizer output_ids);
  let output := truncate_at_stop_str (stop_str conv) output in
  let output := remove_special_tokens (special_tokens_map_values tokenizer) output in
  let output := str_strip output in
  let output := strip_xgen_prefix conv output in
  _ ← emit (PrintGeneratedTokens output_ids);
  _ ← emit (PrintGeneratedText output);
  mret output.

(** The [except RuntimeError] handler (lines 230-233). *)
Definition on_runtime_error (question : json) (e : exc_class) : M string :=
  _ ← emit (PrintException e);
  qid ← lift (subscript_key question "question_id");
  _ ← emit (PrintErrorQuestionId qid);
  mret "ERROR"%string.

(** The part of a turn before the [try] block (lines 141-168): the
    prompt of the conversation so far, its tokens, the logits processor
    and the token budget. *)
Definition prepare_turn (question : json) (temperature : pyfloat)
    (conv : conversation) (j : Z) : M turn_setup :=
  all_turns ← lift (subscript_key question "turns");
  qs ← lift (subscript_index all_turns j);
  let conv := append_message conv (roles conv).1 qs in
  let conv := append_message conv (roles conv).2 JNull in
  prompt ← lift (get_prompt E conv);
  inputs ← lift (tokenize tokenizer prompt);
  let base_len := Z.of_nat (size1 (input_ids inputs)) in
  let logits_processor :=
    [StopAfterEosTextGenerated.init base_len (eos_token_id tokenizer)] in
  let num_input_tokens := Z.of_nat (size1 (input_ids inputs)) in
  _ ← emit (PrintTextInput prompt);
  _ ← emit (PrintInputTokens (input_ids inputs));
  _ ← emit (PrintAttentionMask (attention_mask inputs));
  _ ← emit (PrintNumInputTokens num_input_tokens);
  max_new_token ←
    (if decide (2048 < num_input_tokens + MAX_NEW_TOKEN) then
       let max_new_token := 2048 - num_input_tokens in
       _ ← emit (PrintReduced max_new_token num_input_tokens);
       mret max_new_token
     else mret MAX_NEW_TOKEN);
  let do_sample := negb (float_lt temperature (Finite (1 # 10000))) in
  mret (TurnSetup conv inputs logits_processor do_sample max_new_token).

(** One iteration of the loop over the turns (lines 141-236). *)
Definition answer_turn (question : json) (temperature : pyfloat)
    (state : conversation * list string) (j : Z)
  : M (conversation * list string) :=
  let (conv, turns) := state in
  setup ← prepare_turn question temperature conv j;
  output ← try_except_RuntimeError
    (sample (ts_conv setup) (ts_inputs setup) (ts_logits_processor setup)
            (ts_do_sample setup) temperature (ts_max_new_token setup))
    (on_runtime_error question);
  conv ← lift (update_last_message (ts_conv setup) (JStr output));
  mret (conv, turns ++ [output]).

(** One iteration of the loop over the choices (lines 137-238). *)
Definition answer_choice (question : json) (temperature : pyfloat)
    (choices : list json) (i : Z) : M (list json) :=
  _ ← torch_manual_seed E i;
  let conv := get_conversation_template E model_id in
  all_turns ← lift (subscript_key question "turns");
  n ← lift (py_len all_turns);
  js ← lift (py_range 0 n 1);
  '(_, turns) ← for_each js (answer_turn question temperature) (conv, []);
  mret (choices ++ [JDict [("index"%string, JInt i);
                           ("turns"%string, JList (JStr <$> turns))]]).

(** [question["category"] in temperature_config] and the lookup. *)
Definition choose_temperature (question : json) : result pyfloat :=
  category ← subscript_key question "category";
  match category with
  | JStr c => Ok (default (Finite (7 # 10)) (temperature_config E !! c))
  | JList _ | JDict _ => Raise TypeError
  | _ => Ok (Finite (7 # 10))
  end.

(** One iteration of the loop over the questions (lines 130-250). *)
Definition answer_question (_ : unit) (question : json) : M unit :=
  temperature ← lift (choose_temperature question);
  indices ← lift (py_range 0 num_choices 1);
  choices ← for_each indices (answer_choice question temperature) [];
  _ ← lift (os_makedirs E (os_path_dirname E answer_file));
  let path := os_path_expanduser E answer_file in
  _ ← open_append E path;
  qid ← lift (subscript_key question "question_id");
  answer_id ← uuid E;
  tstamp ← time E;
  let ans_json := JDict [("question_id"%string, qid);
                         ("answer_id"%string, JStr answer_id);
                         ("model_id"%string, JStr model_id);
                         ("choices"%string, JList choices);
                         ("tstamp"%string, JFloat tstamp)] in
  file_write path (json_dumps E ans_json ++ String "010"%char EmptyString).

Definition answer_questions (questions : list json) : M unit :=
  for_each questions answer_question ().

End GetModelAnswers.

Definition get_model_answers (E : environment) (model_path model_id : string)
    (questions : list json) (answer_file : string) (max_new_token num_choices : Z)
    (num_gpus_per_model : Z) (max_gpu_memory dtype : option string)
    (revision : string) : M unit :=
  '(model, tokenizer) ← lift (load_model E model_path
      (LoadModelKwargs revision "cuda" num_gpus_per_model max_gpu_memory dtype
                       false false false));
  answer_questions E model tokenizer model_id answer_file max_new_token
                   num_choices questions.

(** ** [run_eval] *)

(** Lines 71-88: the assertion, the [use_ray] flag and the chunks handed
    to the workers, in dispatch order. *)
Definition split_questions {A} (questions : list A)
    (num_gpus_per_model num_gpus_total : Z) : result (bool * list (list A)) :=
  r ← py_mod num_gpus_total num_gpus_per_model;
  if decide (r = 0) then
    groups ← py_floordiv num_gpus_total num_gpus_per_model;
    let use_ray := bool_decide (1 < groups) in
    groups ← py_floordiv num_gpus_total num_gpus_per_model;
    chunk_size ← py_floordiv (Z.of_nat (length questions)) groups;
    starts ← py_range 0 (Z.of_nat (length questions)) chunk_size;
    Ok (use_ray, map (λ i, py_slice questions i (i + chunk_size)) starts)
  else Raise AssertionError.

(** A task submitted with [ray.remote(...).remote(...)]: the caller gets a
    handle and goes on; the task's exception, if any, is kept in the
    handle.  The tasks are run one after the other, in submission order. *)
Definition ray_remote (task : M unit) : M (result unit) :=
  λ w, let (r, w') := task w in (Ok r, w').

(** [ray.get(handles)] raises the first exception kept in a handle. *)
Fixpoint ray_get (handles : list (result unit)) : result unit :=
  match handles with
  | [] => Ok ()
  | Ok _ :: rest => ray_get rest
  | Raise e :: _ => Raise e
  end.

(** Lines 74-100: hand every chunk to a worker, directly or through ray. *)
Definition dispatch (E : environment) (model_path model_id answer_file : string)
    (max_new_token num_choices num_gpus_per_model : Z)
    (max_gpu_memory dtype : option string) (revision : string)
    (use_ray : bool) (chunks : list (list json)) : M unit :=
  let get_answers_func (chunk : list json) : M (result unit) :=
    let call := get_model_answers E model_path model_id chunk answer_file
                  max_new_token num_choices num_gpus_per_model max_gpu_memory
                  dtype revision in
    if use_ray then ray_remote call else (_ ← call; mret (Ok ())) in
  ans_handles ← for_each chunks
    (λ ans_handles chunk, h ← get_answers_func chunk; mret (ans_handles ++ [h])) [];
  if use_ray then lift (ray_get ans_handles) else mret ().

Definition run_eval (E : environment) (model_path model_id question_file : string)
    (question_begin question_end : option Z) (answer_file : string)
    (max_new_token num_choices num_gpus_per_model num_gpus_total : Z)
    (max_gpu_memory dtype : option string) (revision : string) : M unit :=
  questions ← lift (load_questions E question_file question_begin question_end);
  plan ← lift (split_questions questions num_gpus_per_model num_gpus_total);
  dispatch E model_path model_id answer_file max_new_token num_choices
           num_gpus_per_model max_gpu_memory dtype revision plan.1 plan.2.

(** ** [reorg_answer_file] *)

(** [json.loads(l)["question_id"]]; question ids are JSON integers, an id
    of another type is rejected here. *)
Definition line_question_id (E : environment) (l : string) : result Z :=
  record ← json_loads E l;
  qid ← subscript_key record "question_id";
  match qid with
  | JInt z => Ok z
  | _ => Raise TypeError
  end.

(** Lines 255-259: the dictionary built from the lines read. *)
Fixpoint collect_answers (E : environment) (answers : gmap Z string)
    (lines : list string) : result (gmap Z string) :=
  match lines with
  | [] => Ok answers
  | l :: rest =>
      qid ← line_question_id E l;
      collect_answers E (<[qid := l]> answers) rest
  end.

(** [sorted(list(answers.keys()))] *)
Definition sorted_keys (answers : gmap Z string) : list Z :=
  merge_sort Z.le (map_to_list answers).*1.

(** [answers[qid]] *)
Definition answers_getitem (answers : gmap Z string) (qid : Z) : result string :=
  match answers !! qid with Some l => Ok l | None => Raise KeyError end.

Definition reorg_answer_file (E : environment) (answer_file : string) : M unit :=
  lines ← read_lines E answer_file;
  answers ← lift (collect_answers E ∅ lines);
  let qids := sorted_keys answers in
  _ ← open_write E answer_file;
  for_each qids
    (λ (_ : unit) qid,
       l ← lift (answers_getitem answers qid); file_write answer_file l) ().

(** ** The script body (lines 267-364) *)

Record arguments : Type := Arguments_ {
  arg_model_path : string;
  arg_model_id : string;
  arg_bench_name : string;
  arg_question_begin : option Z;
  arg_question_end : option Z;
  arg_answer_file : option string;
  arg_max_new_token : Z;
  arg_num_choices : Z;
  arg_num_gpus_per_model : Z;
  arg_num_gpus_total : Z;
  arg_max_gpu_memory : option string;
  arg_dtype : option string;
  arg_revision : string
}.

Definition main (E : environment) (args : arguments) : M unit :=
  _ ← lift (py_floordiv (arg_num_gpus_total args) (arg_num_gpus_per_model args));
  let question_file := ("data/" ++ arg_bench_name args ++ "/question.jsonl")%string in
  let answer_file :=
    match arg_answer_file args with
    | Some ((String _ _) as f) => f
    | _ => ("data/" ++ arg_bench_name args ++ "/model_answer/"
              ++ arg_model_id args ++ ".jsonl")%string
    end in
  _ ← emit (PrintOutputTo answer_file);
  _ ← run_eval E (arg_model_path args) (arg_model_id args) question_file
        (arg_question_begin args) (arg_question_end args) answer_file
        (arg_max_new_token args) (arg_num_choices args)
        (arg_num_gpus_per_model args) (arg_num_gpus_total args)
        (arg_max_gpu_memory args) (arg_dtype args) (arg_revision args);
  reorg_answer_file E answer_file.

(** ** A small environment to run the script in

    A character-level tokenizer, a model that answers every prompt with
    the same two tokens (or raises, for [failing_model]), a template that
    renders the messages one per line, and a serializer that keeps the
    question id of a record.  It is used to evaluate the script on
    concrete inputs. *)
Module Demo.

Definition encode_text (s : string) : list Z :=
  map (λ c, Z.of_nat (nat_of_ascii c)) (list_ascii_of_string s).

Definition decode_ids (ids : list Z) : string :=
  string_of_list_ascii (map (λ z, ascii_of_nat (Z.to_nat z)) ids).

Definition tokenizer : tokenizer_t :=
  Tokenizer
    (λ prompt,
       let ids := encode_text prompt in
       Ok (Encoding (Tensor (length ids) [ids])
                    (Tensor (length ids) [map (λ _, 1) ids])))
    0 None
    (λ ids, Ok (decode_ids ids))
    [inl "<s>"%string].

(** Echoes the prompt and appends the tokens of [" ok<s>"]. *)
Definition echo_model : model_t :=
  Model
    (λ g kwargs,
       (Ok (map (λ row, row ++ encode_text " ok<s>") (rows (kw_input_ids kwargs))),
        N.succ g))
    false.

(** Raises [e] on every call. *)
Definition failing_model (e : exc_class) : model_t :=
  Model (λ g _, (Raise e, g)) false.

Definition template : conversation :=
  Conversation "demo" ("USER"%string, "ASSISTANT"%string) [] (StopStr "###") None.

Definition render_message (m : string * json) : string :=
  match m.2 with
  | JStr s => (m.1 ++ ": " ++ s ++ String "010"%char EmptyString)%string
  | _ => (m.1 ++ ":")%string
  end.

Definition render (conv : conversation) : result string :=
  Ok (foldr (λ m rest, (render_message m ++ rest)%string) EmptyString
            (messages conv)).

Definition digit_of (c : ascii) : option Z :=
  let n := nat_of_ascii c in
  if ((48 <=? n) && (n <=? 57))%nat then Some (Z.of_nat n - 48) else None.

(** The decimal number a line starts with. *)
Fixpoint parse_digits (acc : Z) (s : string) : Z :=
  match s with
  | String c s' =>
      match digit_of c with
      | Some d => parse_digits (10 * acc + d) s'
      | None => acc
      end
  | EmptyString => acc
  end.

Fixpoint digits_fuel (fuel : nat) (n : Z) (acc : string) : string :=
  match fuel with
  | O => acc
  | S k =>
      let acc' := String (ascii_of_nat (Z.to_nat (48 + n mod 10))) acc in
      if decide (n < 10) then acc' else digits_fuel k (n / 10) acc'
  end.

(** Only the question id of a record is written. *)
Definition dumps (v : json) : string :=
  match subscript_key v "question_id" with
  | Ok (JInt z) => digits_fuel 20 z EmptyString
  | _ => "null"%string
  end.

Definition loads (l : string) : result json :=
  match l with
  | String c _ =>
      match digit_of c with
      | Some _ => Ok (JDict [("question_id"%string, JInt (parse_digits 0 l))])
      | None => Raise JSONDecodeError
      end
  | EmptyString => Raise JSONDecodeError
  end.

Definition questions : list json :=
  [ JDict [("question_id"%string, JInt 82);
           ("category"%string, JStr "math");
           ("turns"%string, JList [JStr "1+1?"])];
    JDict [("question_id"%string, JInt 81);
           ("category"%string, JStr "writing");
           ("turns"%string, JList [JStr "Hi"; JStr "More"])] ].

Definition env (model : model_t) : environment :=
  Environment
    (λ _ _ _, Ok questions)
    (list_to_map [("math"%string, Finite 0); ("writing"%string, Finite (7 # 10))])
    (λ _ _, Ok (model, tokenizer))
    (λ _, template)
    render
    (λ seed, Z.to_N seed)
    (λ n, string_of_list_ascii (replicate (S n) "u"%char))
    (λ n, Finite (Z.of_nat n # 1))
    dumps
    loads
    (λ _, "data"%string)
    (λ path, path)
    (λ _, Ok ())
    (λ _, Ok ()).

Definition world0 : world := World 0%N [] ∅ 0 0.

Definition args : arguments :=
  Arguments_ "demo-path" "demo" "mt_bench" None None (Some "out.jsonl"%string)
             1024 2 1 1 None None "main".

End Demo.

(** ** Observations on runs *)

(** [m] only appends to the log, and only events that satisfy [Q]. *)
Definition appends {A} (Q : event → Prop) (m : M A) : Prop :=
  ∀ w r w', m w = (r, w') → ∃ evs, log w' = log w ++ evs ∧ Forall Q evs.

Definition is_manual_seed (ev : event) : Prop :=
  match ev with ManualSeed _ => True | _ => False end.

Definition is_console (ev : event) : Prop :=
  match ev with ManualSeed _ | Generate _ => False | _ => True end.

(** The budget of a sampling call: the configured [max_new_token] when
    it fits after the prompt in a context of 2048 tokens, what is left of
    the context otherwise. *)
Definition within_budget (max_new_token : Z) (ev : event) : Prop :=
  match ev with
  | Generate kwargs =>
      let num_input_tokens := Z.of_nat (size1 (kw_input_ids kwargs)) in
      kw_max_new_tokens kwargs =
      if decide (num_input_tokens + max_new_token ≤ 2048)
      then max_new_token
      else 2048 - num_input_tokens
  | _ => True
  end.

(** Two runs of [m] agree when they have the same outcome and append the
    same events; they agree up to the generator when they also leave the
    random generator in the same state. *)
Definition agree {A} (m : M A) (w1 w2 : world) : Prop :=
  ∃ r evs v1 v2,
    m w1 = (r, v1) ∧ m w2 = (r, v2)
    ∧ log v1 = log w1 ++ evs ∧ log v2 = log w2 ++ evs.

Definition agree_rng {A} (m : M A) (w1 w2 : world) : Prop :=
  ∃ r evs v1 v2,
    m w1 = (r, v1) ∧ m w2 = (r, v2)
    ∧ log v1 = log w1 ++ evs ∧ log v2 = log w2 ++ evs
    ∧ rng v1 = rng v2.

(** [m] depends on the world through the random generator only. *)
Definition seeded {A} (m : M A) : Prop :=
  ∀ w1 w2, rng w1 = rng w2 → agree_rng m w1 w2.

(** [m] does not depend on the world. *)
Definition deterministic {A} (m : M A) : Prop :=
  ∀ w1 w2, agree m w1 w2.

(** [m] returns or raises the same [r] from every world and leaves the
    log as it is. *)
Definition quiet {A} (m : M A) (r : result A) : Prop :=
  ∀ w, ∃ w', m w = (r, w') ∧ log w' = log w.

(** The seed an event sets, if it is a call of [torch.manual_seed]. *)
Definition seed_of (ev : event) : option Z :=
  match ev with ManualSeed seed => Some seed | _ => None end.

(** Every run of [m] relates the world it starts in to the world it ends
    in by [R]. *)
Definition respects (R : relation world) {A} (m : M A) : Prop :=
  ∀ w r w', m w = (r, w') → R w w'.

(** The files, the ids drawn and the clock are the same. *)
Definition same_store (w w' : world) : Prop :=
  files w' = files w ∧ uuids_drawn w' = uuids_drawn w ∧ clock w' = clock w.

(** The lines of a file, none when it does not exist. *)
Definition file_lines (w : world) (path : string) : list string :=
  default [] (files w !! path).

(** One entry of [choices]: the index of the choice and one completion
    per turn. *)
Definition is_choice (num_turns : nat) (i : Z) (c : json) : Prop :=
  ∃ turns : list string,
    c = JDict [("index"%string, JInt i); ("turns"%string, JList (JStr <$> turns))]
    ∧ length turns = num_turns.

(** The entry of the choice [i] of a question: one completion for each
    of the [len(question["turns"])] turns. *)
Definition is_choice_of (question : json) (i : Z) (c : json) : Prop :=
  ∃ all_turns num_turns,
    subscript_key question "turns" = Ok all_turns
    ∧ py_len all_turns = Ok num_turns
    ∧ is_choice (Z.to_nat num_turns) i c.

(** The record written for a question: the five fields [question_id],
    [answer_id], [model_id], [choices] and [tstamp], with one entry of
    [choices] for each of the [num_choices] choices. *)
Definition is_answer_record (model_id : string) (num_choices : Z)
    (question : json) (answer_id : string) (tstamp : pyfloat) (ans_json : json)
  : Prop :=
  ∃ qid choices,
    subscript_key question "question_id" = Ok qid
    ∧ length choices = Z.to_nat num_choices
    ∧ (∀ (i : nat) c, choices !! i = Some c → is_choice_of question (Z.of_nat i) c)
    ∧ ans_json = JDict [("question_id"%string, qid);
                        ("answer_id"%string, JStr answer_id);
                        ("model_id"%string, JStr model_id);
                        ("choices"%string, JList choices);
                        ("tstamp"%string, JFloat tstamp)].

(** The line written for a question: its record, serialized, and a
    newline. *)
Definition is_answer_line (E : environment) (model_id : string) (num_choices : Z)
    (question : json) (answer_id : string) (tstamp : pyfloat) (line : string)
  : Prop :=
  ∃ ans_json,
    is_answer_record model_id num_choices question answer_id tstamp ans_json
    ∧ line = (json_dumps E ans_json ++ String "010"%char EmptyString)%string.

(** A question record the script can process: a category the temperature
    can be chosen from, a list of turns and a question id. *)
Definition well_formed_question (E : environment) (question : json) : Prop :=
  is_ok (choose_temperature E question) = true
  ∧ (∃ turns, subscript_key question "turns" = Ok (JList turns))
  ∧ is_ok (subscript_key question "question_id") = true.

(** What the sampling calls of a run have in common: the ids and the
    mask come from one tokenization, the padding token also stands for the
    beginning of the sequence, sampling is switched off below a
    temperature of 1e-4, the temperature is the one chosen for one of the
    questions, and the only logits processor is a
    [StopAfterEosTextGenerated] whose [base_len] is the length of the
    prompt. *)
Definition sampling_call (E : environment) (tokenizer : tokenizer_t)
    (questions : list json) (ev : event) : Prop :=
  match ev with
  | Generate kwargs =>
      (∃ prompt,
         tokenize tokenizer prompt
         = Ok (Encoding (kw_input_ids kwargs) (kw_attention_mask kwargs)))
      ∧ kw_bos_token_id kwargs = pad_token_id tokenizer
      ∧ kw_pad_token_id kwargs = pad_token_id tokenizer
      ∧ kw_eos_token_id kwargs = eos_token_id tokenizer
      ∧ kw_do_sample kwargs
        = negb (float_lt (kw_temperature kwargs) (Finite (1 # 10000)))
      ∧ kw_logits_processor kwargs
        = [StopAfterEosTextGenerated.init
             (Z.of_nat (size1 (kw_input_ids kwargs))) (eos_token_id tokenizer)]
      ∧ ∃ question,
          question ∈ questions
          ∧ choose_temperature E question = Ok (kw_temperature kwargs)
  | _ => True
  end.

(** The number of sampling calls among some events. *)
Definition generate_calls (evs : list event) : nat :=
  length (omap (λ ev, match ev with Generate kwargs => Some kwargs | _ => None end)
               evs).

Definition no_generate (ev : event) : Prop :=
  match ev with Generate _ => False | _ => True end.

(** [m] appends at most [n] sampling calls to the log, and exactly [n]
    when it returns. *)
Definition calls {A} (n : nat) (m : M A) : Prop :=
  ∀ w r w', m w = (r, w') →
    ∃ evs, log w' = log w ++ evs
           ∧ (generate_calls evs ≤ n)%nat
           ∧ (is_ok r = true → generate_calls evs = n).

(** [len(question["turns"])], 0 when there is no such length. *)
Definition num_turns (question : json) : nat :=
  match subscript_key question "turns" ≫= py_len with
  | Ok n => Z.to_nat n
  | Raise _ => 0%nat
  end.

(** Every file but [target] is as it was. *)
Definition other_files (target : string) (w w' : world) : Prop :=
  ∀ path, path ≠ target → files w' !! path = files w !! path.

(** The demo environment on a system where a leading [~] stands for
    [/home/demo]. *)
Definition demo_env_home (model : model_t) : environment :=
  let E := Demo.env model in
  Environment (load_questions E) (temperature_config E) (load_model E)
    (get_conversation_template E) (get_prompt E) (manual_seed E)
    (shortuuid_uuid E) (time_time E) (json_dumps E) (json_loads E)
    (os_path_dirname E)
    (λ path, match path with
             | String "~" rest => ("/home/demo" ++ rest)%string
             | _ => path
             end)
    (os_makedirs E) (open_ok E).

(** * Properties *)

(** ** Sorting and searching *)

(** The head of a sorted list of integers is its minimum. *)
Lemma merge_sort_head (xs : list Z) :
  match merge_sort Z.le xs with
  | [] => xs = []
  | i :: _ => i ∈ xs ∧ ∀ x, x ∈ xs → i ≤ x
  end.
Proof.
  pose proof (merge_sort_Permutation Z.le xs) as Hperm.
  pose proof (StronglySorted_merge_sort Z.le xs) as Hsorted.
  destruct (merge_sort Z.le xs) as [|i rest].
  - symmetry in Hperm. by apply Permutation_nil_r in Hperm.
  - split.
    + rewrite <- Hperm. by left.
    + intros x Hx. rewrite <- Hperm in Hx.
      apply StronglySorted_inv in Hsorted as [_ Hall].
      apply elem_of_cons in Hx as [->|Hx]; [lia|].
      by eapply Forall_forall in Hall.
Qed.

Lemma find_from_unfold (sub s : string) (i : Z) :
  find_from sub s i =
  if String.prefix sub s then i
  else match s with
       | EmptyString => -1
       | String _ s' => find_from sub s' (i + 1)
       end.
Proof. by destruct s. Qed.

(** [find_from] returns the offset of the first suffix that starts with
    [sub], counted from [i], or [-1] when there is none. *)
Lemma find_from_spec (sub s : string) (i : Z) :
  (find_from sub s i = -1
   ∧ ∀ k, (k ≤ String.length s)%nat → String.prefix sub (str_drop k s) = false)
  ∨ (∃ k : nat, find_from sub s i = i + Z.of_nat k
       ∧ (k ≤ String.length s)%nat
       ∧ String.prefix sub (str_drop k s) = true
       ∧ ∀ j, (j < k)%nat → String.prefix sub (str_drop j s) = false).
Proof.
  revert i. induction s as [|c s IH]; intros i; rewrite find_from_unfold.
  - destruct (String.prefix sub EmptyString) eqn:Hp.
    + right. exists 0%nat. split; [lia|]. split; [done|]. split; [done|]. lia.
    + left. split; [done|]. intros k _. by destruct k.
  - destruct (String.prefix sub (String c s)) eqn:Hp.
    + right. exists 0%nat. split; [lia|]. split; [simpl; lia|]. split; [done|]. lia.
    + destruct (IH (i + 1)) as [[Hnone Hall]|(k & Hk & Hlen & Hpre & Hmin)].
      * left. split; [done|]. intros [|k] Hk; [done|]. apply Hall. simpl in Hk. lia.
      * right. exists (S k). split; [rewrite Hk; lia|]. split; [simpl; lia|].
        split; [done|]. intros [|j] Hj; [done|]. apply Hmin. lia.
Qed.

(** A string that starts with [sub] has it at index 0. *)
Lemma str_find_startswith (output sub : string) :
  str_startswith output sub = true → str_find output sub = 0.
Proof.
  unfold str_startswith, str_find. intros H.
  by rewrite find_from_unfold, H.
Qed.

(** [find] is [-1] or a valid index. *)
Lemma str_find_range (output sub : string) :
  -1 ≤ str_find output sub ≤ Z.of_nat (String.length output).
Proof.
  unfold str_find.
  destruct (find_from_spec sub output 0) as [[-> _]|(k & -> & Hk & _)]; lia.
Qed.

(** ** Stop strings (lines 204-215) *)

(** The positive first-occurrence indices of the stop strings of a list. *)
Lemma elem_of_positive_finds (output : string) (l : list string) (i : Z) :
  i ∈ omap (λ s, if bool_decide (0 < str_find output s)
                 then Some (str_find output s) else None) l
  ↔ ∃ s, s ∈ l ∧ str_find output s = i ∧ 0 < i.
Proof.
  rewrite list_elem_of_omap. split.
  - intros (s & Hs & Hi). exists s. case_bool_decide; naive_solver.
  - intros (s & Hs & Hi & Hpos). exists s. split; [done|].
    rewrite bool_decide_eq_true_2 by lia. by rewrite Hi.
Qed.

(** C10, as amended: the stop-string step cuts the decoded output only at
    a strictly positive index.  With a list of stop strings it cuts at the
    smallest strictly positive first-occurrence index ([str.find]) among
    them, and a stop string whose first occurrence is at index 0 is
    ignored, even when it occurs again later; with a single stop string
    it cuts at the first occurrence when that index is positive; without
    such an index the output is left as it is. *)
Theorem truncate_at_stop_str_positive (stop : stop_str_t) (output : string) :
  match stop with
  | StopNone => truncate_at_stop_str stop output = output
  | StopStr s =>
      truncate_at_stop_str stop output =
      if bool_decide (0 < str_find output s)
      then str_slice_to output (str_find output s)
      else output
  | StopList l =>
      ((∀ s, s ∈ l → str_find output s ≤ 0)
       ∧ truncate_at_stop_str stop output = output)
      ∨ (∃ i, 0 < i
            ∧ (∃ s, s ∈ l ∧ str_find output s = i)
            ∧ (∀ s, s ∈ l → 0 < str_find output s → i ≤ str_find output s)
            ∧ truncate_at_stop_str stop output = str_slice_to output i)
  end.
Proof.
  destruct stop as [|s|l]; [done| |].
  - destruct s as [|c s]; [|done].
    simpl. rewrite bool_decide_eq_false_2; [done|].
    rewrite (str_find_startswith output EmptyString); [lia|].
    by destruct output.
  - destruct l as [|s0 l]; [left; split; [intros s Hs; by apply elem_of_nil in Hs|done]|].
    unfold truncate_at_stop_str.
    pose proof (merge_sort_head
      (omap (λ s, if bool_decide (0 < str_find output s)
                  then Some (str_find output s) else None) (s0 :: l))) as Hhead.
    destruct (merge_sort Z.le _) as [|i rest].
    + left. split; [|done]. intros s Hs.
      destruct (decide (0 < str_find output s)) as [Hpos|]; [|lia].
      assert (str_find output s ∈ omap (λ s, if bool_decide (0 < str_find output s)
                then Some (str_find output s) else None) (s0 :: l)) as Hin
        by (apply elem_of_positive_finds; eauto).
      rewrite Hhead in Hin. by apply elem_of_nil in Hin.
    + right. destruct Hhead as [Hin Hmin].
      apply elem_of_positive_finds in Hin as (s & Hs & Hi & Hpos).
      exists i. split; [done|]. split; [eauto|]. split; [|done].
      intros s' Hs' Hpos'. apply Hmin, elem_of_positive_finds. eauto.
Qed.

Lemma truncate_at_stop_str_positive_witness :
  truncate_at_stop_str (StopStr "cd") "abXcd" = "abX"%string.
Proof.
  pose proof (truncate_at_stop_str_positive (StopStr "cd") "abXcd") as H.
  simpl in H. exact H.
Defined.

(** The output ["abXcd"] begins with the stop string ["ab"], and the step
    still truncates it, at the other stop string; and ["ab"] occurs in
    ["abXab"] at the positive index 3 without the output being cut
    there. *)
Lemma stop_str_at_index_0_counterexample :
  str_startswith "abXcd" "ab" = true
  ∧ truncate_at_stop_str (StopList ["ab"; "cd"]%string) "abXcd" = "abX"%string
  ∧ String.prefix "ab" (str_drop 3 "abXab") = true
  ∧ truncate_at_stop_str (StopList ["ab"%string]) "abXab" = "abXab"%string.
Proof. by vm_compute. Qed.

(** ** The logits processor *)

(** Comparing two rows of the same width position by position. *)
Lemma forallb_zip_eq (a b : list Z) :
  length a = length b →
  forallb (λ p : Z * Z, bool_decide (p.1 = p.2)) (zip a b) = bool_decide (a = b).
Proof.
  revert b. induction a as [|x a IH]; intros [|y b] Hlen; simplify_eq/=; [done|].
  rewrite IH by done. repeat case_bool_decide; naive_solver.
Qed.

Lemma length_py_slice_from_neg {A} (r : list A) (k : nat) :
  (0 < k ≤ length r)%nat → length (py_slice_from r (- Z.of_nat k)) = k.
Proof.
  intros Hk. unfold py_slice_from, clamp_index. rewrite length_drop.
  case_decide; lia.
Qed.

(** Once the sequence is longer than the prompt and has at least three
    tokens, every row ending in the stop tokens gets the forced
    end-of-sequence scores (0 at [eos_token_id], [-inf] elsewhere) and every
    other row keeps its scores. *)
Lemma call_forces_eos (self : StopAfterEosTextGenerated.t)
    (ids : tensor Z) (scores : tensor pyfloat) :
  wf_tensor ids →
  size0 ids = size0 scores →
  0 ≤ StopAfterEosTextGenerated.eos_token_id self < Z.of_nat (size1 scores) →
  StopAfterEosTextGenerated.base_len self < Z.of_nat (size1 ids) →
  (3 ≤ size1 ids)%nat →
  StopAfterEosTextGenerated.call self ids scores =
  Ok (Tensor (size1 scores)
        (zip_with
           (λ r row,
              if decide (py_slice_from r (-3) = StopAfterEosTextGenerated.stop_token_ids)
              then <[Z.to_nat (StopAfterEosTextGenerated.eos_token_id self) := Finite 0]>
                     (replicate (size1 scores) NegInf)
              else row)
           (rows ids) (rows scores))).
Proof.
  intros Hwf Hsize Heos Hlen H3.
  unfold StopAfterEosTextGenerated.call. rewrite decide_True by done.
  unfold py_setitem. rewrite length_replicate.
  rewrite (decide_False (P := _ < 0)) by lia. rewrite decide_True by done.
  cbn [mbind result_bind].
  unfold eq_all_dim1. cbn [size1 last_columns rows].
  change (length StopAfterEosTextGenerated.stop_token_ids) with 3%nat.
  rewrite (Nat.min_l 3) by lia. rewrite decide_True by done.
  cbn [mbind result_bind]. unfold masked_assign.
  rewrite decide_True by (by rewrite !length_map).
  f_equal. f_equal. unfold size0 in Hsize. unfold wf_tensor in Hwf.
  revert Hwf Hsize. generalize (rows scores). generalize (rows ids).
  induction l as [|r l IH]; intros [|row l'] Hwf Hsize; simplify_eq/=; [done|].
  apply Forall_cons in Hwf as [Hr Hwf].
  rewrite forallb_zip_eq
    by (rewrite (length_py_slice_from_neg r 3); [done|lia]).
  f_equal; [|by apply IH].
  case_bool_decide; by (rewrite decide_True by done) || (rewrite decide_False by done).
Qed.

(** Up to the length of the prompt the processor returns the scores as
    they are. *)
Lemma call_within_prompt (self : StopAfterEosTextGenerated.t)
    (ids : tensor Z) (scores : tensor pyfloat) :
  Z.of_nat (size1 ids) ≤ StopAfterEosTextGenerated.base_len self →
  StopAfterEosTextGenerated.call self ids scores = Ok scores.
Proof.
  intros H. unfold StopAfterEosTextGenerated.call. by rewrite decide_False by lia.
Qed.

(** On a sequence of exactly two tokens that is longer than the prompt,
    the slice of the last three columns has width 2, comparing it with the
    three stop tokens is a shape mismatch, and the call raises. *)
Lemma call_raises_on_two_tokens (self : StopAfterEosTextGenerated.t)
    (ids : tensor Z) (scores : tensor pyfloat) :
  size1 ids = 2%nat →
  StopAfterEosTextGenerated.base_len self < 2 →
  0 ≤ StopAfterEosTextGenerated.eos_token_id self < Z.of_nat (size1 scores) →
  StopAfterEosTextGenerated.call self ids scores = Raise RuntimeError.
Proof.
  intros H2 Hbase Heos.
  unfold StopAfterEosTextGenerated.call. rewrite decide_True by lia.
  unfold py_setitem. rewrite length_replicate.
  rewrite (decide_False (P := _ < 0)) by lia. rewrite decide_True by done.
  cbn [mbind result_bind].
  unfold eq_all_dim1. cbn [size1 last_columns rows]. rewrite H2.
  by cbn.
Qed.

(** A sequence of one token longer than the prompt: the single column is
    broadcast against the three stop tokens, no row can equal all three,
    and the scores come back unchanged. *)
Lemma call_single_token (self : StopAfterEosTextGenerated.t)
    (ids : tensor Z) (scores : tensor pyfloat) :
  wf_tensor ids →
  size0 ids = size0 scores →
  0 ≤ StopAfterEosTextGenerated.eos_token_id self < Z.of_nat (size1 scores) →
  size1 ids = 1%nat →
  StopAfterEosTextGenerated.call self ids scores = Ok scores.
Proof.
  intros Hwf Hsize Heos H1.
  unfold StopAfterEosTextGenerated.call. case_decide; [|done].
  unfold py_setitem. rewrite length_replicate.
  rewrite (decide_False (P := _ < 0)) by lia. rewrite decide_True by done.
  cbn [mbind result_bind].
  unfold eq_all_dim1. cbn [size1 last_columns rows].
  change (length StopAfterEosTextGenerated.stop_token_ids) with 3%nat.
  rewrite H1. cbn [Nat.min decide decide_rel]. 
  rewrite decide_False by done. rewrite decide_True by done.
  cbn [mbind result_bind]. unfold masked_assign.
  rewrite decide_True by (by rewrite !length_map).
  destruct scores as [V srows]. f_equal. f_equal. cbn [rows size1].
  unfold size0 in Hsize. unfold wf_tensor in Hwf. rewrite H1 in Hwf.
  cbn [rows] in Hsize. clear Heos. revert Hwf Hsize. generalize (rows ids).
  intros l. revert srows.
  induction l as [|r l IH]; intros [|row l'] Hwf Hsize; simplify_eq/=; [done|].
  apply Forall_cons in Hwf as [Hr Hwf].
  destruct r as [|x [|? ?]]; simplify_eq/=.
  rewrite IH by done. f_equal.
  unfold py_slice_from, clamp_index. simpl.
  repeat case_bool_decide; simplify_eq/=; done.
Qed.

(** C3, as amended: on well-shaped tensors and with [eos_token_id] a
    valid index of a score row, the call returns; when the sequence is
    longer than [base_len] and has at least three tokens, each row whose
    last three token ids are [15501, 281, 926] gets the score 0 at
    [eos_token_id] and [-inf] everywhere else, and every other row keeps
    its scores; when the sequence is no longer than [base_len], or has a
    single token, every row keeps its scores. *)
Theorem stop_after_eos_text_generated (self : StopAfterEosTextGenerated.t)
    (ids : tensor Z) (scores : tensor pyfloat) :
  wf_tensor ids →
  size0 ids = size0 scores →
  0 ≤ StopAfterEosTextGenerated.eos_token_id self < Z.of_nat (size1 scores) →
  Z.of_nat (size1 ids) ≤ StopAfterEosTextGenerated.base_len self
  ∨ size1 ids = 1%nat ∨ (3 ≤ size1 ids)%nat →
  ∃ out,
    StopAfterEosTextGenerated.call self ids scores = Ok out
    ∧ size1 out = size1 scores
    ∧ size0 out = size0 scores
    ∧ ∀ (k : nat) r row,
        rows ids !! k = Some r → rows scores !! k = Some row →
        rows out !! k =
        Some (if decide (StopAfterEosTextGenerated.base_len self < Z.of_nat (size1 ids)
                         ∧ py_slice_from r (-3)
                           = StopAfterEosTextGenerated.stop_token_ids)
              then <[Z.to_nat (StopAfterEosTextGenerated.eos_token_id self) := Finite 0]>
                     (replicate (size1 scores) NegInf)
              else row).
Proof.
  intros Hwf Hsize Heos Hlen.
  destruct (decide (Z.of_nat (size1 ids) ≤ StopAfterEosTextGenerated.base_len self))
    as [Hshort|Hlong].
  { exists scores. split; [by apply call_within_prompt|]. split; [done|].
    split; [done|]. intros k r row _ Hrow. by rewrite decide_False by lia. }
  destruct Hlen as [?|[H1|H3]]; [done| |].
  - exists scores. split; [by apply call_single_token|]. split; [done|].
    split; [done|]. intros k r row Hr Hrow. rewrite decide_False; [done|].
    intros [_ Hstop].
    assert (length r = 1%nat) as Hr1.
    { rewrite <- H1. eapply (proj1 (Forall_forall _ _) Hwf).
      by eapply list_elem_of_lookup_2. }
    apply (f_equal length) in Hstop. unfold py_slice_from in Hstop.
    rewrite length_drop in Hstop. simpl in Hstop. lia.
  - eexists. split; [apply call_forces_eos; done || lia|]. split; [done|].
    split.
    + unfold size0 in *. cbn [rows]. rewrite length_zip_with. lia.
    + intros k r row Hr Hrow. cbn [rows].
      rewrite lookup_zip_with, Hr, Hrow. cbn [mbind option_bind].
      f_equal.
      destruct (decide (py_slice_from r (-3) = StopAfterEosTextGenerated.stop_token_ids))
        as [Hstop|Hother].
      * by rewrite decide_True by (split; [lia|done]).
      * by rewrite decide_False by (by intros [_ ?]).
Qed.

Lemma stop_after_eos_text_generated_witness :
  ∃ out,
    StopAfterEosTextGenerated.call (StopAfterEosTextGenerated.init 2 1)
      (Tensor 4 [[1; 15501; 281; 926]; [15501; 281; 926; 1]])
      (Tensor 3 [[Finite 1; Finite 2; Finite 3]; [Finite 1; Finite 2; Finite 3]])
    = Ok out
    ∧ rows out = [[NegInf; Finite 0; NegInf]; [Finite 1; Finite 2; Finite 3]].
Proof.
  destruct (stop_after_eos_text_generated (StopAfterEosTextGenerated.init 2 1)
              (Tensor 4 [[1; 15501; 281; 926]; [15501; 281; 926; 1]])
              (Tensor 3 [[Finite 1; Finite 2; Finite 3]; [Finite 1; Finite 2; Finite 3]]))
    as (out & Hcall & _).
  - repeat constructor.
  - reflexivity.
  - simpl. lia.
  - right. right. simpl. lia.
  - exists out. split; [exact Hcall|].
    vm_compute in Hcall. injection Hcall as <-. reflexivity.
Defined.

(** The scores of a two-token sequence after a one-token prompt are not
    returned unchanged: the call raises. *)
Lemma call_two_tokens_counterexample :
  StopAfterEosTextGenerated.call
    (StopAfterEosTextGenerated.init 1 0)
    (Tensor 2 [[5; 7]]) (Tensor 2 [[Finite 0; Finite 0]])
  = Raise RuntimeError.
Proof. reflexivity. Qed.

(** ** Sharding the questions (lines 71-88 of [run_eval]) *)

(** A slice of positive width starting inside the list. *)
Lemma py_slice_chunk {A} (l : list A) (i c : Z) :
  0 ≤ i → 0 < c →
  py_slice l i (i + c) = take (Z.to_nat c) (drop (Z.to_nat i) l).
Proof.
  intros Hi Hc. unfold py_slice, clamp_index.
  rewrite !decide_False by lia.
  destruct (decide (i ≤ Z.of_nat (length l))) as [Hle|Hgt].
  - rewrite (Z.min_l i) by lia.
    destruct (decide (i + c ≤ Z.of_nat (length l))).
    + rewrite Z.min_l by lia. f_equal. lia.
    + rewrite Z.min_r by lia.
      rewrite !take_ge; [done|rewrite length_drop; lia|rewrite length_drop; lia].
  - rewrite !Z.min_r by lia. rewrite Z.sub_diag. simpl.
    rewrite (drop_ge l (Z.to_nat i)) by lia. by rewrite take_nil.
Qed.

(** Consecutive chunks of width [c] put the list together again. *)
Lemma concat_chunks {A} (c m : nat) (l : list A) :
  (0 < c)%nat → (length l ≤ m * c)%nat →
  concat (map (λ k, take c (drop (k * c) l)) (seq 0 m)) = l.
Proof.
  intros Hc. revert l. induction m as [|m IH]; intros l Hlen.
  - destruct l; simpl in *; [done|lia].
  - rewrite <- cons_seq, <- fmap_S_seq. cbn [map concat]. rewrite drop_0.
    transitivity (take c l ++ drop c l); [|apply take_drop]. f_equal.
    etrans; [|apply (IH (drop c l)); rewrite length_drop; lia].
    f_equal. change (S <$> seq 0 m) with (map S (seq 0 m)). rewrite map_map.
    apply map_ext. intros k. by rewrite drop_drop.
Qed.

(** What [split_questions] returns when nothing raises. *)
Lemma split_questions_ok {A} (questions : list A) (per total : Z) :
  per ≠ 0 → total mod per = 0 →
  Z.of_nat (length questions) / (total / per) ≠ 0 →
  split_questions questions per total =
  let chunk_size := Z.of_nat (length questions) / (total / per) in
  starts ← py_range 0 (Z.of_nat (length questions)) chunk_size;
  Ok (bool_decide (1 < total / per),
      map (λ i, py_slice questions i (i + chunk_size)) starts).
Proof.
  intros Hper Hmod Hchunk. unfold split_questions, py_mod, py_floordiv.
  rewrite !(decide_False (P := per = 0)) by done. cbn [mbind result_bind].
  rewrite decide_True by done.
  assert (total / per ≠ 0) as Hg by (intros H0; by rewrite H0, Z.div_0_r in Hchunk).
  rewrite !(decide_False (P := total / per = 0)) by done. done.
Qed.

(** With a positive number of groups and at least as many questions, the
    chunks are contiguous and cover the list once, in order. *)
Lemma split_questions_cover {A} (questions : list A) (per total : Z)
    (use_ray : bool) (chunks : list (list A)) :
  0 < total / per →
  split_questions questions per total = Ok (use_ray, chunks) →
  concat chunks = questions.
Proof.
  intros Hg. unfold split_questions, py_mod, py_floordiv.
  destruct (decide (per = 0)) as [|Hper]; [done|]. cbn [mbind result_bind].
  destruct (decide (total mod per = 0)) as [Hmod|]; [|done].
  rewrite !(decide_False (P := total / per = 0)) by lia. cbn [mbind result_bind].
  set (n := Z.of_nat (length questions)). set (c := n / (total / per)).
  unfold py_range. destruct (decide (c = 0)) as [|Hc0]; [done|].
  assert (0 < c) as Hc.
  { assert (0 ≤ c) by (apply Z.div_pos; lia). lia. }
  rewrite decide_True by done. cbn [mbind result_bind]. intros [= <- <-].
  destruct (decide (0 < n)) as [Hn|Hn].
  - rewrite map_map.
    etrans;
      [|apply (concat_chunks (Z.to_nat c) (Z.to_nat ((n - 0 + c - 1) / c)) questions)].
    + f_equal. apply map_ext. intros k.
      rewrite py_slice_chunk by lia. do 2 f_equal. lia.
    + lia.
    + assert (n ≤ (n - 0 + c - 1) / c * c); [|unfold n in *; nia].
      pose proof (Z.mul_div_le (n - 0 + c - 1) c Hc).
      pose proof (Z.mod_pos_bound (n - 0 + c - 1) c Hc).
      pose proof (Z.div_mod (n - 0 + c - 1) c). lia.
  - destruct questions; simpl in *; [done|lia].
Qed.

(** When the number of groups does not divide the number of questions,
    the remainder makes at least one chunk more than there are groups. *)
Lemma split_questions_extra_chunk {A} (questions : list A) (per total : Z) :
  per ≠ 0 → total mod per = 0 →
  0 < total / per ≤ Z.of_nat (length questions) →
  Z.of_nat (length questions) mod (total / per) ≠ 0 →
  ∃ use_ray chunks,
    split_questions questions per total = Ok (use_ray, chunks)
    ∧ total / per < Z.of_nat (length chunks).
Proof.
  intros Hper Hmod Hg Hrem.
  set (n := Z.of_nat (length questions)) in *. set (g := total / per) in *.
  assert (0 < n / g) as Hc by (apply Z.div_str_pos; lia).
  rewrite split_questions_ok by (fold n g; done || lia).
  fold n g. unfold py_range.
  rewrite decide_False by lia. rewrite decide_True by done.
  rewrite decide_True by lia. cbn [mbind result_bind].
  eexists _, _. split; [done|].
  rewrite !length_map, length_seq.
  set (c := n / g) in *.
  assert (g + 1 ≤ (n - 0 + c - 1) / c); [|lia].
  apply Z.div_le_lower_bound; [lia|].
  pose proof (Z.div_mod n g). pose proof (Z.mod_pos_bound n g). fold c in H. nia.
Qed.

(** C4 at its failing input: the 80 questions of the benchmark on three
    single-GPU groups are cut into chunks of 26, and the remaining two
    questions make a fourth chunk. *)
Theorem split_questions_80_on_3 :
  split_questions (seq 0 80) 1 3 =
    Ok (true, [seq 0 26; seq 26 26; seq 52 26; seq 78 2])
  ∧ 3 mod 1 = 0
  ∧ length [seq 0 26; seq 26 26; seq 52 26; seq 78 2] ≠ Z.to_nat (3 / 1).
Proof. by vm_compute. Qed.

(** ** Running stateful computations *)

Lemma bind_unfold {A B} (m : M A) (f : A → M B) (w : world) :
  (m ≫= f) w =
  match m w with
  | (Ok a, w') => f a w'
  | (Raise e, w') => (Raise e, w')
  end.
Proof. done. Qed.

Lemma bind_ok {A B} (m : M A) (f : A → M B) (w w' : world) (a : A) :
  m w = (Ok a, w') → (m ≫= f) w = f a w'.
Proof. intros H. by rewrite bind_unfold, H. Qed.

Lemma bind_raise {A B} (m : M A) (f : A → M B) (w w' : world) (e : exc_class) :
  m w = (Raise e, w') → (m ≫= f) w = (Raise e, w').
Proof. intros H. by rewrite bind_unfold, H. Qed.

Lemma bind_lift {A B} (r : result A) (f : A → M B) (w : world) :
  (lift r ≫= f) w =
  match r with
  | Ok a => f a w
  | Raise e => (Raise e, w)
  end.
Proof. by destruct r. Qed.

Lemma bind_emit {B} (ev : event) (f : unit → M B) (w : world) :
  (emit ev ≫= f) w =
  f () (World (rng w) (log w ++ [ev]) (files w) (uuids_drawn w) (clock w)).
Proof. done. Qed.

Lemma bind_mret {A B} (a : A) (f : A → M B) (w : world) :
  (mret a ≫= f) w = f a w.
Proof. done. Qed.

Lemma bind_ok_inv {A B} (m : M A) (f : A → M B) (w w' : world) (b : B) :
  (m ≫= f) w = (Ok b, w') →
  ∃ a w1, m w = (Ok a, w1) ∧ f a w1 = (Ok b, w').
Proof.
  rewrite bind_unfold. destruct (m w) as [[a|e] w1]; [|done]. by exists a, w1.
Qed.

Lemma lift_ok_inv {A} (r : result A) (w w' : world) (a : A) :
  lift r w = (Ok a, w') → r = Ok a ∧ w' = w.
Proof. by intros [= -> ->]. Qed.

Lemma set_files_set_files (f g : gmap string (list string)) (w : world) :
  set_files f (set_files g w) = set_files f w.
Proof. done. Qed.

Lemma files_set_files (f : gmap string (list string)) (w : world) :
  files (set_files f w) = f.
Proof. done. Qed.

(** ** [reorg_answer_file] *)

Section Reorg.

Variable E : environment.

(** Reading the lines into the dictionary: every key comes from a line
    with that id, and every line's id is a key. *)
Lemma collect_answers_spec (lines : list string) (answers : gmap Z string) :
  Forall (λ l, is_ok (line_question_id E l) = true) lines →
  ∃ answers',
    collect_answers E answers lines = Ok answers'
    ∧ (∀ q l, answers' !! q = Some l →
         answers !! q = Some l ∨ (l ∈ lines ∧ line_question_id E l = Ok q))
    ∧ (∀ q, is_Some (answers !! q) → is_Some (answers' !! q))
    ∧ (∀ l q, l ∈ lines → line_question_id E l = Ok q → is_Some (answers' !! q)).
Proof.
  revert answers. induction lines as [|l lines IH]; intros answers Hok.
  - exists answers. split; [done|]. split; [by left|]. split; [done|].
    intros l q Hl. by apply elem_of_nil in Hl.
  - apply Forall_cons in Hok as [Hl Hok]. simpl.
    destruct (line_question_id E l) as [q0|] eqn:Hq0; [|done].
    cbn [mbind result_bind].
    destruct (IH (<[q0 := l]> answers) Hok) as (m' & -> & Hfrom & Hkeep & Hall).
    exists m'. split; [done|]. split; [|split].
    + intros q l' Hl'. destruct (Hfrom q l' Hl') as [Hins|[Hin Hq]].
      * destruct (decide (q0 = q)) as [->|Hne].
        -- rewrite lookup_insert_eq in Hins. simplify_eq. right. split; [by left|done].
        -- rewrite lookup_insert_ne in Hins by done. by left.
      * right. split; [by right|done].
    + intros q Hq. apply Hkeep. destruct (decide (q0 = q)) as [->|Hne].
      * rewrite lookup_insert_eq. eauto.
      * by rewrite lookup_insert_ne.
    + intros l' q Hl' Hq. apply elem_of_cons in Hl' as [->|Hl'].
      * apply Hkeep. rewrite Hq0 in Hq. injection Hq as <-.
        rewrite lookup_insert_eq. eauto.
      * by eapply Hall.
Qed.

(** The sorted keys are the keys, in strictly ascending order. *)
Lemma elem_of_sorted_keys (answers : gmap Z string) (q : Z) :
  q ∈ sorted_keys answers ↔ is_Some (answers !! q).
Proof.
  unfold sorted_keys. rewrite merge_sort_Permutation.
  rewrite list_elem_of_fmap. split.
  - intros ([q' l] & -> & Hin). apply elem_of_map_to_list in Hin. eauto.
  - intros [l Hl]. exists (q, l). split; [done|]. by apply elem_of_map_to_list.
Qed.

Lemma StronglySorted_le_lt (l : list Z) :
  StronglySorted Z.le l → NoDup l → StronglySorted Z.lt l.
Proof.
  induction 1 as [|x l Hs IH Hall]; intros Hnd; [constructor|].
  apply NoDup_cons in Hnd as [Hx Hnd]. constructor; [by apply IH|].
  apply Forall_forall. intros y Hy.
  assert (x ≤ y) by (by eapply Forall_forall in Hall).
  assert (x ≠ y) by (intros ->; done). lia.
Qed.

Lemma sorted_keys_ascending (answers : gmap Z string) :
  StronglySorted Z.lt (sorted_keys answers).
Proof.
  apply StronglySorted_le_lt.
  - apply StronglySorted_merge_sort; apply _.
  - unfold sorted_keys. rewrite merge_sort_Permutation.
    apply NoDup_fst_map_to_list.
Qed.

(** The loop that writes the lines back. *)
Lemma write_back_spec (answers : gmap Z string) (path : string)
    (qids : list Z) (content : list string) (w : world) :
  files w !! path = Some content →
  (∀ q, q ∈ qids → is_Some (answers !! q)) →
  ∃ out,
    Forall2 (λ q l, answers !! q = Some l) qids out
    ∧ for_each qids
        (λ (_ : unit) qid,
           l ← lift (answers_getitem answers qid); file_write path l) () w
      = (Ok (), set_files (<[path := content ++ out]> (files w)) w).
Proof.
  revert content w. induction qids as [|q qids IH]; intros content w Hfile Hkeys.
  - exists []. split; [constructor|]. simpl. unfold mret, M_ret. f_equal.
    rewrite app_nil_r, insert_id by done. by destruct w.
  - destruct (Hkeys q) as [l Hl]; [by left|].
    destruct (IH (content ++ [l])
                (set_files (<[path := content ++ [l]]> (files w)) w))
      as (out & Hout & Hrun).
    + by rewrite files_set_files, lookup_insert_eq.
    + intros q' Hq'. apply Hkeys. by right.
    + exists (l :: out). split; [by constructor|].
      cbn [for_each]. rewrite bind_unfold.
      unfold answers_getitem at 1. rewrite Hl.
      rewrite (bind_unfold (lift (Ok l))). cbn [lift].
      unfold file_write at 1, modify at 1. rewrite Hfile.
      change (default [] (Some content)) with content.
      rewrite Hrun. f_equal. rewrite files_set_files, set_files_set_files.
      by rewrite insert_insert_eq, <- app_assoc.
Qed.

End Reorg.



(** ** Loops *)

Lemma for_each_app {A B} (xs ys : list A) (body : B → A → M B) (acc : B) (w : world) :
  for_each (xs ++ ys) body acc w =
  (acc' ← for_each xs body acc; for_each ys body acc') w.
Proof.
  revert acc w. induction xs as [|x xs IH]; intros acc w; [done|].
  cbn [app for_each]. rewrite !bind_unfold.
  destruct (body acc x w) as [[acc'|e] w1]; [|done].
  by rewrite IH, bind_unfold.
Qed.

(** An exception raised by the body of a loop, after the iterations
    before it have returned, leaves the loop. *)
Lemma for_each_raise {A B} (xs ys : list A) (x : A) (body : B → A → M B)
    (acc acc1 : B) (w w1 w' : world) (e : exc_class) :
  for_each xs body acc w = (Ok acc1, w1) →
  body acc1 x w1 = (Raise e, w') →
  for_each (xs ++ x :: ys) body acc w = (Raise e, w').
Proof.
  intros Hxs Hx. rewrite for_each_app, bind_unfold, Hxs.
  cbn [for_each]. by rewrite bind_unfold, Hx.
Qed.

(** A loop that raises does so in one of its iterations. *)
Lemma for_each_raise_inv {A B} (xs : list A) (body : B → A → M B)
    (acc : B) (w w' : world) (e : exc_class) :
  for_each xs body acc w = (Raise e, w') →
  ∃ xs1 x xs2 acc1 w1,
    xs = xs1 ++ x :: xs2
    ∧ for_each xs1 body acc w = (Ok acc1, w1)
    ∧ body acc1 x w1 = (Raise e, w').
Proof.
  revert acc w. induction xs as [|x xs IH]; intros acc w; [done|].
  cbn [for_each]. rewrite bind_unfold.
  destruct (body acc x w) as [[acc1|e1] w1] eqn:Hbody.
  - intros Hrest. destruct (IH _ _ Hrest) as (xs1 & y & xs2 & acc2 & w2 & -> & Hxs1 & Hy).
    exists (x :: xs1), y, xs2, acc2, w2. split; [done|]. split; [|done].
    cbn [for_each]. by rewrite bind_unfold, Hbody.
  - intros [= -> ->]. by exists [], x, xs, acc, w.
Qed.

(** An invariant of the accumulator and the world, kept by every
    iteration that returns, holds when the loop returns. *)
Lemma for_each_ok_inv {A B} (P : list A → B → world → Prop) (xs : list A)
    (body : B → A → M B) (acc acc' : B) (w w' : world) :
  P [] acc w →
  (∀ done x a v a1 v1, P done a v → body a x v = (Ok a1, v1) → P (done ++ [x]) a1 v1) →
  for_each xs body acc w = (Ok acc', w') →
  P xs acc' w'.
Proof.
  intros Hinit Hstep. 
  assert (∀ done, P done acc w →
            for_each xs body acc w = (Ok acc', w') → P (done ++ xs) acc' w') as Hgen.
  { clear Hinit. revert acc w.
    induction xs as [|x xs IH]; intros acc w done HP.
    - intros [= <- <-]. by rewrite app_nil_r.
    - cbn [for_each]. rewrite bind_unfold.
      destruct (body acc x w) as [[acc1|e1] w1] eqn:Hbody; [|done].
      intros Hrest. rewrite (cons_middle x done xs), app_assoc.
      eapply IH; [|done]. by eapply Hstep. }
  apply (Hgen []). done.
Qed.

(** A loop whose body returns whenever the invariant holds returns. *)
Lemma for_each_total {A B} (P : B → world → Prop) (xs : list A)
    (body : B → A → M B) (acc : B) (w : world) :
  P acc w →
  (∀ x a v, x ∈ xs → P a v → ∃ a1 v1, body a x v = (Ok a1, v1) ∧ P a1 v1) →
  ∃ acc' w', for_each xs body acc w = (Ok acc', w') ∧ P acc' w'.
Proof.
  revert acc w. induction xs as [|x xs IH]; intros acc w HP Hbody.
  - by exists acc, w.
  - destruct (Hbody x acc w) as (a1 & v1 & Hx & HP1); [by left|done|].
    destruct (IH a1 v1 HP1) as (acc' & w' & Hrest & HP').
    { intros y a v Hy. apply Hbody. by right. }
    exists acc', w'. split; [|done].
    cbn [for_each]. by rewrite bind_unfold, Hx.
Qed.

(** [range(0, n, 1)] *)
Lemma py_range_0_1 (n : Z) :
  py_range 0 n 1 = Ok (map Z.of_nat (seq 0 (Z.to_nat n))).
Proof.
  unfold py_range. rewrite decide_False by done. rewrite decide_True by done.
  f_equal. case_decide.
  - rewrite Z.div_1_r. replace (n - 0 + 1 - 1) with n by lia.
    apply map_ext. intros k. lia.
  - by replace (Z.to_nat n) with 0%nat by lia.
Qed.

(** ** What a run appends to the log *)

Section Appends.

Context {Q : event → Prop}.

Lemma appends_mret {A} (a : A) : appends Q (mret a).
Proof. intros w r w' [= <- <-]. exists []. by rewrite app_nil_r. Qed.

Lemma appends_lift {A} (r : result A) : appends Q (lift r).
Proof. intros w r' w' [= <- <-]. exists []. by rewrite app_nil_r. Qed.

Lemma appends_emit (ev : event) : Q ev → appends Q (emit ev).
Proof. intros HQ w r w' [= <- <-]. exists [ev]. split; [done|]. by constructor. Qed.

Lemma appends_modify (f : world → world) :
  (∀ w, log (f w) = log w) → appends Q (modify f).
Proof.
  intros Hf w r w' [= <- <-]. exists []. by rewrite app_nil_r, Hf.
Qed.

Lemma appends_bind {A B} (m : M A) (f : A → M B) :
  appends Q m → (∀ a, appends Q (f a)) → appends Q (m ≫= f).
Proof.
  intros Hm Hf w r w'. rewrite bind_unfold.
  destruct (m w) as [[a|e] w1] eqn:Hmw.
  - intros Hfa. destruct (Hm _ _ _ Hmw) as (evs1 & Hlog1 & HQ1).
    destruct (Hf a _ _ _ Hfa) as (evs2 & Hlog2 & HQ2).
    exists (evs1 ++ evs2). split; [by rewrite Hlog2, Hlog1, app_assoc|].
    by apply Forall_app.
  - intros [= <- <-]. by apply (Hm _ _ _ Hmw).
Qed.

(** The continuation only matters at the values the first part returns. *)
Lemma appends_bind_ret {A B} (m : M A) (f : A → M B) :
  appends Q m →
  (∀ a, (∃ w w', m w = (Ok a, w')) → appends Q (f a)) →
  appends Q (m ≫= f).
Proof.
  intros Hm Hf w r w'. rewrite bind_unfold.
  destruct (m w) as [[a|e] w1] eqn:Hmw.
  - intros Hfa. destruct (Hm _ _ _ Hmw) as (evs1 & Hlog1 & HQ1).
    destruct (Hf a (ex_intro _ w (ex_intro _ w1 Hmw)) _ _ _ Hfa)
      as (evs2 & Hlog2 & HQ2).
    exists (evs1 ++ evs2). split; [by rewrite Hlog2, Hlog1, app_assoc|].
    by apply Forall_app.
  - intros [= <- <-]. by apply (Hm _ _ _ Hmw).
Qed.

Lemma appends_for_each {A B} (xs : list A) (body : B → A → M B) (acc : B) :
  (∀ a x, appends Q (body a x)) → appends Q (for_each xs body acc).
Proof.
  intros Hbody. revert acc. induction xs as [|x xs IH]; intros acc.
  - apply appends_mret.
  - cbn [for_each]. apply appends_bind; [apply Hbody|apply IH].
Qed.

Lemma appends_try_except {A} (body : M A) (handler : exc_class → M A) :
  appends Q body → (∀ e, appends Q (handler e)) →
  appends Q (try_except_RuntimeError body handler).
Proof.
  intros Hbody Hhandler w r w'. unfold try_except_RuntimeError.
  destruct (body w) as [[a|e] w1] eqn:Hbw.
  - intros [= <- <-]. by apply (Hbody _ _ _ Hbw).
  - destruct (issubclass e RuntimeError).
    + intros Hh. destruct (Hbody _ _ _ Hbw) as (evs1 & Hlog1 & HQ1).
      destruct (Hhandler e _ _ _ Hh) as (evs2 & Hlog2 & HQ2).
      exists (evs1 ++ evs2). split; [by rewrite Hlog2, Hlog1, app_assoc|].
      by apply Forall_app.
    + intros [= <- <-]. by apply (Hbody _ _ _ Hbw).
Qed.

Lemma appends_model_generate (model : model_t) (kwargs : generate_kwargs) :
  Q (Generate kwargs) → appends Q (model_generate model kwargs).
Proof.
  intros HQ w r w'. unfold model_generate. cbn [emit].
  destruct (generate model _ kwargs) as [r0 g]. intros [= <- <-].
  exists [Generate kwargs]. split; [done|]. by constructor.
Qed.

Lemma appends_torch_manual_seed (E : environment) (seed : Z) :
  Q (ManualSeed seed) → appends Q (torch_manual_seed E seed).
Proof.
  intros HQ w r w' [= <- <-]. exists [ManualSeed seed]. split; [done|].
  by constructor.
Qed.

Lemma appends_uuid (E : environment) : appends Q (uuid E).
Proof. intros w r w' [= <- <-]. exists []. by rewrite app_nil_r. Qed.

Lemma appends_time (E : environment) : appends Q (time E).
Proof. intros w r w' [= <- <-]. exists []. by rewrite app_nil_r. Qed.

Lemma appends_open_append (E : environment) (path : string) :
  appends Q (open_append E path).
Proof.
  apply appends_bind; [apply appends_lift|]. intros _. by apply appends_modify.
Qed.

Lemma appends_file_write (path s : string) : appends Q (file_write path s).
Proof. by apply appends_modify. Qed.

Lemma appends_ray_remote (task : M unit) :
  appends Q task → appends Q (ray_remote task).
Proof.
  intros Htask w r w'. unfold ray_remote.
  destruct (task w) as [r0 w1] eqn:Htw. intros [= <- <-].
  by apply (Htask _ _ _ Htw).
Qed.

End Appends.

(** The events of one turn: console output, and sampling calls within
    the budget. *)
Section AppendsScript.

Context {Q : event → Prop}.
Variable max_new_token : Z.
Hypothesis Q_console : ∀ ev, is_console ev → Q ev.
Hypothesis Q_generate :
  ∀ kwargs, within_budget max_new_token (Generate kwargs) → Q (Generate kwargs).

Variable E : environment.
Variables (model : model_t) (tokenizer : tokenizer_t).
Variable model_id : string.

Lemma sample_appends (conv : conversation) (inputs : encoding)
    (logits_processor : list StopAfterEosTextGenerated.t)
    (do_sample : bool) (temperature : pyfloat) (budget : Z) :
  budget = (if decide (Z.of_nat (size1 (input_ids inputs)) + max_new_token ≤ 2048)
            then max_new_token
            else 2048 - Z.of_nat (size1 (input_ids inputs))) →
  appends Q (sample model tokenizer conv inputs logits_processor do_sample
                    temperature budget).
Proof.
  intros Hbudget. unfold sample.
  apply appends_bind; [by apply appends_model_generate, Q_generate|]. intros ids.
  apply appends_bind; [apply appends_lift|]. intros ids'.
  apply appends_bind; [by apply appends_emit, Q_console|]. intros _.
  apply appends_bind; [apply appends_lift|]. intros output.
  apply appends_bind; [by apply appends_emit, Q_console|]. intros _.
  apply appends_bind; [by apply appends_emit, Q_console|]. intros _.
  apply appends_mret.
Qed.

Lemma on_runtime_error_appends (question : json) (e : exc_class) :
  appends Q (on_runtime_error question e).
Proof.
  unfold on_runtime_error.
  apply appends_bind; [by apply appends_emit, Q_console|]. intros _.
  apply appends_bind; [apply appends_lift|]. intros qid.
  apply appends_bind; [by apply appends_emit, Q_console|]. intros _.
  apply appends_mret.
Qed.

Lemma prepare_turn_appends (question : json) (temperature : pyfloat)
    (conv : conversation) (j : Z) :
  appends Q (prepare_turn E tokenizer max_new_token question temperature conv j).
Proof.
  unfold prepare_turn.
  apply appends_bind; [apply appends_lift|]. intros all_turns.
  apply appends_bind; [apply appends_lift|]. intros qs.
  apply appends_bind; [apply appends_lift|]. intros prompt.
  apply appends_bind; [apply appends_lift|]. intros inputs.
  apply appends_bind; [by apply appends_emit, Q_console|]. intros _.
  apply appends_bind; [by apply appends_emit, Q_console|]. intros _.
  apply appends_bind; [by apply appends_emit, Q_console|]. intros _.
  apply appends_bind; [by apply appends_emit, Q_console|]. intros _.
  apply appends_bind; [|intros budget; apply appends_mret].
  case_decide; [|apply appends_mret].
  apply appends_bind; [by apply appends_emit, Q_console|]. intros _.
  apply appends_mret.
Qed.

(** The budget a turn enters the [try] block with. *)
Lemma prepare_turn_budget (question : json) (temperature : pyfloat)
    (conv : conversation) (j : Z) (w : world) (setup : turn_setup) (w' : world) :
  prepare_turn E tokenizer max_new_token question temperature conv j w
    = (Ok setup, w') →
  ts_max_new_token setup =
    if decide (Z.of_nat (size1 (input_ids (ts_inputs setup))) + max_new_token ≤ 2048)
    then max_new_token
    else 2048 - Z.of_nat (size1 (input_ids (ts_inputs setup))).
Proof.
  unfold prepare_turn. intros H.
  do 8 (apply bind_ok_inv in H as (? & ? & _ & H)).
  apply bind_ok_inv in H as (budget & ? & Hbudget & H).
  injection H as <- _. cbn [ts_max_new_token ts_inputs].
  destruct (decide (2048 < _)) as [Hlong|Hfits] in Hbudget.
  - rewrite bind_emit in Hbudget. injection Hbudget as <- _.
    by rewrite decide_False by lia.
  - injection Hbudget as <- _. by rewrite decide_True by lia.
Qed.

Lemma answer_turn_appends (question : json) (temperature : pyfloat)
    (state : conversation * list string) (j : Z) :
  appends Q (answer_turn E model tokenizer max_new_token question temperature
                         state j).
Proof.
  destruct state as [conv turns]. unfold answer_turn.
  apply appends_bind_ret; [apply prepare_turn_appends|].
  intros setup (w & w' & Hsetup).
  apply appends_bind; [|intros output; apply appends_bind;
                         [apply appends_lift|intros ?; apply appends_mret]].
  apply appends_try_except; [|apply on_runtime_error_appends].
  apply sample_appends. by eapply prepare_turn_budget.
Qed.

Hypothesis Q_manual_seed : ∀ seed, Q (ManualSeed seed).

Lemma answer_choice_appends (question : json) (temperature : pyfloat)
    (choices : list json) (i : Z) :
  appends Q (answer_choice E model tokenizer model_id max_new_token question
                           temperature choices i).
Proof.
  unfold answer_choice.
  apply appends_bind; [by apply appends_torch_manual_seed|]. intros _.
  apply appends_bind; [apply appends_lift|]. intros all_turns.
  apply appends_bind; [apply appends_lift|]. intros n.
  apply appends_bind; [apply appends_lift|]. intros js.
  apply appends_bind; [apply appends_for_each; apply answer_turn_appends|].
  intros [conv turns]. apply appends_mret.
Qed.

Lemma answer_question_appends (answer_file : string) (num_choices : Z)
    (u : unit) (question : json) :
  appends Q (answer_question E model tokenizer model_id answer_file
                             max_new_token num_choices u question).
Proof.
  unfold answer_question.
  apply appends_bind; [apply appends_lift|]. intros temperature.
  apply appends_bind; [apply appends_lift|]. intros indices.
  apply appends_bind; [apply appends_for_each; apply answer_choice_appends|].
  intros choices.
  apply appends_bind; [apply appends_lift|]. intros _.
  apply appends_bind; [apply appends_open_append|]. intros _.
  apply appends_bind; [apply appends_lift|]. intros qid.
  apply appends_bind; [apply appends_uuid|]. intros answer_id.
  apply appends_bind; [apply appends_time|]. intros tstamp.
  apply appends_file_write.
Qed.

End AppendsScript.

Lemma get_model_answers_appends (Q : event → Prop) (E : environment)
    (model_path model_id : string) (questions : list json) (answer_file : string)
    (max_new_token num_choices num_gpus_per_model : Z)
    (max_gpu_memory dtype : option string) (revision : string) :
  (∀ ev, is_console ev → Q ev) →
  (∀ kwargs, within_budget max_new_token (Generate kwargs) → Q (Generate kwargs)) →
  (∀ seed, Q (ManualSeed seed)) →
  appends Q (get_model_answers E model_path model_id questions answer_file
               max_new_token num_choices num_gpus_per_model max_gpu_memory
               dtype revision).
Proof.
  intros Q_console Q_generate Q_seed. unfold get_model_answers.
  apply appends_bind; [apply appends_lift|]. intros [model tokenizer].
  apply appends_for_each. intros u question.
  by apply answer_question_appends.
Qed.



(** ** Two runs side by side *)

Lemma seeded_mret {A} (a : A) : seeded (mret a : M A).
Proof.
  intros w1 w2 Hrng. exists (Ok a), [], w1, w2. by rewrite !app_nil_r.
Qed.

Lemma seeded_lift {A} (r : result A) : seeded (lift r).
Proof.
  intros w1 w2 Hrng. exists r, [], w1, w2. by rewrite !app_nil_r.
Qed.

Lemma seeded_emit (ev : event) : seeded (emit ev).
Proof.
  intros w1 w2 Hrng. by eexists (Ok ()), [ev], _, _.
Qed.

Lemma seeded_bind {A B} (m : M A) (f : A → M B) :
  seeded m → (∀ a, seeded (f a)) → seeded (m ≫= f).
Proof.
  intros Hm Hf w1 w2 Hrng.
  destruct (Hm w1 w2 Hrng) as (r & evs & v1 & v2 & H1 & H2 & Hl1 & Hl2 & Hrng').
  unfold agree_rng. rewrite !bind_unfold, H1, H2. destruct r as [a|e].
  - destruct (Hf a v1 v2 Hrng')
      as (r' & evs' & u1 & u2 & Hf1 & Hf2 & Hfl1 & Hfl2 & Hrng'').
    exists r', (evs ++ evs'), u1, u2.
    by rewrite Hfl1, Hfl2, Hl1, Hl2, !app_assoc.
  - by exists (Raise e), evs, v1, v2.
Qed.

Lemma seeded_for_each {A B} (xs : list A) (body : B → A → M B) (acc : B) :
  (∀ a x, seeded (body a x)) → seeded (for_each xs body acc).
Proof.
  intros Hbody. revert acc. induction xs as [|x xs IH]; intros acc.
  - apply seeded_mret.
  - cbn [for_each]. apply seeded_bind; [apply Hbody|apply IH].
Qed.

Lemma seeded_try_except {A} (body : M A) (handler : exc_class → M A) :
  seeded body → (∀ e, seeded (handler e)) →
  seeded (try_except_RuntimeError body handler).
Proof.
  intros Hbody Hhandler w1 w2 Hrng. unfold try_except_RuntimeError.
  destruct (Hbody w1 w2 Hrng) as (r & evs & v1 & v2 & H1 & H2 & Hl1 & Hl2 & Hrng').
  unfold agree_rng. rewrite H1, H2. destruct r as [a|e].
  - by exists (Ok a), evs, v1, v2.
  - destruct (issubclass e RuntimeError).
    + destruct (Hhandler e v1 v2 Hrng')
        as (r' & evs' & u1 & u2 & Hf1 & Hf2 & Hfl1 & Hfl2 & Hrng'').
      exists r', (evs ++ evs'), u1, u2.
      by rewrite Hfl1, Hfl2, Hl1, Hl2, !app_assoc.
    + by exists (Raise e), evs, v1, v2.
Qed.

(** Sampling is a function of the generator state and of the arguments. *)
Lemma seeded_model_generate (model : model_t) (kwargs : generate_kwargs) :
  seeded (model_generate model kwargs).
Proof.
  intros w1 w2 Hrng. unfold agree_rng, model_generate. cbn [emit rng]. rewrite Hrng.
  destruct (generate model (rng w2) kwargs) as [r g].
  by eexists r, [Generate kwargs], _, _.
Qed.

Lemma deterministic_lift {A} (r : result A) : deterministic (lift r).
Proof.
  intros w1 w2. exists r, [], w1, w2. by rewrite !app_nil_r.
Qed.

Lemma deterministic_mret {A} (a : A) : deterministic (mret a : M A).
Proof.
  intros w1 w2. exists (Ok a), [], w1, w2. by rewrite !app_nil_r.
Qed.

Lemma deterministic_bind {A B} (m : M A) (f : A → M B) :
  deterministic m → (∀ a, deterministic (f a)) → deterministic (m ≫= f).
Proof.
  intros Hm Hf w1 w2.
  destruct (Hm w1 w2) as (r & evs & v1 & v2 & H1 & H2 & Hl1 & Hl2).
  unfold agree. rewrite !bind_unfold, H1, H2. destruct r as [a|e].
  - destruct (Hf a v1 v2) as (r' & evs' & u1 & u2 & Hf1 & Hf2 & Hfl1 & Hfl2).
    exists r', (evs ++ evs'), u1, u2.
    by rewrite Hfl1, Hfl2, Hl1, Hl2, !app_assoc.
  - by exists (Raise e), evs, v1, v2.
Qed.

Lemma deterministic_for_each {A B} (xs : list A) (body : B → A → M B) (acc : B) :
  (∀ a x, deterministic (body a x)) → deterministic (for_each xs body acc).
Proof.
  intros Hbody. revert acc. induction xs as [|x xs IH]; intros acc.
  - apply deterministic_mret.
  - cbn [for_each]. apply deterministic_bind; [apply Hbody|apply IH].
Qed.

(** Whatever the generator was, after [torch.manual_seed] it is the one
    the seed determines. *)
Lemma deterministic_after_seed {B} (E : environment) (seed : Z) (f : unit → M B) :
  seeded (f ()) → deterministic (torch_manual_seed E seed ≫= f).
Proof.
  intros Hf w1 w2. unfold agree. rewrite !bind_unfold. unfold torch_manual_seed. cbn [emit].
  destruct (Hf (World (manual_seed E seed) (log w1 ++ [ManualSeed seed]) (files w1)
                  (uuids_drawn w1) (clock w1))
               (World (manual_seed E seed) (log w2 ++ [ManualSeed seed]) (files w2)
                  (uuids_drawn w2) (clock w2)))
    as (r & evs & v1 & v2 & H1 & H2 & Hl1 & Hl2 & _); [done|].
  exists r, (ManualSeed seed :: evs), v1, v2. cbn [set_rng rng log files uuids_drawn clock].
  rewrite H1, H2, Hl1, Hl2. cbn [log]. by rewrite <- !app_assoc.
Qed.

Lemma deterministic_quiet {A} (m : M A) (r : result A) :
  quiet m r → deterministic m.
Proof.
  intros Hm w1 w2. destruct (Hm w1) as (v1 & H1 & Hl1).
  destruct (Hm w2) as (v2 & H2 & Hl2).
  exists r, [], v1, v2. by rewrite !app_nil_r.
Qed.

Lemma quiet_lift {A} (r : result A) : quiet (lift r) r.
Proof. intros w. by exists w. Qed.

Lemma quiet_bind_raise {A B} (m : M A) (f : A → M B) (e : exc_class) :
  quiet m (Raise e) → quiet (m ≫= f) (Raise e).
Proof.
  intros Hm w. destruct (Hm w) as (w' & Hw & Hl). exists w'.
  by rewrite bind_unfold, Hw.
Qed.

(** The first part may return a value that depends on the world, such as
    a fresh id or the time, as long as what follows does not. *)
Lemma quiet_bind {A B} (m : M A) (f : A → M B) (r : result B) :
  (∀ w, ∃ a w', m w = (Ok a, w') ∧ log w' = log w) →
  (∀ a, quiet (f a) r) →
  quiet (m ≫= f) r.
Proof.
  intros Hm Hf w. destruct (Hm w) as (a & w1 & Hw & Hl).
  destruct (Hf a w1) as (w' & Hw' & Hl'). exists w'.
  rewrite bind_unfold, Hw. split; [done|congruence].
Qed.

Section Determinism.

Variable E : environment.
Variables (model : model_t) (tokenizer : tokenizer_t).
Variables (model_id answer_file : string).
Variables (max_new_token num_choices : Z).

Lemma sample_seeded (conv : conversation) (inputs : encoding)
    (logits_processor : list StopAfterEosTextGenerated.t)
    (do_sample : bool) (temperature : pyfloat) (budget : Z) :
  seeded (sample model tokenizer conv inputs logits_processor do_sample
                 temperature budget).
Proof.
  unfold sample.
  apply seeded_bind; [apply seeded_model_generate|]. intros ids.
  apply seeded_bind; [apply seeded_lift|]. intros ids'.
  apply seeded_bind; [apply seeded_emit|]. intros _.
  apply seeded_bind; [apply seeded_lift|]. intros output.
  apply seeded_bind; [apply seeded_emit|]. intros _.
  apply seeded_bind; [apply seeded_emit|]. intros _.
  apply seeded_mret.
Qed.

Lemma on_runtime_error_seeded (question : json) (e : exc_class) :
  seeded (on_runtime_error question e).
Proof.
  unfold on_runtime_error.
  apply seeded_bind; [apply seeded_emit|]. intros _.
  apply seeded_bind; [apply seeded_lift|]. intros qid.
  apply seeded_bind; [apply seeded_emit|]. intros _.
  apply seeded_mret.
Qed.

Lemma answer_turn_seeded (question : json) (temperature : pyfloat)
    (state : conversation * list string) (j : Z) :
  seeded (answer_turn E model tokenizer max_new_token question temperature
                      state j).
Proof.
  destruct state as [conv turns]. unfold answer_turn.
  apply seeded_bind.
  { unfold prepare_turn.
    apply seeded_bind; [apply seeded_lift|]. intros all_turns.
    apply seeded_bind; [apply seeded_lift|]. intros qs.
    apply seeded_bind; [apply seeded_lift|]. intros prompt.
    apply seeded_bind; [apply seeded_lift|]. intros inputs.
    apply seeded_bind; [apply seeded_emit|]. intros _.
    apply seeded_bind; [apply seeded_emit|]. intros _.
    apply seeded_bind; [apply seeded_emit|]. intros _.
    apply seeded_bind; [apply seeded_emit|]. intros _.
    apply seeded_bind; [|intros budget; apply seeded_mret].
    case_decide; [|apply seeded_mret].
    apply seeded_bind; [apply seeded_emit|]. intros _. apply seeded_mret. }
  intros setup.
  apply seeded_bind.
  { apply seeded_try_except; [apply sample_seeded|apply on_runtime_error_seeded]. }
  intros output.
  apply seeded_bind; [apply seeded_lift|]. intros conv'. apply seeded_mret.
Qed.

(** A choice does not depend on the world it starts in: it starts by
    seeding the generator. *)
Lemma answer_choice_deterministic (question : json) (temperature : pyfloat)
    (choices : list json) (i : Z) :
  deterministic (answer_choice E model tokenizer model_id max_new_token question
                               temperature choices i).
Proof.
  unfold answer_choice. apply deterministic_after_seed.
  apply seeded_bind; [apply seeded_lift|]. intros all_turns.
  apply seeded_bind; [apply seeded_lift|]. intros n.
  apply seeded_bind; [apply seeded_lift|]. intros js.
  apply seeded_bind; [apply seeded_for_each; apply answer_turn_seeded|].
  intros [conv turns]. apply seeded_mret.
Qed.

(** Writing the record: the outcome depends on the operating system
    and on the question, the id drawn and the time read go to the file. *)
Lemma dump_quiet (question : json) (choices : list json) :
  ∃ r, quiet
    (_ ← lift (os_makedirs E (os_path_dirname E answer_file));
     let path := os_path_expanduser E answer_file in
     _ ← open_append E path;
     qid ← lift (subscript_key question "question_id");
     answer_id ← uuid E;
     tstamp ← time E;
     let ans_json := JDict [("question_id"%string, qid);
                            ("answer_id"%string, JStr answer_id);
                            ("model_id"%string, JStr model_id);
                            ("choices"%string, JList choices);
                            ("tstamp"%string, JFloat tstamp)] in
     file_write path (json_dumps E ans_json ++ String "010"%char EmptyString)) r.
Proof.
  destruct (os_makedirs E (os_path_dirname E answer_file)) as [[]|e] eqn:Hmk.
  2: { exists (Raise e). apply quiet_bind_raise, quiet_lift. }
  destruct (open_ok E (os_path_expanduser E answer_file)) as [[]|e] eqn:Hopen.
  2: { exists (Raise e). apply quiet_bind; [intros w; by exists (), w|]. intros _.
       cbn zeta. apply quiet_bind_raise. unfold open_append. rewrite Hopen.
       apply quiet_bind_raise, quiet_lift. }
  destruct (subscript_key question "question_id") as [qid|e] eqn:Hqid.
  2: { exists (Raise e). apply quiet_bind; [intros w; by exists (), w|]. intros _.
       cbn zeta. apply quiet_bind.
       { intros w. unfold open_append. rewrite Hopen, bind_lift.
         by eexists (), _. }
       intros _. apply quiet_bind_raise, quiet_lift. }
  exists (Ok ()). apply quiet_bind; [intros w; by exists (), w|]. intros _.
  cbn zeta. apply quiet_bind.
  { intros w. unfold open_append. rewrite Hopen, bind_lift. by eexists (), _. }
  intros _. apply quiet_bind; [intros w; by exists qid, w|]. intros qid'.
  apply quiet_bind; [intros w; by eexists _, _|]. intros answer_id.
  apply quiet_bind; [intros w; by eexists _, _|]. intros tstamp.
  intros w. by eexists.
Qed.

Lemma answer_question_deterministic (u : unit) (question : json) :
  deterministic (answer_question E model tokenizer model_id answer_file
                                 max_new_token num_choices u question).
Proof.
  unfold answer_question.
  apply deterministic_bind; [apply deterministic_lift|]. intros temperature.
  apply deterministic_bind; [apply deterministic_lift|]. intros indices.
  apply deterministic_bind.
  { apply deterministic_for_each. intros. apply answer_choice_deterministic. }
  intros choices. destruct (dump_quiet question choices) as [r Hr].
  by eapply deterministic_quiet.
Qed.

End Determinism.

Lemma get_model_answers_deterministic (E : environment)
    (model_path model_id : string) (questions : list json) (answer_file : string)
    (max_new_token num_choices num_gpus_per_model : Z)
    (max_gpu_memory dtype : option string) (revision : string) :
  deterministic (get_model_answers E model_path model_id questions answer_file
                   max_new_token num_choices num_gpus_per_model max_gpu_memory
                   dtype revision).
Proof.
  unfold get_model_answers.
  apply deterministic_bind; [apply deterministic_lift|]. intros [model tokenizer].
  apply deterministic_for_each. intros u question.
  apply answer_question_deterministic.
Qed.

Lemma omap_seed_of_no_seed (evs : list event) :
  Forall (λ ev, ¬ is_manual_seed ev) evs → omap seed_of evs = [].
Proof.
  induction 1 as [|ev evs Hev _ IH]; [done|].
  destruct ev; simpl in *; done.
Qed.

(** A choice first seeds the generator with its index, and the seed is
    not set again before the choice is over. *)
Lemma answer_choice_seed (E : environment) (model : model_t) (tokenizer : tokenizer_t)
    (model_id : string) (max_new_token : Z) (question : json)
    (temperature : pyfloat) (choices : list json) (i : Z)
    (w : world) (r : result (list json)) (w' : world) :
  answer_choice E model tokenizer model_id max_new_token question temperature
                choices i w = (r, w') →
  ∃ evs, log w' = log w ++ ManualSeed i :: evs
         ∧ Forall (λ ev, ¬ is_manual_seed ev) evs.
Proof.
  unfold answer_choice. rewrite bind_unfold. unfold torch_manual_seed at 1.
  cbn [emit]. intros Hrest.
  assert (appends (λ ev, ¬ is_manual_seed ev)
            (all_turns ← lift (subscript_key question "turns");
             n ← lift (py_len all_turns);
             js ← lift (py_range 0 n 1);
             '(_, turns) ← for_each js
                (answer_turn E model tokenizer max_new_token question temperature)
                (get_conversation_template E model_id, []);
             mret (choices ++ [JDict [("index"%string, JInt i);
                                      ("turns"%string, JList (JStr <$> turns))]])))
    as Happ.
  { apply appends_bind; [apply appends_lift|]. intros all_turns.
    apply appends_bind; [apply appends_lift|]. intros n.
    apply appends_bind; [apply appends_lift|]. intros js.
    apply appends_bind.
    - apply appends_for_each. intros a x.
      apply (answer_turn_appends max_new_token);
        [intros [] ?; simpl in *; tauto|intros ? _ []].
    - intros [conv turns]. apply appends_mret. }
  destruct (Happ _ _ _ Hrest) as (evs & Hlog & Hall).
  exists evs. split; [|done]. rewrite Hlog. cbn [log set_rng]. by rewrite <- app_assoc.
Qed.

(** C7: each choice of a question is sampled after the global generator
    has been seeded with the index of the choice, the seeds set for the
    choices [0 .. n-1] are exactly [0 .. n-1] in that order, and two runs
    from any two states of the world (generator, console, files, ids
    drawn, clock) set the same seeds, make the same sampling calls and
    compute the same choices, for a question and for a whole call of
    [get_model_answers]. *)
Theorem choices_governed_by_seed (E : environment) (model : model_t)
    (tokenizer : tokenizer_t) (model_id : string) (max_new_token : Z)
    (question : json) (temperature : pyfloat) :
  (∀ choices i w r w',
     answer_choice E model tokenizer model_id max_new_token question temperature
                   choices i w = (r, w') →
     ∃ evs, log w' = log w ++ ManualSeed i :: evs
            ∧ Forall (λ ev, ¬ is_manual_seed ev) evs)
  ∧ (∀ (n : nat) w choices w',
       for_each (map Z.of_nat (seq 0 n))
         (answer_choice E model tokenizer model_id max_new_token question temperature)
         [] w = (Ok choices, w') →
       ∃ evs, log w' = log w ++ evs
              ∧ omap seed_of evs = map Z.of_nat (seq 0 n))
  ∧ (∀ indices w1 w2,
       agree (for_each indices
                (answer_choice E model tokenizer model_id max_new_token question
                               temperature) [])
             w1 w2)
  ∧ (∀ model_path questions answer_file num_choices num_gpus_per_model
       max_gpu_memory dtype revision w1 w2,
       agree (get_model_answers E model_path model_id questions answer_file
                max_new_token num_choices num_gpus_per_model max_gpu_memory
                dtype revision)
             w1 w2).
Proof.
  split; [|split; [|split]].
  - intros choices i w r w'. apply answer_choice_seed.
  - intros n w choices w' Hrun.
    apply (for_each_ok_inv
             (λ done (_ : list json) v,
                ∃ evs, log v = log w ++ evs ∧ omap seed_of evs = done)) in Hrun;
      [done| |].
    + exists []. by rewrite app_nil_r.
    + intros done i a v a1 v1 (evs & Hlog & Hseeds) Hchoice.
      apply answer_choice_seed in Hchoice as (evs' & Hlog' & Hnone).
      exists (evs ++ ManualSeed i :: evs'). split.
      * by rewrite Hlog', Hlog, <- app_assoc.
      * rewrite omap_app, Hseeds. cbn [omap list_omap seed_of].
        by rewrite omap_seed_of_no_seed.
  - intros indices. apply deterministic_for_each. intros.
    apply answer_choice_deterministic.
  - intros. apply get_model_answers_deterministic.
Qed.

Lemma choices_governed_by_seed_witness :
  let E := Demo.env Demo.echo_model in
  let question := JDict [("question_id"%string, JInt 82);
                         ("category"%string, JStr "math");
                         ("turns"%string, JList [JStr "1+1?"])] in
  let run := answer_choice E Demo.echo_model Demo.tokenizer "demo" 1024 question
               (Finite 0) [] 3 Demo.world0 in
  ∃ evs, log run.2 = log Demo.world0 ++ ManualSeed 3 :: evs
         ∧ Forall (λ ev, ¬ is_manual_seed ev) evs.
Proof.
  intros E question run.
  apply (proj1 (choices_governed_by_seed E Demo.echo_model Demo.tokenizer "demo"
                  1024 question (Finite 0)) [] 3 Demo.world0 run.1 run.2).
  apply surjective_pairing.
Defined.

(** ** What a run leaves untouched *)

Section Respects.

Context (R : relation world) `{!PreOrder R}.

Lemma respects_mret {A} (a : A) : respects R (mret a).
Proof. by intros w r w' [= <- <-]. Qed.

Lemma respects_lift {A} (r : result A) : respects R (lift r).
Proof. by intros w r' w' [= <- <-]. Qed.

Lemma respects_bind {A B} (m : M A) (f : A → M B) :
  respects R m → (∀ a, respects R (f a)) → respects R (m ≫= f).
Proof.
  intros Hm Hf w r w'. rewrite bind_unfold.
  destruct (m w) as [[a|e] w1] eqn:Hmw.
  - intros Hfa. etrans; [by eapply Hm|by eapply Hf].
  - intros [= <- <-]. by eapply Hm.
Qed.

Lemma respects_for_each {A B} (xs : list A) (body : B → A → M B) (acc : B) :
  (∀ a x, respects R (body a x)) → respects R (for_each xs body acc).
Proof.
  intros Hbody. revert acc. induction xs as [|x xs IH]; intros acc.
  - apply respects_mret.
  - cbn [for_each]. apply respects_bind; [apply Hbody|apply IH].
Qed.

Lemma respects_try_except {A} (body : M A) (handler : exc_class → M A) :
  respects R body → (∀ e, respects R (handler e)) →
  respects R (try_except_RuntimeError body handler).
Proof.
  intros Hbody Hhandler w r w'. unfold try_except_RuntimeError.
  destruct (body w) as [[a|e] w1] eqn:Hbw.
  - intros [= <- <-]. by eapply Hbody.
  - destruct (issubclass e RuntimeError).
    + intros Hh. etrans; [by eapply Hbody|by eapply Hhandler].
    + intros [= <- <-]. by eapply Hbody.
Qed.

End Respects.

Global Instance same_store_preorder : PreOrder same_store.
Proof.
  split.
  - by intros w.
  - intros w1 w2 w3 (? & ? & ?) (? & ? & ?). unfold same_store. by repeat split; congruence.
Qed.

Lemma emit_same_store (ev : event) : respects same_store (emit ev).
Proof. by intros w r w' [= <- <-]. Qed.

Lemma model_generate_same_store (model : model_t) (kwargs : generate_kwargs) :
  respects same_store (model_generate model kwargs).
Proof.
  intros w r w'. unfold model_generate. cbn [emit].
  destruct (generate model _ kwargs) as [r0 g]. by intros [= <- <-].
Qed.

Lemma torch_manual_seed_same_store (E : environment) (seed : Z) :
  respects same_store (torch_manual_seed E seed).
Proof. by intros w r w' [= <- <-]. Qed.

Ltac same_store_step :=
  first [ apply (respects_lift same_store)
        | apply (respects_mret same_store)
        | apply emit_same_store
        | apply model_generate_same_store
        | apply torch_manual_seed_same_store
        | apply (respects_bind same_store); [|intros ?] ].

Section SameStore.

Variable E : environment.
Variables (model : model_t) (tokenizer : tokenizer_t).
Variable model_id : string.
Variable max_new_token : Z.

Lemma answer_turn_same_store (question : json) (temperature : pyfloat)
    (state : conversation * list string) (j : Z) :
  respects same_store
    (answer_turn E model tokenizer max_new_token question temperature state j).
Proof.
  destruct state as [conv turns]. unfold answer_turn.
  same_store_step.
  { unfold prepare_turn.
    do 8 (same_store_step; [same_store_step|]).
    same_store_step; [case_decide; repeat same_store_step|same_store_step]. }
  same_store_step; [|repeat same_store_step].
  apply (respects_try_except same_store).
  - unfold sample. repeat same_store_step.
  - intros e. unfold on_runtime_error. repeat same_store_step.
Qed.

Lemma answer_choice_same_store (question : json) (temperature : pyfloat)
    (choices : list json) (i : Z) :
  respects same_store
    (answer_choice E model tokenizer model_id max_new_token question temperature
                   choices i).
Proof.
  unfold answer_choice.
  do 4 (same_store_step; [same_store_step|]).
  same_store_step.
  - apply (respects_for_each same_store). intros. apply answer_turn_same_store.
  - by match goal with st : (conversation * list string)%type |- _ =>
         destruct st; same_store_step
       end.
Qed.

End SameStore.

(** ** The shape of what is written *)

Section Shape.

Variable E : environment.
Variables (model : model_t) (tokenizer : tokenizer_t).
Variables (model_id answer_file : string).
Variables (max_new_token num_choices : Z).

(** A turn that returns has added one completion. *)
Lemma answer_turn_ok (question : json) (temperature : pyfloat)
    (conv : conversation) (turns : list string) (j : Z) (w : world)
    (conv' : conversation) (turns' : list string) (w' : world) :
  answer_turn E model tokenizer max_new_token question temperature
              (conv, turns) j w = (Ok (conv', turns'), w') →
  ∃ output, turns' = turns ++ [output].
Proof.
  unfold answer_turn. intros H.
  do 3 (apply bind_ok_inv in H as (? & ? & _ & H)).
  injection H as <- <- <-. eauto.
Qed.

(** A choice that returns has added one entry, with its index and one
    completion per turn. *)
Lemma answer_choice_ok (question : json) (temperature : pyfloat)
    (choices : list json) (i : Z) (w : world) (choices' : list json) (w' : world) :
  answer_choice E model tokenizer model_id max_new_token question temperature
                choices i w = (Ok choices', w') →
  ∃ c, choices' = choices ++ [c] ∧ is_choice_of question i c.
Proof.
  unfold answer_choice. intros H.
  apply bind_ok_inv in H as (? & ? & _ & H).
  apply bind_ok_inv in H as (all_turns & ? & [Hturns ->]%lift_ok_inv & H).
  apply bind_ok_inv in H as (n & ? & [Hlen ->]%lift_ok_inv & H).
  apply bind_ok_inv in H as (js & ? & [Hjs ->]%lift_ok_inv & H).
  apply bind_ok_inv in H as ([conv turns] & w1 & Hloop & H).
  injection H as <- <-. eexists. split; [done|].
  exists all_turns, n. split; [done|]. split; [done|].
  exists turns. split; [done|].
  rewrite py_range_0_1 in Hjs. injection Hjs as <-.
  apply (for_each_ok_inv (λ done st _, length st.2 = length done)) in Hloop.
  - simpl in Hloop. by rewrite Hloop, length_map, length_seq.
  - done.
  - intros done j [conv0 turns0] v [conv1 turns1] v1 Hlen0 Hturn.
    apply answer_turn_ok in Hturn as [output ->].
    simpl in *. rewrite !length_app. simpl. lia.
Qed.

(** The loop over the choices: one entry per index, in order. *)
Lemma answer_choices_ok (question : json) (temperature : pyfloat)
    (indices : list Z) (w : world) (choices : list json) (w' : world) :
  for_each indices
    (answer_choice E model tokenizer model_id max_new_token question temperature)
    [] w = (Ok choices, w') →
  Forall2 (is_choice_of question) indices choices ∧ same_store w w'.
Proof.
  intros Hloop. split.
  - apply (for_each_ok_inv (λ done acc _, Forall2 (is_choice_of question) done acc))
      in Hloop; [done|constructor|].
    intros done i acc v acc1 v1 Hdone Hchoice.
    apply answer_choice_ok in Hchoice as (c & -> & Hc).
    apply Forall2_app; [done|]. by constructor.
  - eapply (respects_for_each same_store); [|done].
    intros. apply answer_choice_same_store.
Qed.

(** A question that returns has appended exactly one line to the answer
    file: its record, with the id drawn and the time read just then. *)
Lemma answer_question_ok (question : json) (w w' : world) :
  answer_question E model tokenizer model_id answer_file max_new_token
                  num_choices () question w = (Ok (), w') →
  ∃ line,
    is_answer_line E model_id num_choices question
      (shortuuid_uuid E (uuids_drawn w)) (time_time E (clock w)) line
    ∧ files w' = <[os_path_expanduser E answer_file :=
                     file_lines w (os_path_expanduser E answer_file) ++ [line]]>
                   (files w)
    ∧ uuids_drawn w' = S (uuids_drawn w)
    ∧ clock w' = S (clock w).
Proof.
  unfold answer_question. intros H.
  apply bind_ok_inv in H as (temperature & ? & [_ ->]%lift_ok_inv & H).
  apply bind_ok_inv in H as (indices & ? & [Hidx ->]%lift_ok_inv & H).
  apply bind_ok_inv in H as (choices & w1 & Hloop & H).
  apply answer_choices_ok in Hloop as [Hchoices (Hfiles & Huuids & Hclock)].
  apply bind_ok_inv in H as (? & ? & [_ ->]%lift_ok_inv & H).
  cbn zeta in H. unfold open_append in H.
  apply bind_ok_inv in H as (? & w2 & Hopen & H).
  apply bind_ok_inv in Hopen as (? & ? & [_ ->]%lift_ok_inv & Hopen).
  unfold modify in Hopen. injection Hopen as Hw2. subst w2.
  apply bind_ok_inv in H as (qid & ? & [Hqid ->]%lift_ok_inv & H).
  apply bind_ok_inv in H as (answer_id & w3 & Huuid & H).
  injection Huuid as <- <-.
  apply bind_ok_inv in H as (tstamp & w4 & Htime & H).
  injection Htime as <- <-.
  injection H as <-. cbn [files uuids_drawn clock set_files rng log].
  rewrite Huuids, Hclock, Hfiles. eexists. split; [|split; [|done]].
  - eexists. split; [|done]. exists qid, choices. split; [done|].
    rewrite py_range_0_1 in Hidx. injection Hidx as <-.
    split; [|split; [|done]].
    + apply Forall2_length in Hchoices.
      by rewrite <- Hchoices, length_map, length_seq.
    + intros i c Hc.
      destruct (Forall2_lookup_r _ _ _ _ _ Hchoices Hc) as (i' & Hi' & Hshape).
      rewrite list_lookup_fmap in Hi'.
      destruct (seq 0 (Z.to_nat num_choices) !! i) as [k|] eqn:Hk; [|done].
      apply lookup_seq in Hk as [-> _]. by injection Hi' as <-.
  - unfold file_lines. rewrite lookup_insert_eq. cbn [default from_option id].
    by rewrite insert_insert_eq.
Qed.

End Shape.

(** C6: a call of [get_model_answers] that returns has appended to the
    answer file exactly one line per question, in order; the line of a
    question is a JSON object with exactly the fields [question_id] (the
    one of the question), [answer_id] (the next id drawn from
    [shortuuid], a new draw for every question), [model_id], [choices]
    ([num_choices] entries, each with its index and the completions of
    the turns) and [tstamp] (the time read then); no other file is
    touched. *)
Theorem one_record_per_question (E : environment) (model_path model_id : string)
    (questions : list json) (answer_file : string)
    (max_new_token num_choices num_gpus_per_model : Z)
    (max_gpu_memory dtype : option string) (revision : string) (w w' : world) :
  get_model_answers E model_path model_id questions answer_file max_new_token
    num_choices num_gpus_per_model max_gpu_memory dtype revision w = (Ok (), w') →
  ∃ lines,
    file_lines w' (os_path_expanduser E answer_file)
      = file_lines w (os_path_expanduser E answer_file) ++ lines
    ∧ length lines = length questions
    ∧ (∀ k question line,
         questions !! k = Some question → lines !! k = Some line →
         is_answer_line E model_id num_choices question
           (shortuuid_uuid E (uuids_drawn w + k)) (time_time E (clock w + k)) line)
    ∧ (∀ path, path ≠ os_path_expanduser E answer_file →
         files w' !! path = files w !! path).
Proof.
  unfold get_model_answers. intros H.
  apply bind_ok_inv in H as ([model tokenizer] & ? & [_ ->]%lift_ok_inv & H).
  unfold answer_questions in H.
  set (target := os_path_expanduser E answer_file).
  apply (for_each_ok_inv
           (λ done (_ : unit) v,
              uuids_drawn v = (uuids_drawn w + length done)%nat
              ∧ clock v = (clock w + length done)%nat
              ∧ (∀ path, path ≠ target → files v !! path = files w !! path)
              ∧ ∃ lines,
                  file_lines v target = file_lines w target ++ lines
                  ∧ length lines = length done
                  ∧ ∀ k question line,
                      done !! k = Some question → lines !! k = Some line →
                      is_answer_line E model_id num_choices question
                        (shortuuid_uuid E (uuids_drawn w + k))
                        (time_time E (clock w + k)) line)) in H.
  - destruct H as (_ & _ & Hother & lines & Hlines & Hlen & Hshape). by exists lines.
  - split; [simpl; lia|]. split; [simpl; lia|]. split; [done|].
    exists []. split; [by rewrite app_nil_r|]. split; [done|].
    intros k question line Hk. by rewrite lookup_nil in Hk.
  - intros done question [] v [] v1
      (Huuids & Hclock & Hother & lines & Hlines & Hlen & Hshape) Hq.
    apply answer_question_ok in Hq as (line & Hline & Hfiles & Huuids1 & Hclock1).
    fold target in Hfiles.
    split; [rewrite Huuids1, Huuids, length_app; simpl; lia|].
    split; [rewrite Hclock1, Hclock, length_app; simpl; lia|].
    split; [intros path Hpath; by rewrite Hfiles, lookup_insert_ne, Hother|].
    exists (lines ++ [line]). split; [|split].
    + unfold file_lines at 1. rewrite Hfiles, lookup_insert_eq.
      cbn [default from_option id]. by rewrite Hlines, app_assoc.
    + rewrite !length_app. simpl. lia.
    + intros k q l Hk Hl.
      destruct (decide (k < length done)%nat) as [Hlt|Hge].
      * rewrite lookup_app_l in Hk by done. rewrite lookup_app_l in Hl by lia.
        by eapply Hshape.
      * rewrite lookup_app_r in Hk by lia. rewrite lookup_app_r in Hl by lia.
        rewrite Hlen in Hl.
        destruct (k - length done)%nat as [|?] eqn:Hk0; [|done].
        simpl in Hk, Hl. injection Hk as <-. injection Hl as <-.
        replace k with (length done) by lia.
        by rewrite <- Huuids, <- Hclock.
Qed.

Lemma one_record_per_question_witness :
  let E := Demo.env Demo.echo_model in
  let run := get_model_answers E "demo-path" "demo" Demo.questions "out.jsonl"
               1024 2 1 None None "main" Demo.world0 in
  ∃ lines,
    file_lines run.2 (os_path_expanduser E "out.jsonl")
      = file_lines Demo.world0 (os_path_expanduser E "out.jsonl") ++ lines
    ∧ length lines = length Demo.questions
    ∧ (∀ k question line,
         Demo.questions !! k = Some question → lines !! k = Some line →
         is_answer_line E "demo" 2 question
           (shortuuid_uuid E (uuids_drawn Demo.world0 + k))
           (time_time E (clock Demo.world0 + k)) line)
    ∧ (∀ path, path ≠ os_path_expanduser E "out.jsonl" →
         files run.2 !! path = files Demo.world0 !! path).
Proof.
  intros E run.
  apply (one_record_per_question E "demo-path" "demo" Demo.questions "out.jsonl"
           1024 2 1 None None "main" Demo.world0 run.2).
  vm_compute. reflexivity.
Defined.

(** ** Failures inside and outside the [try] block *)

Lemma is_ok_true {A} (r : result A) : is_ok r = true → ∃ a, r = Ok a.
Proof. destruct r; [eauto|done]. Qed.

Lemma py_getitem_ok {A} (l : list A) (j : nat) :
  (j < length l)%nat → ∃ x, py_getitem l (Z.of_nat j) = Ok x.
Proof.
  intros Hj. unfold py_getitem.
  destruct (decide (Z.of_nat j < 0)) as [|_]; [lia|].
  rewrite decide_True by lia. rewrite Nat2Z.id.
  destruct (lookup_lt_is_Some_2 l j Hj) as [x ->]. eauto.
Qed.

(** After [append_message] there is a last message to update. *)
Lemma update_last_message_append (conv : conversation) (role : string)
    (message output : json) :
  update_last_message (append_message conv role message) output =
  Ok (Conversation (name conv) (roles conv) (messages conv ++ [(role, output)])
                   (stop_str conv) (stop_token_ids conv)).
Proof.
  unfold update_last_message, append_message. cbn [messages name roles stop_str stop_token_ids].
  rewrite last_snoc. do 2 f_equal.
  rewrite length_app. simpl.
  replace (length (messages conv) + 1 - 1)%nat with (length (messages conv)) by lia.
  by rewrite take_app_length.
Qed.

Section Failures.

Variable E : environment.
Variables (model : model_t) (tokenizer : tokenizer_t).
Variables (model_id answer_file : string).
Variables (max_new_token num_choices : Z).

(** The conversation a turn enters the [try] block with ends in the
    empty message of the second role. *)
Lemma prepare_turn_conv (question : json) (temperature : pyfloat)
    (conv : conversation) (j : Z) (w : world) (setup : turn_setup) (w' : world) :
  prepare_turn E tokenizer max_new_token question temperature conv j w
    = (Ok setup, w') →
  ∃ qs, ts_conv setup =
          append_message (append_message conv (roles conv).1 qs) (roles conv).2 JNull.
Proof.
  unfold prepare_turn. intros H.
  apply bind_ok_inv in H as (? & ? & _ & H).
  apply bind_ok_inv in H as (qs & ? & _ & H).
  do 7 (apply bind_ok_inv in H as (? & ? & _ & H)).
  injection H as <- _. by exists qs.
Qed.

(** A [RuntimeError] raised in the [try] block is caught: it is printed
    with the question id, and the completion is the string ["ERROR"]. *)
Lemma try_block_caught (body : M string) (question : json) (qid : json)
    (w w1 : world) (e : exc_class) :
  body w = (Raise e, w1) →
  issubclass e RuntimeError = true →
  subscript_key question "question_id" = Ok qid →
  ∃ w',
    try_except_RuntimeError body (on_runtime_error question) w
      = (Ok "ERROR"%string, w')
    ∧ log w' = log w1 ++ [PrintException e; PrintErrorQuestionId qid]
    ∧ rng w' = rng w1 ∧ same_store w1 w'.
Proof.
  intros Hbody Hsub Hqid. unfold try_except_RuntimeError.
  rewrite Hbody, Hsub. unfold on_runtime_error.
  rewrite bind_emit, bind_lift, Hqid, bind_emit.
  eexists. split; [done|]. cbn [log rng]. by rewrite <- app_assoc.
Qed.

(** An exception raised in the [try] block that is not a [RuntimeError]
    goes through the handler. *)
Lemma try_block_uncaught {A} (body : M A) (handler : exc_class → M A)
    (w w1 : world) (e : exc_class) :
  body w = (Raise e, w1) →
  issubclass e RuntimeError = false →
  try_except_RuntimeError body handler w = (Raise e, w1).
Proof.
  intros Hbody Hsub. unfold try_except_RuntimeError. by rewrite Hbody, Hsub.
Qed.

(** The turn whose sampling raises a [RuntimeError]. *)
Lemma answer_turn_error (question : json) (temperature : pyfloat)
    (conv : conversation) (turns : list string) (j : Z)
    (w w1 w2 : world) (setup : turn_setup) (e : exc_class) (qid : json) :
  prepare_turn E tokenizer max_new_token question temperature conv j w
    = (Ok setup, w1) →
  sample model tokenizer (ts_conv setup) (ts_inputs setup)
    (ts_logits_processor setup) (ts_do_sample setup) temperature
    (ts_max_new_token setup) w1 = (Raise e, w2) →
  issubclass e RuntimeError = true →
  subscript_key question "question_id" = Ok qid →
  ∃ conv' w',
    answer_turn E model tokenizer max_new_token question temperature
                (conv, turns) j w = (Ok (conv', turns ++ ["ERROR"%string]), w')
    ∧ last (messages conv') = Some ((roles conv).2, JStr "ERROR")
    ∧ log w' = log w2 ++ [PrintException e; PrintErrorQuestionId qid].
Proof.
  intros Hsetup Hsample Hsub Hqid. unfold answer_turn.
  rewrite (bind_ok _ _ _ _ _ Hsetup).
  rewrite bind_unfold. unfold try_except_RuntimeError.
  rewrite Hsample, Hsub. unfold on_runtime_error.
  rewrite bind_emit, bind_lift, Hqid, bind_emit. cbn [mret M_ret].
  destruct (prepare_turn_conv _ _ _ _ _ _ _ Hsetup) as [qs ->].
  rewrite bind_lift, update_last_message_append.
  eexists _, _. split; [done|]. cbn [messages log roles append_message].
  split; [by rewrite last_snoc|by rewrite <- app_assoc].
Qed.

(** The turn whose [try] block raises something else, and the turn that
    fails before its [try] block. *)
Lemma answer_turn_uncaught (question : json) (temperature : pyfloat)
    (conv : conversation) (turns : list string) (j : Z)
    (w w1 w2 : world) (setup : turn_setup) (e : exc_class) :
  prepare_turn E tokenizer max_new_token question temperature conv j w
    = (Ok setup, w1) →
  sample model tokenizer (ts_conv setup) (ts_inputs setup)
    (ts_logits_processor setup) (ts_do_sample setup) temperature
    (ts_max_new_token setup) w1 = (Raise e, w2) →
  issubclass e RuntimeError = false →
  answer_turn E model tokenizer max_new_token question temperature
              (conv, turns) j w = (Raise e, w2).
Proof.
  intros Hsetup Hsample Hsub. unfold answer_turn.
  rewrite (bind_ok _ _ _ _ _ Hsetup).
  apply bind_raise. by apply try_block_uncaught.
Qed.

Lemma answer_turn_prepare_raises (question : json) (temperature : pyfloat)
    (conv : conversation) (turns : list string) (j : Z)
    (w w1 : world) (e : exc_class) :
  prepare_turn E tokenizer max_new_token question temperature conv j w
    = (Raise e, w1) →
  answer_turn E model tokenizer max_new_token question temperature
              (conv, turns) j w = (Raise e, w1).
Proof. intros Hsetup. unfold answer_turn. by apply bind_raise. Qed.

End Failures.

(** ** A run in which only the [try] block fails *)

Section Totality.

Variable E : environment.
Variables (model : model_t) (tokenizer : tokenizer_t).
Variables (model_id answer_file : string).
Variables (max_new_token num_choices : Z).

Hypothesis prompt_ok : ∀ conv, is_ok (get_prompt E conv) = true.
Hypothesis tokenize_ok : ∀ prompt, is_ok (tokenize tokenizer prompt) = true.
Hypothesis sample_runtime_errors :
  ∀ conv inputs logits_processor do_sample temperature budget v e v',
    sample model tokenizer conv inputs logits_processor do_sample temperature
           budget v = (Raise e, v') →
    issubclass e RuntimeError = true.

Lemma prepare_turn_total (question : json) (temperature : pyfloat)
    (conv : conversation) (turns : list json) (j : nat) (w : world) :
  subscript_key question "turns" = Ok (JList turns) →
  (j < length turns)%nat →
  ∃ setup w1,
    prepare_turn E tokenizer max_new_token question temperature conv
                 (Z.of_nat j) w = (Ok setup, w1).
Proof.
  intros Hturns Hj. unfold prepare_turn. cbn zeta.
  rewrite bind_lift, Hturns. cbn [subscript_index].
  destruct (py_getitem_ok turns j Hj) as [qs Hqs]. rewrite bind_lift, Hqs.
  destruct (is_ok_true _ (prompt_ok
    (append_message (append_message conv (roles conv).1 qs)
       (roles (append_message conv (roles conv).1 qs)).2 JNull))) as [prompt Hprompt].
  rewrite bind_lift, Hprompt.
  destruct (is_ok_true _ (tokenize_ok prompt)) as [inputs Hinputs].
  rewrite bind_lift, Hinputs. rewrite !bind_emit. rewrite bind_unfold.
  case_decide; [rewrite bind_emit|]; cbn [mret M_ret]; eauto.
Qed.

Lemma answer_turn_total (question : json) (temperature : pyfloat)
    (conv : conversation) (completions : list string) (turns : list json)
    (j : nat) (w : world) :
  subscript_key question "turns" = Ok (JList turns) →
  is_ok (subscript_key question "question_id") = true →
  (j < length turns)%nat →
  ∃ state w',
    answer_turn E model tokenizer max_new_token question temperature
                (conv, completions) (Z.of_nat j) w = (Ok state, w').
Proof.
  intros Hturns [qid Hqid]%is_ok_true Hj.
  destruct (prepare_turn_total question temperature conv turns j w Hturns Hj)
    as (setup & w1 & Hsetup).
  unfold answer_turn. rewrite (bind_ok _ _ _ _ _ Hsetup).
  destruct (prepare_turn_conv _ _ _ _ _ _ _ _ _ _ Hsetup) as [qs Hconv].
  assert (∃ output w2,
            try_except_RuntimeError
              (sample model tokenizer (ts_conv setup) (ts_inputs setup)
                 (ts_logits_processor setup) (ts_do_sample setup) temperature
                 (ts_max_new_token setup))
              (on_runtime_error question) w1 = (Ok output, w2))
    as (output & w2 & Htry).
  { destruct (sample model tokenizer (ts_conv setup) (ts_inputs setup)
                (ts_logits_processor setup) (ts_do_sample setup) temperature
                (ts_max_new_token setup) w1) as [[output|e] w2] eqn:Hsample.
    - exists output, w2. unfold try_except_RuntimeError. by rewrite Hsample.
    - destruct (try_block_caught _ question qid w1 w2 e Hsample) as (w' & Hw' & _).
      + by eapply sample_runtime_errors.
      + done.
      + eauto. }
  rewrite (bind_ok _ _ _ _ _ Htry).
  rewrite Hconv, bind_lift, update_last_message_append. cbn [mret M_ret]. eauto.
Qed.

Lemma answer_choice_total (question : json) (temperature : pyfloat)
    (choices : list json) (i : Z) (w : world) :
  well_formed_question E question →
  ∃ choices' w',
    answer_choice E model tokenizer model_id max_new_token question temperature
                  choices i w = (Ok choices', w').
Proof.
  intros (_ & [turns Hturns] & Hqid). unfold answer_choice.
  rewrite bind_unfold. unfold torch_manual_seed at 1. cbn [emit].
  rewrite bind_lift, Hturns. cbn [py_len]. rewrite bind_lift, bind_lift.
  rewrite py_range_0_1, Nat2Z.id.
  match goal with
  | |- context [(for_each ?xs ?body ?acc ≫= _) ?v] =>
      destruct (for_each_total (λ _ _, True) xs body acc v) as (st & w1 & Hloop & _)
  end.
  - done.
  - intros j [conv completions] v [k [-> Hk]]%list_elem_of_fmap _.
    apply elem_of_seq in Hk.
    destruct (answer_turn_total question temperature conv completions turns k v)
      as (state & w' & Hturn); [done|done|lia|eauto].
  - rewrite bind_unfold, Hloop. destruct st. cbn [mret M_ret]. eauto.
Qed.

Hypothesis makedirs_ok : is_ok (os_makedirs E (os_path_dirname E answer_file)) = true.
Hypothesis open_succeeds : is_ok (open_ok E (os_path_expanduser E answer_file)) = true.

Lemma answer_question_total (question : json) (w : world) :
  well_formed_question E question →
  ∃ w', answer_question E model tokenizer model_id answer_file max_new_token
          num_choices () question w = (Ok (), w').
Proof.
  intros Hwf. pose proof Hwf as ([temperature Htemp]%is_ok_true & _ & [qid Hqid]%is_ok_true).
  unfold answer_question. rewrite bind_lift, Htemp.
  rewrite bind_lift, py_range_0_1.
  match goal with
  | |- context [(for_each ?xs ?body ?acc ≫= _) ?v] =>
      destruct (for_each_total (λ _ _, True) xs body acc v)
        as (choices & w1 & Hloop & _)
  end.
  - done.
  - intros i choices v _ _.
    destruct (answer_choice_total question temperature choices i v Hwf)
      as (choices' & w' & Hchoice). eauto.
  - rewrite (bind_ok _ _ _ _ _ Hloop).
    destruct (is_ok_true _ makedirs_ok) as [[] ->]. rewrite bind_lift. cbn zeta.
    unfold open_append. rewrite bind_unfold, bind_lift.
    destruct (is_ok_true _ open_succeeds) as [[] ->]. unfold modify at 1.
    rewrite bind_lift, Hqid. rewrite bind_unfold. unfold uuid at 1.
    rewrite bind_unfold. unfold time at 1. unfold file_write, modify. eauto.
Qed.

Lemma answer_questions_total (questions : list json) (w : world) :
  Forall (well_formed_question E) questions →
  ∃ w', answer_questions E model tokenizer model_id answer_file max_new_token
          num_choices questions w = (Ok (), w').
Proof.
  intros Hwf. unfold answer_questions.
  destruct (for_each_total (λ _ _, True) questions
              (answer_question E model tokenizer model_id answer_file
                 max_new_token num_choices) () w) as ([] & w' & Hloop & _).
  - done.
  - intros question [] v Hq _.
    destruct (answer_question_total question v) as (w' & Hw').
    + by eapply Forall_forall in Hwf.
    + eauto.
  - eauto.
Qed.

End Totality.



(** ** Failures that leave the script *)

Lemma ray_get_raise (done : list (result unit)) (e : exc_class)
    (rest : list (result unit)) :
  Forall (λ h, is_ok h = true) done → ray_get (done ++ Raise e :: rest) = Raise e.
Proof.
  induction 1 as [|[[]|e'] done Hh _ IH]; [done| |done]. by simpl.
Qed.

(** With ray every task is run, and [ray.get] then reports on the
    handles. *)
Lemma dispatch_ray (E : environment) (model_path model_id answer_file : string)
    (max_new_token num_choices num_gpus_per_model : Z)
    (max_gpu_memory dtype : option string) (revision : string)
    (chunks : list (list json)) (w : world) :
  ∃ handles w',
    length handles = length chunks
    ∧ dispatch E model_path model_id answer_file max_new_token num_choices
        num_gpus_per_model max_gpu_memory dtype revision true chunks w
      = (ray_get handles, w').
Proof.
  unfold dispatch.
  assert (∀ acc v, ∃ handles v',
            for_each chunks
              (λ ans_handles chunk,
                 h ← ray_remote
                       (get_model_answers E model_path model_id chunk answer_file
                          max_new_token num_choices num_gpus_per_model
                          max_gpu_memory dtype revision);
                 mret (ans_handles ++ [h])) acc v = (Ok (acc ++ handles), v')
            ∧ length handles = length chunks) as Hloop.
  { induction chunks as [|chunk chunks IH]; intros acc v.
    - exists [], v. by rewrite app_nil_r.
    - cbn [for_each]. rewrite bind_unfold, bind_unfold. unfold ray_remote at 1.
      destruct (get_model_answers _ _ _ chunk _ _ _ _ _ _ _ v) as [h v1].
      cbn [mret M_ret].
      destruct (IH (acc ++ [h]) v1) as (handles & v' & -> & Hlen).
      exists (h :: handles), v'. rewrite <- app_assoc. simpl. by rewrite Hlen. }
  destruct (Hloop [] w) as (handles & w' & Hrun & Hlen).
  exists handles, w'. split; [done|]. by rewrite bind_unfold, Hrun.
Qed.




(** C8: [run_eval] gets to its dispatch loop only when [num_gpus_total]
    is a multiple of [num_gpus_per_model] and there are at least
    [num_gpus_total // num_gpus_per_model] questions: when the total is not
    a multiple the assertion fails, and with fewer questions than groups
    [chunk_size] is 0 and [range] raises [ValueError]; either way
    [run_eval] raises before any worker is started. *)
Theorem run_eval_preconditions (E : environment)
    (model_path model_id question_file : string)
    (question_begin question_end : option Z) (answer_file : string)
    (max_new_token num_choices num_gpus_per_model num_gpus_total : Z)
    (max_gpu_memory dtype : option string) (revision : string)
    (questions : list json) :
  (∀ use_ray chunks,
     split_questions questions num_gpus_per_model num_gpus_total
       = Ok (use_ray, chunks) →
     num_gpus_per_model ≠ 0
     ∧ num_gpus_total mod num_gpus_per_model = 0
     ∧ num_gpus_total / num_gpus_per_model ≤ Z.of_nat (length questions))
  ∧ (num_gpus_per_model ≠ 0 →
     num_gpus_total mod num_gpus_per_model ≠ 0 →
     split_questions questions num_gpus_per_model num_gpus_total
       = Raise AssertionError)
  ∧ (num_gpus_per_model ≠ 0 →
     num_gpus_total mod num_gpus_per_model = 0 →
     Z.of_nat (length questions) < num_gpus_total / num_gpus_per_model →
     Z.of_nat (length questions) / (num_gpus_total / num_gpus_per_model) = 0
     ∧ split_questions questions num_gpus_per_model num_gpus_total
       = Raise ValueError)
  ∧ (∀ e w,
       load_questions E question_file question_begin question_end = Ok questions →
       split_questions questions num_gpus_per_model num_gpus_total = Raise e →
       run_eval E model_path model_id question_file question_begin question_end
         answer_file max_new_token num_choices num_gpus_per_model num_gpus_total
         max_gpu_memory dtype revision w = (Raise e, w)).
Proof.
  split; [|split; [|split]].
  - intros use_ray chunks. unfold split_questions, py_mod, py_floordiv.
    destruct (decide (num_gpus_per_model = 0)) as [|Hper]; [done|].
    cbn [mbind result_bind].
    destruct (decide (num_gpus_total mod num_gpus_per_model = 0)) as [Hmod|]; [|done].
    destruct (decide (num_gpus_total / num_gpus_per_model = 0)) as [|Hgroups];
      [done|].
    cbn [mbind result_bind]. unfold py_range.
    destruct (decide (Z.of_nat (length questions)
                      / (num_gpus_total / num_gpus_per_model) = 0))
      as [|Hchunk]; [done|].
    intros _. split; [done|]. split; [done|].
    destruct (decide (Z.of_nat (length questions)
                      < num_gpus_total / num_gpus_per_model)) as [Hfew|]; [|lia].
    destruct Hchunk. apply Z.div_small. lia.
  - intros Hper Hmod. unfold split_questions, py_mod.
    rewrite decide_False by done. cbn [mbind result_bind].
    by rewrite decide_False by done.
  - intros Hper Hmod Hfew.
    assert (Z.of_nat (length questions) / (num_gpus_total / num_gpus_per_model) = 0)
      as Hchunk by (apply Z.div_small; lia).
    split; [done|]. unfold split_questions, py_mod, py_floordiv.
    rewrite !(decide_False (P := num_gpus_per_model = 0)) by done.
    cbn [mbind result_bind]. rewrite decide_True by done.
    rewrite !(decide_False (P := num_gpus_total / num_gpus_per_model = 0)) by lia.
    cbn [mbind result_bind]. unfold py_range. rewrite Hchunk.
    by rewrite decide_True by done.
  - intros e w Hload Hsplit. unfold run_eval.
    by rewrite bind_lift, Hload, bind_lift, Hsplit.
Qed.

Lemma run_eval_preconditions_witness :
  Z.of_nat (length Demo.questions) / (4 / 1) = 0
  ∧ split_questions Demo.questions 1 4 = Raise ValueError.
Proof.
  apply (proj1 (proj2 (proj2
           (run_eval_preconditions (Demo.env Demo.echo_model) "demo-path" "demo"
              "data/mt_bench/question.jsonl" None None "out.jsonl" 1024 1 1 4
              None None "main" Demo.questions)))).
  - lia.
  - reflexivity.
  - reflexivity.
Defined.

(** * Further properties of the script *)

(** ** Post-processing of a completion (lines 184-226) *)

(** The first index at which a stop token occurs, counted from [n]. *)
Lemma first_stop_index (ids l : list Z) (n : nat) :
  match omap (λ p : nat * Z,
                if bool_decide (p.2 ∈ ids) then Some (Z.of_nat p.1) else None)
             (imap (λ k x, ((n + k)%nat, x)) l) with
  | [] => Forall (λ x, x ∉ ids) l
  | i :: _ =>
      ∃ (k : nat) x,
        i = Z.of_nat (n + k) ∧ l !! k = Some x ∧ x ∈ ids
        ∧ Forall (λ y, y ∉ ids) (take k l)
  end.
Proof.
  revert n. induction l as [|x l IH]; intros n; [by constructor|].
  rewrite imap_cons. cbn [omap list_omap]. cbn [snd fst].
  rewrite (imap_ext _ (λ k y, ((S n + k)%nat, y))) by (intros; simpl; f_equal; lia).
  specialize (IH (S n)).
  case_bool_decide as Hx.
  - exists 0%nat, x. rewrite Nat.add_0_r. by repeat split.
  - destruct (omap _ (imap _ l)) as [|i rest].
    + by constructor.
    + destruct IH as (k & y & -> & Hk & Hy & Hbefore).
      exists (S k), y. split; [f_equal; lia|]. split; [done|]. split; [done|].
      by constructor.
Qed.

Lemma py_slice_0 {A} (l : list A) (k : nat) :
  (k ≤ length l)%nat → py_slice l 0 (Z.of_nat k) = take k l.
Proof.
  intros Hk. unfold py_slice, clamp_index.
  rewrite !decide_False by lia.
  rewrite (Z.min_l 0) by lia. rewrite (Z.min_l (Z.of_nat k)) by lia.
  simpl. rewrite drop_0. f_equal. lia.
Qed.

(** X1: the stop-token step returns the generated ids up to, and without,
    the first id that is a stop token of the template: what it returns is
    a prefix of the generated ids, holds no stop token, and what it drops,
    if anything, starts with a stop token. *)
Theorem truncate_at_stop_token_prefix (stop_ids : option (list Z))
    (output_ids : list Z) :
  ∃ rest,
    output_ids = truncate_at_stop_token stop_ids output_ids ++ rest
    ∧ (∀ ids x, stop_ids = Some ids →
         x ∈ truncate_at_stop_token stop_ids output_ids → x ∉ ids)
    ∧ match rest with
      | [] => True
      | x :: _ => ∃ ids, stop_ids = Some ids ∧ x ∈ ids
      end.
Proof.
  destruct stop_ids as [[|id ids]|].
  - exists []. rewrite app_nil_r. split; [done|]. split; [|done].
    intros ids x [= <-] _. apply not_elem_of_nil.
  - unfold truncate_at_stop_token.
    pose proof (first_stop_index (id :: ids) output_ids 0) as Hfirst.
    change (imap (λ k x, ((0 + k)%nat, x)) output_ids) with (imap pair output_ids)
      in Hfirst.
    destruct (omap _ (imap pair output_ids)) as [|i others].
    + exists []. rewrite app_nil_r. split; [done|]. split; [|done].
      intros ids' x [= <-] Hx. by eapply Forall_forall in Hfirst.
    + destruct Hfirst as (k & x & -> & Hk & Hx & Hbefore). simpl.
      rewrite py_slice_0 by (apply lookup_lt_Some in Hk; lia).
      exists (drop k output_ids). split; [by rewrite take_drop|]. split.
      * intros ids' y [= <-] Hy. by eapply Forall_forall in Hbefore.
      * rewrite (drop_S _ _ _ Hk). eauto.
  - exists []. rewrite app_nil_r. split; [done|]. split; [|done].
    intros ids x [=].
Qed.

Lemma str_take_drop (k : nat) (s : string) :
  (str_take k s ++ str_drop k s)%string = s.
Proof.
  revert s. induction k as [|k IH]; intros [|c s]; simpl; [done..|].
  change (String c (str_take k s +:+ str_drop k s) = String c s).
  by rewrite IH.
Qed.

Lemma str_take_nonempty (k : nat) (s : string) :
  (0 < k)%nat → s ≠ EmptyString → str_take k s ≠ EmptyString.
Proof.
  intros Hk Hs. destruct k as [|k]; [lia|]. destruct s as [|c s]; [done|].
  simpl. discriminate.
Qed.

Lemma str_slice_to_positive (output : string) (i : Z) :
  0 < i →
  ∃ rest, output = (str_slice_to output i ++ rest)%string
          ∧ (output ≠ EmptyString → str_slice_to output i ≠ EmptyString).
Proof.
  intros Hi. unfold str_slice_to. eexists. split; [by rewrite str_take_drop|].
  intros Hne. apply str_take_nonempty; [|done].
  unfold clamp_index. rewrite decide_False by lia.
  destruct output; [done|]. simpl String.length. lia.
Qed.

(** X2: the stop-string step returns a prefix of the decoded output, and
    never the empty string for a non-empty output: a cut is made at a
    positive index only. *)
Theorem truncate_at_stop_str_prefix (stop : stop_str_t) (output : string) :
  ∃ rest,
    output = (truncate_at_stop_str stop output ++ rest)%string
    ∧ (output ≠ EmptyString → truncate_at_stop_str stop output ≠ EmptyString).
Proof.
  assert (∃ rest, output = (output ++ rest)%string
                  ∧ (output ≠ EmptyString → output ≠ EmptyString)) as Hsame.
  { exists EmptyString. split; [|done]. clear.
    induction output as [|c output IH]; [done|].
    change (String c output = String c (output +:+ EmptyString)). by rewrite <- IH. }
  destruct stop as [|[|c s]|[|s0 l]]; try done.
  - unfold truncate_at_stop_str. case_bool_decide; [|done].
    by apply str_slice_to_positive.
  - unfold truncate_at_stop_str.
    pose proof (merge_sort_head
      (omap (λ s, if bool_decide (0 < str_find output s)
                  then Some (str_find output s) else None) (s0 :: l))) as Hhead.
    destruct (merge_sort Z.le _) as [|i others]; [done|].
    destruct Hhead as [(s & _ & _ & Hpos)%elem_of_positive_finds _].
    by apply str_slice_to_positive.
Qed.

(** [strip] at work: what [lstrip] returns does not start with white
    space, [rstrip] keeps that, and stripping twice changes nothing. *)
Lemma str_lstrip_first (s : string) :
  match str_lstrip s with
  | String c _ => is_space c = false
  | EmptyString => True
  end.
Proof.
  induction s as [|c s IH]; [done|]. simpl.
  destruct (is_space c) eqn:Hc; [done|]. by rewrite Hc.
Qed.

Lemma str_lstrip_id (s : string) :
  match s with String c _ => is_space c = false | EmptyString => True end →
  str_lstrip s = s.
Proof. destruct s as [|c s]; [done|]. simpl. by intros ->. Qed.

Lemma str_rstrip_first (s : string) :
  match s with String c _ => is_space c = false | EmptyString => True end →
  match str_rstrip s with
  | String c _ => is_space c = false
  | EmptyString => True
  end.
Proof.
  destruct s as [|c s]; [done|]. intros Hc. simpl.
  destruct (str_rstrip s); [by rewrite Hc|done].
Qed.

Lemma str_rstrip_idemp (s : string) : str_rstrip (str_rstrip s) = str_rstrip s.
Proof.
  induction s as [|c s IH]; [done|]. simpl.
  destruct (str_rstrip s) as [|d r] eqn:Hr.
  - destruct (is_space c) eqn:Hc; [done|]. simpl. by rewrite Hc.
  - simpl. simpl in IH. by rewrite IH.
Qed.

Lemma str_strip_idemp (s : string) : str_strip (str_strip s) = str_strip s.
Proof.
  unfold str_strip.
  rewrite (str_lstrip_id (str_rstrip (str_lstrip s)))
    by apply str_rstrip_first, str_lstrip_first.
  apply str_rstrip_idemp.
Qed.

(** X3: a turn that returns has recorded one completion, and that
    completion has no white space at either end, whether it was sampled or
    is the sentinel of a failed sampling: stripping it changes nothing. *)
Theorem completion_is_stripped (E : environment) (model : model_t)
    (tokenizer : tokenizer_t) (max_new_token : Z) (question : json)
    (temperature : pyfloat) (conv : conversation) (turns : list string) (j : Z)
    (w : world) (conv' : conversation) (turns' : list string) (w' : world) :
  answer_turn E model tokenizer max_new_token question temperature
              (conv, turns) j w = (Ok (conv', turns'), w') →
  ∃ output, turns' = turns ++ [output] ∧ str_strip output = output.
Proof.
  unfold answer_turn. intros H.
  apply bind_ok_inv in H as (setup & w1 & _ & H).
  apply bind_ok_inv in H as (output & w2 & Htry & H).
  apply bind_ok_inv in H as (? & ? & _ & H).
  injection H as <- <- <-. exists output. split; [done|].
  unfold try_except_RuntimeError in Htry.
  destruct (sample _ _ _ _ _ _ _ _ w1) as [[out|e] v] eqn:Hsample.
  - injection Htry as <- <-. unfold sample in Hsample.
    apply bind_ok_inv in Hsample as (? & ? & _ & Hsample).
    apply bind_ok_inv in Hsample as (? & ? & _ & Hsample).
    apply bind_ok_inv in Hsample as (? & ? & _ & Hsample).
    apply bind_ok_inv in Hsample as (decoded & ? & _ & Hsample).
    cbn zeta in Hsample.
    apply bind_ok_inv in Hsample as (? & ? & _ & Hsample).
    apply bind_ok_inv in Hsample as (? & ? & _ & Hsample).
    injection Hsample as <- _. unfold strip_xgen_prefix.
    destruct (_ && _); apply str_strip_idemp.
  - destruct (issubclass e RuntimeError); [|done].
    unfold on_runtime_error in Htry.
    apply bind_ok_inv in Htry as (? & ? & _ & Htry).
    apply bind_ok_inv in Htry as (? & ? & _ & Htry).
    apply bind_ok_inv in Htry as (? & ? & _ & Htry).
    by injection Htry as <- _.
Qed.

Lemma completion_is_stripped_witness :
  ∃ conv' w' output,
    answer_turn (Demo.env Demo.echo_model) Demo.echo_model Demo.tokenizer 1024
      (JDict [("question_id"%string, JInt 82); ("category"%string, JStr "math");
              ("turns"%string, JList [JStr "1+1?"])])
      (Finite 0) (Demo.template, []) 0 Demo.world0 = (Ok (conv', [output]), w')
    ∧ str_strip output = output.
Proof.
  destruct (answer_turn (Demo.env Demo.echo_model) Demo.echo_model Demo.tokenizer
              1024
              (JDict [("question_id"%string, JInt 82); ("category"%string, JStr "math");
                      ("turns"%string, JList [JStr "1+1?"])])
              (Finite 0) (Demo.template, []) 0 Demo.world0)
    as [[[conv' turns']|e] w'] eqn:Hrun.
  - destruct (completion_is_stripped _ _ _ _ _ _ _ _ _ _ _ _ _ Hrun)
      as (output & -> & Hstripped).
    by exists conv', w', output.
  - vm_compute in Hrun. discriminate Hrun.
Defined.

(** ** More on [reorg_answer_file] (lines 253-264) *)

(** A dictionary is only built when every line has an integer id. *)
Lemma collect_answers_ok_inv (E : environment) (lines : list string)
    (answers answers' : gmap Z string) :
  collect_answers E answers lines = Ok answers' →
  Forall (λ l, is_ok (line_question_id E l) = true) lines.
Proof.
  revert answers. induction lines as [|l lines IH]; intros answers; [by constructor|].
  simpl. destruct (line_question_id E l) as [q|e] eqn:Hq; [|done].
  cbn [mbind result_bind]. intros Hrest. constructor; [by rewrite Hq|by eapply IH].
Qed.

(** Building the dictionary stops at the first line without an integer
    id, with the exception of that line. *)
Lemma collect_answers_raise_inv (E : environment) (lines : list string)
    (answers : gmap Z string) (e : exc_class) :
  collect_answers E answers lines = Raise e →
  ∃ before l after,
    lines = before ++ l :: after
    ∧ Forall (λ l, is_ok (line_question_id E l) = true) before
    ∧ line_question_id E l = Raise e.
Proof.
  revert answers. induction lines as [|l lines IH]; intros answers; [done|].
  simpl. destruct (line_question_id E l) as [q|e'] eqn:Hq.
  - cbn [mbind result_bind]. intros Hrest.
    destruct (IH _ Hrest) as (before & l' & after & -> & Hbefore & Hl').
    exists (l :: before), l', after. split; [done|]. split; [|done].
    constructor; [by rewrite Hq|done].
  - intros [= ->]. by exists [], l, lines.
Qed.

(** An entry of the dictionary is the last line with its id. *)
Lemma collect_answers_last (E : environment) (lines : list string)
    (answers answers' : gmap Z string) (q : Z) (l : string) :
  collect_answers E answers lines = Ok answers' →
  answers' !! q = Some l →
  (answers !! q = Some l
   ∧ Forall (λ l', line_question_id E l' ≠ Ok q) lines)
  ∨ (∃ before after,
       lines = before ++ l :: after
       ∧ line_question_id E l = Ok q
       ∧ Forall (λ l', line_question_id E l' ≠ Ok q) after).
Proof.
  revert answers. induction lines as [|l0 lines IH]; intros answers.
  - intros [= <-] Hl. left. by split.
  - simpl. destruct (line_question_id E l0) as [q0|e] eqn:Hq0; [|done].
    cbn [mbind result_bind]. intros Hrest Hl.
    destruct (IH _ Hrest Hl) as [[Hins Hnone]|(before & after & -> & Hq & Hafter)].
    + destruct (decide (q0 = q)) as [->|Hne].
      * rewrite lookup_insert_eq in Hins. injection Hins as ->.
        right. by exists [], lines.
      * rewrite lookup_insert_ne in Hins by done. left. split; [done|].
        constructor; [|done]. rewrite Hq0. congruence.
    + right. by exists (l0 :: before), after.
Qed.

(** What a call that returns has done. *)
Lemma reorg_answer_file_ok_inv (E : environment) (answer_file : string)
    (w w' : world) :
  reorg_answer_file E answer_file w = (Ok (), w') →
  ∃ lines answers out,
    files w !! answer_file = Some lines
    ∧ collect_answers E ∅ lines = Ok answers
    ∧ Forall2 (λ q l, answers !! q = Some l) (sorted_keys answers) out
    ∧ w' = set_files (<[answer_file := out]> (files w)) w.
Proof.
  unfold reorg_answer_file, read_lines, open_write. intros H.
  apply bind_ok_inv in H as (lines & w1 & Hread & H).
  apply bind_ok_inv in Hread as ([] & ? & [Hopen ->]%lift_ok_inv & Hread).
  destruct (files w !! answer_file) as [lines'|] eqn:Hfile; [|done].
  injection Hread as <- <-.
  apply bind_ok_inv in H as (answers & ? & [Hcollect ->]%lift_ok_inv & H).
  apply bind_ok_inv in H as ([] & w2 & Hopenw & H).
  apply bind_ok_inv in Hopenw as ([] & ? & [_ ->]%lift_ok_inv & Hopenw).
  unfold modify in Hopenw. injection Hopenw as <-.
  destruct (write_back_spec answers answer_file (sorted_keys answers) []
              (set_files (<[answer_file := []]> (files w)) w))
    as (out & Hout & Hrun).
  { by rewrite files_set_files, lookup_insert_eq. }
  { intros q Hq. by apply elem_of_sorted_keys. }
  rewrite Hrun in H. injection H as <-.
  exists lines', answers, out. split; [done|]. split; [done|]. split; [done|].
  by rewrite set_files_set_files, insert_insert_eq.
Qed.



(** The dictionary read back from a rewritten file is the dictionary it
    was written from. *)
Lemma collect_answers_reread (E : environment) (lines out : list string)
    (answers : gmap Z string) :
  collect_answers E ∅ lines = Ok answers →
  Forall2 (λ q l, answers !! q = Some l) (sorted_keys answers) out →
  collect_answers E ∅ out = Ok answers.
Proof.
  intros Hcollect Hout.
  pose proof (collect_answers_ok_inv _ _ _ _ Hcollect) as Hparse.
  destruct (collect_answers_spec E lines ∅ Hparse)
    as (answers0 & Hcollect0 & Hfrom & _ & _).
  rewrite Hcollect in Hcollect0. injection Hcollect0 as <-.
  assert (∀ q l, answers !! q = Some l → line_question_id E l = Ok q) as Hid.
  { intros q l Hl. destruct (Hfrom q l Hl) as [Hempty|[_ ?]]; [|done].
    by rewrite lookup_empty in Hempty. }
  assert (Forall (λ l, is_ok (line_question_id E l) = true) out) as Hparse'.
  { apply Forall_forall. intros l [i Hi]%list_elem_of_lookup_1.
    destruct (Forall2_lookup_r _ _ _ _ _ Hout Hi) as (q & _ & Hq).
    by rewrite (Hid q l Hq). }
  destruct (collect_answers_spec E out ∅ Hparse')
    as (answers' & Hcollect' & Hfrom' & _ & Hall').
  rewrite Hcollect'. f_equal. apply map_eq. intros q.
  assert (∀ l, answers' !! q = Some l → answers !! q = Some l) as Hback.
  { intros l Hl. destruct (Hfrom' q l Hl) as [Hempty|[Hin Hq]].
    - by rewrite lookup_empty in Hempty.
    - apply (list_elem_of_lookup_1 out) in Hin as [i Hi].
      destruct (Forall2_lookup_r _ _ _ _ _ Hout Hi) as (q' & _ & Hq').
      pose proof (Hid q' l Hq') as Hq''. rewrite Hq in Hq''. by injection Hq'' as ->. }
  destruct (answers' !! q) as [l|] eqn:Hl.
  - symmetry. by apply Hback.
  - destruct (answers !! q) as [l|] eqn:Hl0; [|done].
    assert (q ∈ sorted_keys answers) as [i Hi]%list_elem_of_lookup_1
      by (apply elem_of_sorted_keys; eauto).
    destruct (Forall2_lookup_l _ _ _ _ _ Hout Hi) as (l' & Hl' & Hq').
    destruct (Hall' l' q) as [l'' Hl''].
    + by eapply list_elem_of_lookup_2.
    + by apply Hid.
    + by rewrite Hl in Hl''.
Qed.







(** ** More on the sharding of [run_eval] (lines 66-100) *)

(** The chunks, written out: [ceil(n / c)] consecutive pieces of width
    [c = n // groups]. *)
Lemma split_questions_chunks {A} (questions : list A) (per total : Z) :
  per ≠ 0 → total mod per = 0 →
  0 < total / per ≤ Z.of_nat (length questions) →
  let n := Z.of_nat (length questions) in
  let c := n / (total / per) in
  0 < c
  ∧ split_questions questions per total =
    Ok (bool_decide (1 < total / per),
        map (λ k : nat, take (Z.to_nat c) (drop (k * Z.to_nat c) questions))
            (seq 0 (Z.to_nat ((n + c - 1) / c)))).
Proof.
  intros Hper Hmod Hg n c.
  assert (0 < c) as Hc by (apply Z.div_str_pos; lia).
  split; [done|].
  rewrite split_questions_ok by (fold n; fold c; done || lia).
  fold n. fold c. unfold py_range.
  rewrite decide_False by lia. rewrite decide_True by done.
  rewrite decide_True by lia. cbn [mbind result_bind]. do 2 f_equal.
  rewrite map_map. replace (n - 0 + c - 1) with (n + c - 1) by lia.
  apply map_ext. intros k. rewrite py_slice_chunk by lia. do 2 f_equal. lia.
Qed.

(** The last chunk starts inside the list. *)
Lemma last_chunk_start (n c : Z) (k : nat) :
  0 < c → (k < Z.to_nat ((n + c - 1) / c))%nat → Z.of_nat k * c < n.
Proof.
  intros Hc Hk.
  assert (Z.of_nat k + 1 ≤ (n + c - 1) / c) as Hle by lia.
  pose proof (Z.mul_div_le (n + c - 1) c Hc). nia.
Qed.

(** X8: with a positive number of groups and at least as many questions,
    [run_eval] hands every question to exactly one worker, in order: the
    chunks put the question list together again, no chunk is empty or
    longer than [len(questions) // groups], and there are at least as many
    chunks as groups. *)
Theorem split_questions_partition {A} (questions : list A) (per total : Z) :
  per ≠ 0 → total mod per = 0 →
  0 < total / per ≤ Z.of_nat (length questions) →
  ∃ chunks,
    split_questions questions per total = Ok (bool_decide (1 < total / per), chunks)
    ∧ concat chunks = questions
    ∧ Forall (λ chunk, 0 < Z.of_nat (length chunk)
                       ≤ Z.of_nat (length questions) / (total / per)) chunks
    ∧ total / per ≤ Z.of_nat (length chunks).
Proof.
  intros Hper Hmod Hg.
  destruct (split_questions_chunks questions per total Hper Hmod Hg) as [Hc Hsplit].
  set (n := Z.of_nat (length questions)) in *. set (c := n / (total / per)) in *.
  eexists. split; [exact Hsplit|]. split; [|split].
  - eapply split_questions_cover; [|exact Hsplit]. lia.
  - apply Forall_forall. intros chunk [k [-> Hk]]%list_elem_of_fmap.
    apply elem_of_seq in Hk as [_ Hk]. simpl in Hk.
    pose proof (last_chunk_start n c k Hc Hk) as Hstart.
    rewrite length_take, length_drop. unfold n in *. nia.
  - rewrite length_map, length_seq.
    assert (total / per ≤ (n + c - 1) / c); [|lia].
    apply Z.div_le_lower_bound; [lia|].
    pose proof (Z.mul_div_le n (total / per)). fold c in H. nia.
Qed.

Lemma split_questions_partition_witness :
  ∃ chunks,
    split_questions (seq 0 80) 1 3 = Ok (bool_decide (1 < 3 / 1), chunks)
    ∧ concat chunks = seq 0 80
    ∧ Forall (λ chunk, 0 < Z.of_nat (length chunk)
                       ≤ Z.of_nat (length (seq 0 80)) / (3 / 1)) chunks
    ∧ 3 / 1 ≤ Z.of_nat (length chunks).
Proof.
  apply (split_questions_partition (seq 0 80) 1 3).
  - lia.
  - reflexivity.
  - vm_compute. split; [reflexivity|]. intros H. discriminate H.
Defined.

(** X9: when the number of groups divides the number of questions, the
    questions are split into exactly that many chunks, all of the same
    length [len(questions) // groups]. *)
Theorem split_questions_even {A} (questions : list A) (per total : Z) :
  per ≠ 0 → total mod per = 0 →
  0 < total / per ≤ Z.of_nat (length questions) →
  Z.of_nat (length questions) mod (total / per) = 0 →
  ∃ chunks,
    split_questions questions per total = Ok (bool_decide (1 < total / per), chunks)
    ∧ Z.of_nat (length chunks) = total / per
    ∧ Forall (λ chunk, Z.of_nat (length chunk)
                       = Z.of_nat (length questions) / (total / per)) chunks.
Proof.
  intros Hper Hmod Hg Heven.
  destruct (split_questions_chunks questions per total Hper Hmod Hg) as [Hc Hsplit].
  set (n := Z.of_nat (length questions)) in *. set (c := n / (total / per)) in *.
  assert (n = total / per * c) as Hn.
  { pose proof (Z.div_mod n (total / per)). fold c in H. lia. }
  assert ((n + c - 1) / c = total / per) as Hcount.
  { symmetry. apply Z.div_unique with (r := c - 1); lia. }
  eexists. split; [exact Hsplit|]. split.
  - rewrite length_map, length_seq, Hcount. lia.
  - apply Forall_forall. intros chunk [k [-> Hk]]%list_elem_of_fmap.
    apply elem_of_seq in Hk as [_ Hk]. simpl in Hk. rewrite Hcount in Hk.
    rewrite length_take, length_drop. unfold n in *. nia.
Qed.

Lemma split_questions_even_witness :
  ∃ chunks,
    split_questions (seq 0 80) 2 8 = Ok (bool_decide (1 < 8 / 2), chunks)
    ∧ Z.of_nat (length chunks) = 8 / 2
    ∧ Forall (λ chunk, Z.of_nat (length chunk)
                       = Z.of_nat (length (seq 0 80)) / (8 / 2)) chunks.
Proof.
  apply (split_questions_even (seq 0 80) 2 8).
  - lia.
  - reflexivity.
  - vm_compute. split; [reflexivity|]. intros H. discriminate H.
  - reflexivity.
Defined.

(** One group: a single chunk, the whole list, and no ray. *)
Lemma split_questions_one_group {A} (questions : list A) (per : Z) :
  questions ≠ [] → per ≠ 0 →
  split_questions questions per per = Ok (false, [questions]).
Proof.
  intros Hne Hper.
  assert (per / per = 1) as Hg by (by apply Z.div_same).
  assert (0 < Z.of_nat (length questions)) as Hn
    by (destruct questions; simpl; done || lia).
  destruct (split_questions_chunks questions per per)
    as [_ Hsplit]; [done|by apply Z_mod_same_full|lia|].
  rewrite Hg, Z.div_1_r in Hsplit.
  replace ((Z.of_nat (length questions) + Z.of_nat (length questions) - 1)
           / Z.of_nat (length questions)) with 1 in Hsplit
    by (apply Z.div_unique with (r := Z.of_nat (length questions) - 1); lia).
  change (Z.to_nat 1) with 1%nat in Hsplit. cbn [seq map] in Hsplit.
  rewrite Nat.mul_0_l, drop_0, take_ge in Hsplit by lia.
  by rewrite Hsplit, bool_decide_eq_false_2 by lia.
Qed.

(** Without ray a single chunk is answered by a direct call. *)
Lemma dispatch_one_chunk (E : environment) (model_path model_id answer_file : string)
    (max_new_token num_choices num_gpus_per_model : Z)
    (max_gpu_memory dtype : option string) (revision : string)
    (chunk : list json) (w : world) :
  dispatch E model_path model_id answer_file max_new_token num_choices
    num_gpus_per_model max_gpu_memory dtype revision false [chunk] w
  = get_model_answers E model_path model_id chunk answer_file max_new_token
      num_choices num_gpus_per_model max_gpu_memory dtype revision w.
Proof.
  unfold dispatch. cbn [for_each]. rewrite !bind_unfold.
  by destruct (get_model_answers _ _ _ _ _ _ _ _ _ _ _ w) as [[[]|e] w1].
Qed.

(** X10: with one group (the default: one GPU per model, one GPU in
    total) and a non-empty question list, [run_eval] is one direct call of
    [get_model_answers] on the whole list: same outcome, same world. *)
Theorem run_eval_single_group (E : environment)
    (model_path model_id question_file : string)
    (question_begin question_end : option Z) (answer_file : string)
    (max_new_token num_choices num_gpus_per_model num_gpus_total : Z)
    (max_gpu_memory dtype : option string) (revision : string)
    (questions : list json) (w : world) :
  load_questions E question_file question_begin question_end = Ok questions →
  questions ≠ [] →
  num_gpus_per_model ≠ 0 →
  num_gpus_total = num_gpus_per_model →
  run_eval E model_path model_id question_file question_begin question_end
    answer_file max_new_token num_choices num_gpus_per_model num_gpus_total
    max_gpu_memory dtype revision w
  = get_model_answers E model_path model_id questions answer_file max_new_token
      num_choices num_gpus_per_model max_gpu_memory dtype revision w.
Proof.
  intros Hload Hne Hper ->. unfold run_eval.
  rewrite bind_lift, Hload, bind_lift, split_questions_one_group by done.
  cbn [fst snd]. apply dispatch_one_chunk.
Qed.

Lemma run_eval_single_group_witness :
  run_eval (Demo.env Demo.echo_model) "demo-path" "demo" "q.jsonl" None None
    "out.jsonl" 1024 2 1 1 None None "main" Demo.world0
  = get_model_answers (Demo.env Demo.echo_model) "demo-path" "demo" Demo.questions
      "out.jsonl" 1024 2 1 None None "main" Demo.world0.
Proof.
  apply (run_eval_single_group (Demo.env Demo.echo_model) "demo-path" "demo"
           "q.jsonl" None None "out.jsonl" 1024 2 1 1 None None "main"
           Demo.questions Demo.world0).
  - reflexivity.
  - discriminate.
  - lia.
  - reflexivity.
Defined.

(** X11: a negative number of groups passes the assertion of [run_eval]
    (the remainder is still 0); the chunk size is then negative, the range
    of chunk starts is empty, and [run_eval] returns without having loaded
    a model, answered a question or touched a file. *)
Theorem run_eval_negative_groups (E : environment)
    (model_path model_id question_file : string)
    (question_begin question_end : option Z) (answer_file : string)
    (max_new_token num_choices num_gpus_per_model num_gpus_total : Z)
    (max_gpu_memory dtype : option string) (revision : string)
    (questions : list json) (w : world) :
  load_questions E question_file question_begin question_end = Ok questions →
  questions ≠ [] →
  num_gpus_per_model ≠ 0 →
  num_gpus_total mod num_gpus_per_model = 0 →
  num_gpus_total / num_gpus_per_model < 0 →
  run_eval E model_path model_id question_file question_begin question_end
    answer_file max_new_token num_choices num_gpus_per_model num_gpus_total
    max_gpu_memory dtype revision w = (Ok (), w).
Proof.
  intros Hload Hne Hper Hmod Hg.
  assert (0 < Z.of_nat (length questions)) as Hn by (destruct questions; simpl; done || lia).
  set (n := Z.of_nat (length questions)) in *.
  set (g := num_gpus_total / num_gpus_per_model) in *.
  assert (n / g < 0) as Hc.
  { pose proof (Z.div_mod n g). pose proof (Z.mod_neg_bound n g Hg). nia. }
  unfold run_eval. rewrite bind_lift, Hload, bind_lift.
  rewrite split_questions_ok by (fold n; fold g; done || lia).
  fold n. fold g. unfold py_range.
  rewrite decide_False by lia. rewrite (decide_False (P := 0 < n / g)) by lia.
  rewrite (decide_False (P := n < 0)) by lia. cbn [mbind result_bind map fst snd].
  by rewrite bool_decide_eq_false_2 by lia.
Qed.

Lemma run_eval_negative_groups_witness :
  run_eval (Demo.env Demo.echo_model) "demo-path" "demo" "q.jsonl" None None
    "out.jsonl" 1024 2 1 (-2) None None "main" Demo.world0 = (Ok (), Demo.world0).
Proof.
  apply (run_eval_negative_groups (Demo.env Demo.echo_model) "demo-path" "demo"
           "q.jsonl" None None "out.jsonl" 1024 2 1 (-2) None None "main"
           Demo.questions Demo.world0).
  - reflexivity.
  - discriminate.
  - lia.
  - reflexivity.
  - reflexivity.
Defined.

(** ** When the logits processor raises (lines 40-49) *)

(** X12: the call of the logits processor raises in three cases only, all
    of them on a sequence longer than [base_len]: an [IndexError] when
    [eos_token_id] is not an index of a score row (negative indices count
    from the end); otherwise a [RuntimeError] when the sequence has no
    token or exactly two, where the slice of the last three columns cannot
    be compared with the three stop tokens; otherwise an [IndexError] when
    the scores do not have one row per sequence. *)
Theorem call_raises_iff (self : StopAfterEosTextGenerated.t)
    (ids : tensor Z) (scores : tensor pyfloat) (e : exc_class) :
  StopAfterEosTextGenerated.call self ids scores = Raise e
  ↔ StopAfterEosTextGenerated.base_len self < Z.of_nat (size1 ids)
    ∧ ((¬ (- Z.of_nat (size1 scores) ≤ StopAfterEosTextGenerated.eos_token_id self
           < Z.of_nat (size1 scores))
        ∧ e = IndexError)
       ∨ (- Z.of_nat (size1 scores) ≤ StopAfterEosTextGenerated.eos_token_id self
            < Z.of_nat (size1 scores)
          ∧ (size1 ids = 0%nat ∨ size1 ids = 2%nat)
          ∧ e = RuntimeError)
       ∨ (- Z.of_nat (size1 scores) ≤ StopAfterEosTextGenerated.eos_token_id self
            < Z.of_nat (size1 scores)
          ∧ size1 ids ≠ 0%nat ∧ size1 ids ≠ 2%nat
          ∧ size0 ids ≠ size0 scores
          ∧ e = IndexError)).
Proof.
  unfold StopAfterEosTextGenerated.call, py_setitem. rewrite length_replicate.
  set (V := Z.of_nat (size1 scores)).
  set (eos := StopAfterEosTextGenerated.eos_token_id self).
  destruct (decide (StopAfterEosTextGenerated.base_len self < Z.of_nat (size1 ids)))
    as [Hlong|Hshort]; [|split; [done|by intros [? _]]].
  destruct (decide (0 ≤ (if decide (eos < 0) then eos + V else eos) < V))
    as [Hin|Hout]; cbn [mbind result_bind].
  2: { assert (¬ (- V ≤ eos < V)) by (case_decide; lia).
       split; [intros [= <-]; split; [done|]; left; split; [assumption|reflexivity]|].
       intros [_ [[_ ->]|[[? _]|[? _]]]]; done. }
  assert (- V ≤ eos < V) as Heos by (case_decide; lia).
  unfold eq_all_dim1, masked_assign. cbn [size1 last_columns rows].
  change (length StopAfterEosTextGenerated.stop_token_ids) with 3%nat.
  destruct (decide (size1 ids = 0%nat ∨ size1 ids = 2%nat)) as [Hbad|Hgood].
  - assert (Nat.min 3 (size1 ids) ≠ 3%nat ∧ Nat.min 3 (size1 ids) ≠ 1%nat)
      as [H3 H1] by lia.
    rewrite (decide_False (P := Nat.min 3 (size1 ids) = 3%nat)) by done.
    rewrite (decide_False (P := Nat.min 3 (size1 ids) = 1%nat)) by done.
    rewrite (decide_False (P := 3%nat = 1%nat)) by done. cbn [mbind result_bind].
    split.
    { intros [= <-]. split; [done|]. right. left.
      split; [assumption|split; [assumption|reflexivity]]. }
    intros [_ [[? _]|[(_ & _ & ->)|(_ & ? & ? & _)]]]; done || lia.
  - destruct (decide (Nat.min 3 (size1 ids) = 3%nat)) as [H3|H3];
      [|rewrite (decide_True (P := Nat.min 3 (size1 ids) = 1%nat)) by lia];
      cbn [mbind result_bind]; rewrite !length_map; fold (size0 ids);
      (destruct (decide (size0 ids = size0 scores)) as [Hrows|Hrows];
       [split; [done|];
        intros [_ [[? _]|[(_ & ? & _)|(_ & _ & _ & ? & _)]]]; done
       |split;
        [intros [= <-]; split; [done|]; right; right; repeat split; assumption || lia
        |intros [_ [[? _]|[(_ & ? & _)|(_ & _ & _ & _ & ->)]]]; done]]).
Qed.

(** ** The conversation of a choice (lines 140-236) *)

(** X13: a turn that returns has extended the conversation by exactly two
    messages: the question of the turn under the first role and the
    completion just recorded under the second; name, roles, stop string
    and stop tokens of the template are kept.  So the prompt of a later
    turn holds the questions and completions of the turns before it. *)
Theorem answer_turn_history (E : environment) (model : model_t)
    (tokenizer : tokenizer_t) (max_new_token : Z) (question : json)
    (temperature : pyfloat) (conv : conversation) (turns : list string) (j : Z)
    (w : world) (conv' : conversation) (turns' : list string) (w' : world) :
  answer_turn E model tokenizer max_new_token question temperature
              (conv, turns) j w = (Ok (conv', turns'), w') →
  ∃ all_turns qs output,
    subscript_key question "turns" = Ok all_turns
    ∧ subscript_index all_turns j = Ok qs
    ∧ turns' = turns ++ [output]
    ∧ conv' = Conversation (name conv) (roles conv)
                (messages conv ++ [((roles conv).1, qs); ((roles conv).2, JStr output)])
                (stop_str conv) (stop_token_ids conv).
Proof.
  unfold answer_turn. intros H.
  apply bind_ok_inv in H as (setup & w1 & Hsetup & H).
  apply bind_ok_inv in H as (output & w2 & _ & H).
  apply bind_ok_inv in H as (conv1 & ? & [Hupdate ->]%lift_ok_inv & H).
  injection H as <- <- <-.
  unfold prepare_turn in Hsetup.
  apply bind_ok_inv in Hsetup as (all_turns & ? & [Hturns ->]%lift_ok_inv & Hsetup).
  apply bind_ok_inv in Hsetup as (qs & ? & [Hqs ->]%lift_ok_inv & Hsetup).
  do 7 (apply bind_ok_inv in Hsetup as (? & ? & _ & Hsetup)).
  injection Hsetup as <- _. cbn [ts_conv] in Hupdate.
  rewrite update_last_message_append in Hupdate. injection Hupdate as <-.
  exists all_turns, qs, output. split; [done|]. split; [done|]. split; [done|].
  cbn [append_message name roles messages stop_str stop_token_ids].
  by rewrite <- app_assoc.
Qed.

Lemma answer_turn_history_witness :
  ∃ conv' w' output,
    answer_turn (Demo.env Demo.echo_model) Demo.echo_model Demo.tokenizer 1024
      (JDict [("question_id"%string, JInt 82); ("category"%string, JStr "math");
              ("turns"%string, JList [JStr "1+1?"])])
      (Finite 0) (Demo.template, []) 0 Demo.world0 = (Ok (conv', [output]), w')
    ∧ messages conv' = [("USER"%string, JStr "1+1?"); ("ASSISTANT"%string, JStr output)].
Proof.
  destruct (answer_turn (Demo.env Demo.echo_model) Demo.echo_model Demo.tokenizer
              1024
              (JDict [("question_id"%string, JInt 82); ("category"%string, JStr "math");
                      ("turns"%string, JList [JStr "1+1?"])])
              (Finite 0) (Demo.template, []) 0 Demo.world0)
    as [[[conv' turns']|e] w'] eqn:Hrun.
  - destruct (answer_turn_history _ _ _ _ _ _ _ _ _ _ _ _ _ Hrun)
      as (all_turns & qs & output & Hturns & Hqs & -> & ->).
    injection Hturns as <-. injection Hqs as <-.
    by exists (Conversation (name Demo.template) (roles Demo.template)
                 (messages Demo.template
                    ++ [((roles Demo.template).1, JStr "1+1?");
                        ((roles Demo.template).2, JStr output)])
                 (stop_str Demo.template) (stop_token_ids Demo.template)),
              w', output.
  - vm_compute in Hrun. discriminate Hrun.
Defined.

(** ** The arguments of the sampling calls (lines 146-182) *)

Lemma appends_for_each_elem {Q : event → Prop} {A B} (xs : list A)
    (body : B → A → M B) (acc : B) :
  (∀ a x, x ∈ xs → appends Q (body a x)) → appends Q (for_each xs body acc).
Proof.
  revert acc. induction xs as [|x xs IH]; intros acc Hbody.
  - apply appends_mret.
  - cbn [for_each]. apply appends_bind; [apply Hbody; by left|].
    intros acc'. apply IH. intros a y Hy. apply Hbody. by right.
Qed.

Lemma lift_returned {A} (r : result A) (a : A) :
  (∃ w w', lift r w = (Ok a, w')) → r = Ok a.
Proof. by intros (w & w' & [= -> _]). Qed.

(** What a turn has computed when it enters the [try] block. *)
Lemma prepare_turn_setup (E : environment) (tokenizer : tokenizer_t)
    (max_new_token : Z) (question : json) (temperature : pyfloat)
    (conv : conversation) (j : Z) (w : world) (setup : turn_setup) (w' : world) :
  prepare_turn E tokenizer max_new_token question temperature conv j w
    = (Ok setup, w') →
  (∃ prompt, tokenize tokenizer prompt = Ok (ts_inputs setup))
  ∧ ts_logits_processor setup
    = [StopAfterEosTextGenerated.init
         (Z.of_nat (size1 (input_ids (ts_inputs setup)))) (eos_token_id tokenizer)]
  ∧ ts_do_sample setup = negb (float_lt temperature (Finite (1 # 10000))).
Proof.
  unfold prepare_turn. intros H.
  do 2 (apply bind_ok_inv in H as (? & ? & _ & H)).
  apply bind_ok_inv in H as (prompt & ? & _ & H).
  apply bind_ok_inv in H as (inputs & ? & [Hinputs _]%lift_ok_inv & H).
  do 5 (apply bind_ok_inv in H as (? & ? & _ & H)).
  injection H as <- _. cbn [ts_inputs ts_logits_processor ts_do_sample].
  split; [by exists prompt|done].
Qed.

Section SamplingCalls.

Variable E : environment.
Variables (model : model_t) (tokenizer : tokenizer_t).
Variables (model_id answer_file : string).
Variables (max_new_token num_choices : Z).
Variable questions : list json.

Lemma sampling_call_console (ev : event) :
  is_console ev → sampling_call E tokenizer questions ev.
Proof. by destruct ev. Qed.

Lemma answer_turn_sampling_call (question : json) (temperature : pyfloat)
    (state : conversation * list string) (j : Z) :
  question ∈ questions →
  choose_temperature E question = Ok temperature →
  appends (sampling_call E tokenizer questions)
    (answer_turn E model tokenizer max_new_token question temperature state j).
Proof.
  intros Hq Htemp. destruct state as [conv turns]. unfold answer_turn.
  apply appends_bind_ret;
    [apply prepare_turn_appends; apply sampling_call_console|].
  intros setup (w & w' & Hsetup).
  apply prepare_turn_setup in Hsetup as ([prompt Hprompt] & Hprocessor & Hsample).
  apply appends_bind; [|intros output; apply appends_bind;
                         [apply appends_lift|intros ?; apply appends_mret]].
  apply appends_try_except;
    [|intros e; apply on_runtime_error_appends; apply sampling_call_console].
  unfold sample.
  apply appends_bind.
  { apply appends_model_generate.
    cbn [sampling_call kw_input_ids kw_attention_mask kw_bos_token_id
         kw_pad_token_id kw_eos_token_id kw_do_sample kw_temperature
         kw_logits_processor].
    split; [exists prompt; rewrite Hprompt; by destruct (ts_inputs setup)|].
    do 3 (split; [done|]). split; [done|]. split; [done|]. by exists question. }
  intros ids.
  apply appends_bind; [apply appends_lift|]. intros ids'.
  apply appends_bind; [by apply appends_emit|]. intros _.
  apply appends_bind; [apply appends_lift|]. intros output.
  apply appends_bind; [by apply appends_emit|]. intros _.
  apply appends_bind; [by apply appends_emit|]. intros _.
  apply appends_mret.
Qed.

Lemma answer_question_sampling_call (u : unit) (question : json) :
  question ∈ questions →
  appends (sampling_call E tokenizer questions)
    (answer_question E model tokenizer model_id answer_file max_new_token
                     num_choices u question).
Proof.
  intros Hq. unfold answer_question.
  apply appends_bind_ret; [apply appends_lift|].
  intros temperature Htemp%lift_returned.
  apply appends_bind; [apply appends_lift|]. intros indices.
  apply appends_bind.
  { apply appends_for_each. intros choices i. unfold answer_choice.
    apply appends_bind; [by apply appends_torch_manual_seed|]. intros _.
    apply appends_bind; [apply appends_lift|]. intros all_turns.
    apply appends_bind; [apply appends_lift|]. intros n.
    apply appends_bind; [apply appends_lift|]. intros js.
    apply appends_bind;
      [apply appends_for_each; intros; by apply answer_turn_sampling_call|].
    intros [conv turns]. apply appends_mret. }
  intros choices.
  apply appends_bind; [apply appends_lift|]. intros _.
  apply appends_bind; [apply appends_open_append|]. intros _.
  apply appends_bind; [apply appends_lift|]. intros qid.
  apply appends_bind; [apply appends_uuid|]. intros answer_id.
  apply appends_bind; [apply appends_time|]. intros tstamp.
  apply appends_file_write.
Qed.

End SamplingCalls.

(** X14: every sampling call of a run of [get_model_answers] is made
    with the ids and the attention mask of one tokenized prompt, the
    padding token as the beginning-of-sequence token, the
    end-of-sequence token of the tokenizer, the temperature chosen for one
    of the questions, sampling switched on exactly when that temperature
    is not below 1e-4, and one logits processor, whose [base_len] is the
    number of prompt tokens. *)
Theorem sampling_calls_shape (E : environment) (model_path model_id : string)
    (questions : list json) (answer_file : string)
    (max_new_token num_choices num_gpus_per_model : Z)
    (max_gpu_memory dtype : option string) (revision : string)
    (model : model_t) (tokenizer : tokenizer_t)
    (w : world) (r : result unit) (w' : world) :
  load_model E model_path
    (LoadModelKwargs revision "cuda" num_gpus_per_model max_gpu_memory dtype
                     false false false) = Ok (model, tokenizer) →
  get_model_answers E model_path model_id questions answer_file max_new_token
    num_choices num_gpus_per_model max_gpu_memory dtype revision w = (r, w') →
  ∃ evs,
    log w' = log w ++ evs
    ∧ ∀ kwargs, Generate kwargs ∈ evs →
        (∃ prompt,
           tokenize tokenizer prompt
           = Ok (Encoding (kw_input_ids kwargs) (kw_attention_mask kwargs)))
        ∧ kw_bos_token_id kwargs = pad_token_id tokenizer
        ∧ kw_pad_token_id kwargs = pad_token_id tokenizer
        ∧ kw_eos_token_id kwargs = eos_token_id tokenizer
        ∧ kw_do_sample kwargs
          = negb (float_lt (kw_temperature kwargs) (Finite (1 # 10000)))
        ∧ kw_logits_processor kwargs
          = [StopAfterEosTextGenerated.init
               (Z.of_nat (size1 (kw_input_ids kwargs))) (eos_token_id tokenizer)]
        ∧ ∃ question,
            question ∈ questions
            ∧ choose_temperature E question = Ok (kw_temperature kwargs).
Proof.
  intros Hload Hrun. unfold get_model_answers in Hrun.
  rewrite bind_lift, Hload in Hrun.
  destruct (appends_for_each_elem (Q := sampling_call E tokenizer questions)
              questions
              (answer_question E model tokenizer model_id answer_file
                 max_new_token num_choices) ()) with w r w'
    as (evs & Hlog & Hall); [|done|].
  - intros u question Hq. by apply answer_question_sampling_call.
  - exists evs. split; [done|]. intros kwargs Hin.
    by apply (proj1 (Forall_forall _ _) Hall) in Hin.
Qed.

Lemma sampling_calls_shape_witness :
  let run :=
    get_model_answers (Demo.env Demo.echo_model) "demo-path" "demo" Demo.questions
      "out.jsonl" 1024 2 1 None None "main" Demo.world0 in
  ∃ evs,
    log run.2 = log Demo.world0 ++ evs
    ∧ ∀ kwargs, Generate kwargs ∈ evs →
        (∃ prompt,
           tokenize Demo.tokenizer prompt
           = Ok (Encoding (kw_input_ids kwargs) (kw_attention_mask kwargs)))
        ∧ kw_bos_token_id kwargs = pad_token_id Demo.tokenizer
        ∧ kw_pad_token_id kwargs = pad_token_id Demo.tokenizer
        ∧ kw_eos_token_id kwargs = eos_token_id Demo.tokenizer
        ∧ kw_do_sample kwargs
          = negb (float_lt (kw_temperature kwargs) (Finite (1 # 10000)))
        ∧ kw_logits_processor kwargs
          = [StopAfterEosTextGenerated.init
               (Z.of_nat (size1 (kw_input_ids kwargs)))
               (eos_token_id Demo.tokenizer)]
        ∧ ∃ question,
            question ∈ Demo.questions
            ∧ choose_temperature (Demo.env Demo.echo_model) question
              = Ok (kw_temperature kwargs).
Proof.
  intros run.
  apply (sampling_calls_shape (Demo.env Demo.echo_model) "demo-path" "demo"
           Demo.questions "out.jsonl" 1024 2 1 None None "main"
           Demo.echo_model Demo.tokenizer Demo.world0 run.1 run.2).
  - reflexivity.
  - apply surjective_pairing.
Defined.

(** ** Counting the sampling calls *)

Lemma generate_calls_app (evs1 evs2 : list event) :
  generate_calls (evs1 ++ evs2) = (generate_calls evs1 + generate_calls evs2)%nat.
Proof. unfold generate_calls. by rewrite omap_app, length_app. Qed.

Lemma generate_calls_none (evs : list event) :
  Forall no_generate evs → generate_calls evs = 0%nat.
Proof.
  unfold generate_calls. induction 1 as [|ev evs Hev _ IH]; [done|].
  by destruct ev.
Qed.

Lemma no_generate_console (ev : event) : is_console ev → no_generate ev.
Proof. by destruct ev. Qed.

Lemma calls_0 {A} (m : M A) : appends no_generate m → calls 0 m.
Proof.
  intros Hm w r w' Hrun. destruct (Hm _ _ _ Hrun) as (evs & Hlog & Hall).
  exists evs. rewrite (generate_calls_none _ Hall). by repeat split.
Qed.

Lemma calls_eq {A} (n n' : nat) (m : M A) : n = n' → calls n m → calls n' m.
Proof. by intros ->. Qed.

Lemma calls_bind_ret {A B} (n1 n2 : nat) (m : M A) (f : A → M B) :
  calls n1 m →
  (∀ a, (∃ w w', m w = (Ok a, w')) → calls n2 (f a)) →
  calls (n1 + n2) (m ≫= f).
Proof.
  intros Hm Hf w r w'. rewrite bind_unfold.
  destruct (m w) as [[a|e] w1] eqn:Hmw.
  - intros Hfa. destruct (Hm _ _ _ Hmw) as (evs1 & Hlog1 & Hle1 & Heq1).
    destruct (Hf a (ex_intro _ w (ex_intro _ w1 Hmw)) _ _ _ Hfa)
      as (evs2 & Hlog2 & Hle2 & Heq2).
    exists (evs1 ++ evs2). split; [by rewrite Hlog2, Hlog1, app_assoc|].
    rewrite generate_calls_app, (Heq1 eq_refl). split; [lia|].
    intros Hok. by rewrite (Heq2 Hok).
  - intros [= <- <-]. destruct (Hm _ _ _ Hmw) as (evs1 & Hlog1 & Hle1 & _).
    exists evs1. split; [done|]. split; [lia|done].
Qed.

Lemma calls_bind {A B} (n1 n2 : nat) (m : M A) (f : A → M B) :
  calls n1 m → (∀ a, calls n2 (f a)) → calls (n1 + n2) (m ≫= f).
Proof. intros Hm Hf. apply calls_bind_ret; [done|]. intros a _. apply Hf. Qed.

Lemma calls_for_each {A B} (k : A → nat) (xs : list A) (body : B → A → M B)
    (acc : B) :
  (∀ a x, x ∈ xs → calls (k x) (body a x)) →
  calls (sum_list_with k xs) (for_each xs body acc).
Proof.
  revert acc. induction xs as [|x xs IH]; intros acc Hbody.
  - apply calls_0, appends_mret.
  - cbn [for_each sum_list_with]. apply calls_bind; [apply Hbody; by left|].
    intros acc'. apply IH. intros a y Hy. apply Hbody. by right.
Qed.

Lemma sum_list_with_const {A} (k : nat) (xs : list A) :
  sum_list_with (λ _, k) xs = (length xs * k)%nat.
Proof. induction xs as [|x xs IH]; simpl; lia. Qed.

Section Calls.

Variable E : environment.
Variables (model : model_t) (tokenizer : tokenizer_t).
Variables (model_id answer_file : string).
Variables (max_new_token num_choices : Z).

(** The [try] block makes its one call first, whatever happens then. *)
Lemma sample_calls (conv : conversation) (inputs : encoding)
    (logits_processor : list StopAfterEosTextGenerated.t)
    (do_sample : bool) (temperature : pyfloat) (budget : Z)
    (w : world) (r : result string) (w' : world) :
  sample model tokenizer conv inputs logits_processor do_sample temperature
         budget w = (r, w') →
  ∃ evs, log w' = log w ++ evs ∧ generate_calls evs = 1%nat.
Proof.
  unfold sample. rewrite bind_unfold. unfold model_generate at 1. cbn [emit].
  destruct (generate model _ _) as [[ids|e] g].
  - match goal with
    | |- ?rest ?v = _ → _ =>
        assert (appends no_generate rest) as Hrest
    end.
    { apply appends_bind; [apply appends_lift|]. intros ids'.
      apply appends_bind; [by apply appends_emit|]. intros _.
      apply appends_bind; [apply appends_lift|]. intros output.
      apply appends_bind; [by apply appends_emit|]. intros _.
      apply appends_bind; [by apply appends_emit|]. intros _.
      apply appends_mret. }
    intros Hrun. destruct (Hrest _ _ _ Hrun) as (evs & Hlog & Hall).
    cbn [log set_rng] in Hlog. eexists. split; [by rewrite Hlog, <- app_assoc|].
    rewrite generate_calls_app, (generate_calls_none _ Hall). done.
  - intros [= <- <-]. by exists [Generate
      (GenerateKwargs (input_ids inputs) (attention_mask inputs)
         (pad_token_id tokenizer) (eos_token_id tokenizer) (pad_token_id tokenizer)
         do_sample temperature budget logits_processor)].
Qed.

Lemma answer_turn_calls (question : json) (temperature : pyfloat)
    (state : conversation * list string) (j : Z) :
  calls 1 (answer_turn E model tokenizer max_new_token question temperature
                       state j).
Proof.
  destruct state as [conv turns]. unfold answer_turn.
  apply (calls_bind 0 1);
    [apply calls_0, prepare_turn_appends, no_generate_console|].
  intros setup. apply (calls_bind 1 0).
  2: { intros output. apply calls_0.
       apply appends_bind; [apply appends_lift|]. intros ?. apply appends_mret. }
  intros w r w'. unfold try_except_RuntimeError.
  destruct (sample _ _ _ _ _ _ _ _ w) as [[output|e] w1] eqn:Hsample;
    destruct (sample_calls _ _ _ _ _ _ _ _ _ Hsample) as (evs & Hlog & Hone).
  - intros [= <- <-]. exists evs. rewrite Hone. by repeat split.
  - destruct (issubclass e RuntimeError).
    + intros Hhandler.
      destruct (on_runtime_error_appends (Q := no_generate) no_generate_console
                  question e _ _ _ Hhandler) as (evs' & Hlog' & Hall).
      exists (evs ++ evs'). split; [by rewrite Hlog', Hlog, app_assoc|].
      rewrite generate_calls_app, Hone, (generate_calls_none _ Hall).
      by repeat split.
    + intros [= <- <-]. exists evs. rewrite Hone. by repeat split.
Qed.

Lemma answer_choice_calls (question : json) (temperature : pyfloat)
    (choices : list json) (i : Z) :
  calls (num_turns question)
    (answer_choice E model tokenizer model_id max_new_token question temperature
                   choices i).
Proof.
  unfold answer_choice.
  apply (calls_bind 0); [by apply calls_0, appends_torch_manual_seed|]. intros _.
  apply (calls_bind_ret 0); [apply calls_0, appends_lift|].
  intros all_turns Hturns%lift_returned.
  apply (calls_bind_ret 0); [apply calls_0, appends_lift|].
  intros n Hn%lift_returned.
  apply (calls_bind_ret 0); [apply calls_0, appends_lift|].
  intros js Hjs%lift_returned.
  rewrite py_range_0_1 in Hjs. injection Hjs as <-.
  apply (calls_eq (sum_list_with (λ _, 1%nat) (map Z.of_nat (seq 0 (Z.to_nat n))) + 0)).
  { rewrite sum_list_with_const, length_map, length_seq.
    unfold num_turns. rewrite Hturns. cbn [mbind result_bind]. rewrite Hn. lia. }
  apply calls_bind.
  - apply calls_for_each. intros st j _. apply answer_turn_calls.
  - intros [conv turns]. apply calls_0, appends_mret.
Qed.

Lemma answer_question_calls (u : unit) (question : json) :
  calls (Z.to_nat num_choices * num_turns question)
    (answer_question E model tokenizer model_id answer_file max_new_token
                     num_choices u question).
Proof.
  unfold answer_question.
  apply (calls_bind 0); [apply calls_0, appends_lift|]. intros temperature.
  apply (calls_bind_ret 0); [apply calls_0, appends_lift|].
  intros indices Hidx%lift_returned.
  rewrite py_range_0_1 in Hidx. injection Hidx as <-.
  apply (calls_eq (sum_list_with (λ _, num_turns question)
                     (map Z.of_nat (seq 0 (Z.to_nat num_choices))) + 0)).
  { by rewrite sum_list_with_const, length_map, length_seq, Nat.add_0_r. }
  apply calls_bind.
  - apply calls_for_each. intros choices i _. apply answer_choice_calls.
  - intros choices. apply calls_0.
    apply appends_bind; [apply appends_lift|]. intros _.
    apply appends_bind; [apply appends_open_append|]. intros _.
    apply appends_bind; [apply appends_lift|]. intros qid.
    apply appends_bind; [apply appends_uuid|]. intros answer_id.
    apply appends_bind; [apply appends_time|]. intros tstamp.
    apply appends_file_write.
Qed.

End Calls.

(** X15: the model is called once for every turn of every choice of
    every question, also when the call fails and the turn is recorded as
    an error, and never a second time: a run of [get_model_answers] that
    returns has made [num_choices * len(question["turns"])] sampling calls
    for each question, and a run that raises has made no more than
    that. *)
Theorem sampling_calls_count (E : environment) (model_path model_id : string)
    (questions : list json) (answer_file : string)
    (max_new_token num_choices num_gpus_per_model : Z)
    (max_gpu_memory dtype : option string) (revision : string)
    (w : world) (r : result unit) (w' : world) :
  get_model_answers E model_path model_id questions answer_file max_new_token
    num_choices num_gpus_per_model max_gpu_memory dtype revision w = (r, w') →
  ∃ evs,
    log w' = log w ++ evs
    ∧ (generate_calls evs
       ≤ sum_list_with (λ question, Z.to_nat num_choices * num_turns question)
                       questions)%nat
    ∧ (r = Ok () →
       generate_calls evs
       = sum_list_with (λ question, Z.to_nat num_choices * num_turns question)%nat
                       questions).
Proof.
  intros Hrun.
  assert (calls (0 + sum_list_with
                       (λ question, Z.to_nat num_choices * num_turns question)%nat
                       questions)
            (get_model_answers E model_path model_id questions answer_file
               max_new_token num_choices num_gpus_per_model max_gpu_memory dtype
               revision)) as Hcalls.
  { unfold get_model_answers.
    apply calls_bind; [apply calls_0, appends_lift|]. intros [model tokenizer].
    apply calls_for_each. intros u question _. apply answer_question_calls. }
  destruct (Hcalls _ _ _ Hrun) as (evs & Hlog & Hle & Heq).
  exists evs. split; [done|]. split; [done|]. intros ->. by apply Heq.
Qed.

Lemma sampling_calls_count_witness :
  let run :=
    get_model_answers (Demo.env (Demo.failing_model RuntimeError)) "demo-path"
      "demo" Demo.questions "out.jsonl" 1024 2 1 None None "main" Demo.world0 in
  run.1 = Ok ()
  ∧ ∃ evs, log run.2 = log Demo.world0 ++ evs ∧ generate_calls evs = 6%nat.
Proof.
  intros run. split; [by vm_compute|].
  destruct (sampling_calls_count (Demo.env (Demo.failing_model RuntimeError))
              "demo-path" "demo" Demo.questions "out.jsonl" 1024 2 1 None None
              "main" Demo.world0 run.1 run.2 (surjective_pairing _))
    as (evs & Hlog & _ & Hcount).
  exists evs. split; [exact Hlog|]. apply Hcount. by vm_compute.
Defined.

(** ** The handler of the [try] block (lines 230-233) *)

(** X16: the handler prints the caught exception first and the question
    id second; on a question record without a [question_id] the handler
    itself raises after the first print, so the turn does not get the
    completion ["ERROR"]: it raises the handler's exception. *)
Theorem handler_needs_question_id (E : environment) (model : model_t)
    (tokenizer : tokenizer_t) (max_new_token : Z) (question : json)
    (temperature : pyfloat) (conv : conversation) (turns : list string) (j : Z)
    (w w1 w2 : world) (setup : turn_setup) (e e' : exc_class) :
  prepare_turn E tokenizer max_new_token question temperature conv j w
    = (Ok setup, w1) →
  sample model tokenizer (ts_conv setup) (ts_inputs setup)
    (ts_logits_processor setup) (ts_do_sample setup) temperature
    (ts_max_new_token setup) w1 = (Raise e, w2) →
  issubclass e RuntimeError = true →
  subscript_key question "question_id" = Raise e' →
  ∃ w',
    answer_turn E model tokenizer max_new_token question temperature
                (conv, turns) j w = (Raise e', w')
    ∧ log w' = log w2 ++ [PrintException e]
    ∧ same_store w2 w'.
Proof.
  intros Hsetup Hsample Hsub Hqid. unfold answer_turn.
  rewrite (bind_ok _ _ _ _ _ Hsetup).
  rewrite bind_unfold. unfold try_except_RuntimeError.
  rewrite Hsample, Hsub. unfold on_runtime_error.
  rewrite bind_emit, bind_lift, Hqid. by eexists.
Qed.

Lemma handler_needs_question_id_witness :
  ∃ w',
    answer_turn (Demo.env (Demo.failing_model RuntimeError))
      (Demo.failing_model RuntimeError) Demo.tokenizer 1024
      (JDict [("category"%string, JStr "math"); ("turns"%string, JList [JStr "1+1?"])])
      (Finite 0) (Demo.template, []) 0 Demo.world0 = (Raise KeyError, w').
Proof.
  pose (question := JDict [("category"%string, JStr "math");
                           ("turns"%string, JList [JStr "1+1?"])]).
  pose (prepared := prepare_turn (Demo.env (Demo.failing_model RuntimeError))
                      Demo.tokenizer 1024 question (Finite 0) Demo.template 0
                      Demo.world0).
  pose (setup := match prepared.1 with
                 | Ok setup => setup
                 | Raise _ => TurnSetup Demo.template
                                (Encoding (Tensor 0 []) (Tensor 0 [])) [] false 0
                 end).
  pose (sampled := sample (Demo.failing_model RuntimeError) Demo.tokenizer
                     (ts_conv setup) (ts_inputs setup) (ts_logits_processor setup)
                     (ts_do_sample setup) (Finite 0) (ts_max_new_token setup)
                     prepared.2).
  destruct (handler_needs_question_id (Demo.env (Demo.failing_model RuntimeError))
              (Demo.failing_model RuntimeError) Demo.tokenizer 1024 question
              (Finite 0) Demo.template [] 0 Demo.world0 prepared.2 sampled.2 setup
              RuntimeError KeyError) as (w' & Hrun & _).
  - reflexivity.
  - reflexivity.
  - reflexivity.
  - reflexivity.
  - by exists w'.
Defined.

(** ** What a failed run leaves in the answer file (lines 129-250) *)

Lemma bind_raise_inv {A B} (m : M A) (f : A → M B) (w w' : world) (e : exc_class) :
  (m ≫= f) w = (Raise e, w') →
  m w = (Raise e, w') ∨ ∃ a w1, m w = (Ok a, w1) ∧ f a w1 = (Raise e, w').
Proof.
  rewrite bind_unfold. destruct (m w) as [[a|e0] w1]; intros H.
  - right. by exists a, w1.
  - injection H as -> ->. by left.
Qed.

Lemma lift_raise_inv {A} (r : result A) (w w' : world) (e : exc_class) :
  lift r w = (Raise e, w') → r = Raise e ∧ w' = w.
Proof. by intros [= -> ->]. Qed.

Section Written.

Variable E : environment.
Variables (model : model_t) (tokenizer : tokenizer_t).
Variables (model_id answer_file : string).
Variables (max_new_token num_choices : Z).

(** A question that fails has written nothing: at most, the answer file
    has been created. *)
Lemma answer_question_raise (question : json) (w w' : world) (e : exc_class) :
  answer_question E model tokenizer model_id answer_file max_new_token
                  num_choices () question w = (Raise e, w') →
  (∀ path, file_lines w' path = file_lines w path)
  ∧ (∀ path, path ≠ os_path_expanduser E answer_file →
       files w' !! path = files w !! path).
Proof.
  unfold answer_question. intros H.
  apply bind_raise_inv in H
    as [[_ ->]%lift_raise_inv|(temperature & ? & [_ ->]%lift_ok_inv & H)]; [done|].
  apply bind_raise_inv in H
    as [[_ ->]%lift_raise_inv|(indices & ? & [_ ->]%lift_ok_inv & H)]; [done|].
  assert (∀ r w1,
            for_each indices
              (answer_choice E model tokenizer model_id max_new_token question
                 temperature) [] w = (r, w1) → files w1 = files w) as Hloop.
  { intros r w1 Hrun.
    eapply (respects_for_each same_store) in Hrun as [? _]; [done|].
    intros. apply answer_choice_same_store. }
  apply bind_raise_inv in H as [H|(choices & w1 & Hchoices & H)].
  { apply Hloop in H. unfold file_lines. by rewrite H. }
  apply Hloop in Hchoices. clear Hloop.
  apply bind_raise_inv in H
    as [[_ ->]%lift_raise_inv|(? & ? & [_ ->]%lift_ok_inv & H)].
  { unfold file_lines. by rewrite Hchoices. }
  cbn zeta in H. unfold open_append in H.
  apply bind_raise_inv in H as [H|([] & w2 & Hopen & H)].
  { apply bind_raise_inv in H
      as [[_ ->]%lift_raise_inv|(? & ? & _ & H)]; [|done].
    unfold file_lines. by rewrite Hchoices. }
  apply bind_ok_inv in Hopen as (? & ? & [_ ->]%lift_ok_inv & Hopen).
  unfold modify in Hopen. injection Hopen as Hw2.
  assert ((∀ path, file_lines w2 path = file_lines w path)
          ∧ (∀ path, path ≠ os_path_expanduser E answer_file →
               files w2 !! path = files w !! path)) as Hcreated.
  { subst w2. unfold file_lines. rewrite files_set_files, Hchoices. split.
    - intros path. destruct (decide (path = os_path_expanduser E answer_file)) as [->|].
      + by rewrite lookup_insert_eq.
      + by rewrite lookup_insert_ne.
    - intros path Hpath. by rewrite lookup_insert_ne. }
  clear Hw2.
  apply bind_raise_inv in H
    as [[_ ->]%lift_raise_inv|(qid & ? & [_ ->]%lift_ok_inv & H)]; [done|].
  apply bind_raise_inv in H as [H|(? & ? & _ & H)]; [done|].
  apply bind_raise_inv in H as [H|(? & ? & _ & H)]; done.
Qed.

(** The questions answered so far have their lines in the file. *)
Lemma answer_questions_written (questions : list json) (w w' : world) :
  answer_questions E model tokenizer model_id answer_file max_new_token
                   num_choices questions w = (Ok (), w') →
  ∃ lines,
    file_lines w' (os_path_expanduser E answer_file)
      = file_lines w (os_path_expanduser E answer_file) ++ lines
    ∧ length lines = length questions
    ∧ (∀ k question line,
         questions !! k = Some question → lines !! k = Some line →
         is_answer_line E model_id num_choices question
           (shortuuid_uuid E (uuids_drawn w + k)) (time_time E (clock w + k)) line)
    ∧ (∀ path, path ≠ os_path_expanduser E answer_file →
         files w' !! path = files w !! path).
Proof.
  unfold answer_questions. intros H.
  set (target := os_path_expanduser E answer_file).
  apply (for_each_ok_inv
           (λ done (_ : unit) v,
              uuids_drawn v = (uuids_drawn w + length done)%nat
              ∧ clock v = (clock w + length done)%nat
              ∧ (∀ path, path ≠ target → files v !! path = files w !! path)
              ∧ ∃ lines,
                  file_lines v target = file_lines w target ++ lines
                  ∧ length lines = length done
                  ∧ ∀ k question line,
                      done !! k = Some question → lines !! k = Some line →
                      is_answer_line E model_id num_choices question
                        (shortuuid_uuid E (uuids_drawn w + k))
                        (time_time E (clock w + k)) line)) in H.
  - destruct H as (_ & _ & Hother & lines & Hlines & Hlen & Hshape). by exists lines.
  - split; [simpl; lia|]. split; [simpl; lia|]. split; [done|].
    exists []. split; [by rewrite app_nil_r|]. split; [done|].
    intros k question line Hk. by rewrite lookup_nil in Hk.
  - intros done question [] v [] v1
      (Huuids & Hclock & Hother & lines & Hlines & Hlen & Hshape) Hq.
    apply answer_question_ok in Hq as (line & Hline & Hfiles & Huuids1 & Hclock1).
    fold target in Hfiles.
    split; [rewrite Huuids1, Huuids, length_app; simpl; lia|].
    split; [rewrite Hclock1, Hclock, length_app; simpl; lia|].
    split; [intros path Hpath; by rewrite Hfiles, lookup_insert_ne, Hother|].
    exists (lines ++ [line]). split; [|split].
    + unfold file_lines at 1. rewrite Hfiles, lookup_insert_eq.
      cbn [default from_option id]. by rewrite Hlines, app_assoc.
    + rewrite !length_app. simpl. lia.
    + intros k q l Hk Hl.
      destruct (decide (k < length done)%nat) as [Hlt|Hge].
      * rewrite lookup_app_l in Hk by done. rewrite lookup_app_l in Hl by lia.
        by eapply Hshape.
      * rewrite lookup_app_r in Hk by lia. rewrite lookup_app_r in Hl by lia.
        rewrite Hlen in Hl.
        destruct (k - length done)%nat as [|?] eqn:Hk0; [|done].
        simpl in Hk, Hl. injection Hk as <-. injection Hl as <-.
        replace k with (length done) by lia.
        by rewrite <- Huuids, <- Hclock.
Qed.

End Written.

(** X17: a run of [get_model_answers] that raises keeps what it has done:
    the answer file still starts with the lines it had, followed by one
    record for each question before the failing one, in order; the
    failing question and the questions after it have no line; and no
    other file is touched. *)
Theorem failed_run_keeps_answers (E : environment) (model_path model_id : string)
    (questions : list json) (answer_file : string)
    (max_new_token num_choices num_gpus_per_model : Z)
    (max_gpu_memory dtype : option string) (revision : string)
    (w w' : world) (e : exc_class) :
  get_model_answers E model_path model_id questions answer_file max_new_token
    num_choices num_gpus_per_model max_gpu_memory dtype revision w
    = (Raise e, w') →
  ∃ lines,
    file_lines w' (os_path_expanduser E answer_file)
      = file_lines w (os_path_expanduser E answer_file) ++ lines
    ∧ (questions ≠ [] → length lines < length questions)%nat
    ∧ (∀ k question line,
         questions !! k = Some question → lines !! k = Some line →
         is_answer_line E model_id num_choices question
           (shortuuid_uuid E (uuids_drawn w + k)) (time_time E (clock w + k)) line)
    ∧ (∀ path, path ≠ os_path_expanduser E answer_file →
         files w' !! path = files w !! path).
Proof.
  unfold get_model_answers. intros H.
  apply bind_raise_inv in H
    as [[_ ->]%lift_raise_inv|([model tokenizer] & ? & [_ ->]%lift_ok_inv & H)].
  { exists []. rewrite app_nil_r. split; [done|]. split; [|split; [|done]].
    - intros Hne. destruct questions; [done|simpl; lia].
    - intros k question line _ Hline. by rewrite lookup_nil in Hline. }
  unfold answer_questions in H.
  apply for_each_raise_inv in H
    as (done & question & rest & [] & w1 & -> & Hdone & Hfail).
  apply answer_questions_written in Hdone
    as (lines & Hlines & Hlen & Hshape & Hother).
  apply answer_question_raise in Hfail as [Hsame Hother'].
  exists lines. split; [by rewrite Hsame|]. split; [|split].
  - intros _. rewrite length_app. simpl. lia.
  - intros k q line Hk Hline.
    apply (Hshape k q line); [|done].
    apply lookup_lt_Some in Hline. by rewrite lookup_app_l in Hk by lia.
  - intros path Hpath. by rewrite Hother', Hother.
Qed.

Lemma failed_run_keeps_answers_witness :
  let E := Demo.env Demo.echo_model in
  let good := JDict [("question_id"%string, JInt 82);
                     ("category"%string, JStr "math");
                     ("turns"%string, JList [JStr "1+1?"])] in
  let bad := JDict [("question_id"%string, JInt 83);
                    ("turns"%string, JList [JStr "Hi"])] in
  let run := get_model_answers E "demo-path" "demo" [good; bad] "out.jsonl"
               1024 1 1 None None "main" Demo.world0 in
  ∃ lines,
    file_lines run.2 (os_path_expanduser E "out.jsonl")
      = file_lines Demo.world0 (os_path_expanduser E "out.jsonl") ++ lines
    ∧ ([good; bad] ≠ [] → length lines < length [good; bad])%nat
    ∧ (∀ k question line,
         [good; bad] !! k = Some question → lines !! k = Some line →
         is_answer_line E "demo" 1 question
           (shortuuid_uuid E (uuids_drawn Demo.world0 + k))
           (time_time E (clock Demo.world0 + k)) line)
    ∧ (∀ path, path ≠ os_path_expanduser E "out.jsonl" →
         files run.2 !! path = files Demo.world0 !! path).
Proof.
  intros E good bad run.
  apply (failed_run_keeps_answers E "demo-path" "demo" [good; bad] "out.jsonl"
           1024 1 1 None None "main" Demo.world0 run.2 KeyError).
  vm_compute. reflexivity.
Defined.

(** ** The script from end to end (lines 267-364) *)

(** The id read back from the line of a record. *)
Lemma answer_line_question_id (E : environment) (model_id : string)
    (num_choices : Z) (question : json) (answer_id : string) (tstamp : pyfloat)
    (line : string) (id : Z) :
  (∀ v, subscript_key v "question_id" = Ok (JInt id) →
        line_question_id E (json_dumps E v ++ String "010"%char EmptyString) = Ok id) →
  subscript_key question "question_id" = Ok (JInt id) →
  is_answer_line E model_id num_choices question answer_id tstamp line →
  line_question_id E line = Ok id.
Proof.
  intros Hround Hid (ans_json & (qid & choices & Hqid & _ & _ & ->) & ->).
  apply Hround. rewrite Hid in Hqid. by injection Hqid as <-.
Qed.

(** X18: the script on its default GPU settings (one group), writing to
    an answer file that does not exist yet, with a JSON library that gives
    back the question id of a record it has written: when the script
    returns, the answer file holds one line for each question id, and
    these lines are in strictly ascending order of the ids. *)
Theorem main_answers_every_question (E : environment) (args : arguments)
    (answer_file : string) (questions : list json) (ids : list Z) (w w' : world) :
  answer_file = match arg_answer_file args with
                | Some ((String _ _) as f) => f
                | _ => ("data/" ++ arg_bench_name args ++ "/model_answer/"
                          ++ arg_model_id args ++ ".jsonl")%string
                end →
  load_questions E ("data/" ++ arg_bench_name args ++ "/question.jsonl")%string
    (arg_question_begin args) (arg_question_end args) = Ok questions →
  questions ≠ [] →
  Forall2 (λ question id, subscript_key question "question_id" = Ok (JInt id))
          questions ids →
  arg_num_gpus_total args = arg_num_gpus_per_model args →
  os_path_expanduser E answer_file = answer_file →
  files w !! answer_file = None →
  (∀ v id, id ∈ ids → subscript_key v "question_id" = Ok (JInt id) →
     line_question_id E (json_dumps E v ++ String "010"%char EmptyString) = Ok id) →
  main E args w = (Ok (), w') →
  ∃ out qids,
    files w' !! answer_file = Some out
    ∧ Forall2 (λ l q, line_question_id E l = Ok q) out qids
    ∧ StronglySorted Z.lt qids
    ∧ ∀ q, q ∈ qids ↔ q ∈ ids.
Proof.
  intros Hfile Hload Hne Hids Hgpus Hexpand Hfresh Hround Hmain.
  unfold main in Hmain. cbn zeta in Hmain. rewrite <- Hfile in Hmain.
  apply bind_ok_inv in Hmain as (g & ? & [Hdiv ->]%lift_ok_inv & Hmain).
  assert (arg_num_gpus_per_model args ≠ 0) as Hper.
  { unfold py_floordiv in Hdiv. by case_decide. }
  apply bind_ok_inv in Hmain as ([] & w0 & Hemit & Hmain).
  assert (files w0 = files w ∧ uuids_drawn w0 = uuids_drawn w
          ∧ clock w0 = clock w) as (Hfiles0 & Huuids0 & Hclock0)
    by (by injection Hemit as <-).
  clear Hemit.
  apply bind_ok_inv in Hmain as ([] & w1 & Hrun & Hreorg).
  unfold run_eval in Hrun. rewrite Hgpus in Hrun.
  rewrite bind_lift, Hload, bind_lift, split_questions_one_group in Hrun by done.
  cbn [fst snd] in Hrun. rewrite dispatch_one_chunk in Hrun.
  unfold get_model_answers in Hrun.
  apply bind_ok_inv in Hrun as ([model tokenizer] & ? & [_ ->]%lift_ok_inv & Hrun).
  apply answer_questions_written in Hrun as (lines & Hlines & Hlen & Hshape & _).
  rewrite Hexpand in Hlines. unfold file_lines at 2 in Hlines.
  rewrite Hfiles0, Hfresh in Hlines. cbn [default from_option app] in Hlines.
  apply reorg_answer_file_ok_inv in Hreorg
    as (lines' & answers & out & Hlines' & Hcollect & Hwritten & ->).
  unfold file_lines in Hlines. rewrite Hlines' in Hlines.
  cbn [default from_option id] in Hlines. subst lines'.
  assert (Forall2 (λ l id, line_question_id E l = Ok id) lines ids) as Hread.
  { apply Forall2_same_length_lookup. split.
    - apply Forall2_length in Hids. lia.
    - intros k line id Hline Hid.
      destruct (Forall2_lookup_r _ _ _ _ _ Hids Hid) as (question & Hq & Hqid).
      eapply answer_line_question_id; [|exact Hqid|by eapply Hshape].
      intros v. apply Hround. by eapply list_elem_of_lookup_2. }
  pose proof (collect_answers_ok_inv _ _ _ _ Hcollect) as Hparse.
  destruct (collect_answers_spec E lines ∅ Hparse)
    as (answers0 & Hcollect0 & Hfrom & _ & Hall).
  rewrite Hcollect in Hcollect0. injection Hcollect0 as <-.
  exists out, (sorted_keys answers).
  split; [by rewrite files_set_files, lookup_insert_eq|].
  split; [|split; [apply sorted_keys_ascending|]].
  - apply Forall2_flip. eapply Forall2_impl; [exact Hwritten|].
    intros q l Hl. destruct (Hfrom q l Hl) as [Hempty|[_ ?]]; [|done].
    by rewrite lookup_empty in Hempty.
  - intros q. rewrite elem_of_sorted_keys. split.
    + intros [l Hl]. destruct (Hfrom q l Hl) as [Hempty|[Hin Hq]].
      { by rewrite lookup_empty in Hempty. }
      apply (list_elem_of_lookup_1 lines) in Hin as [k Hk].
      destruct (Forall2_lookup_l _ _ _ _ _ Hread Hk) as (id & Hid & Hq').
      rewrite Hq in Hq'. injection Hq' as ->. by eapply list_elem_of_lookup_2.
    + intros [k Hk]%list_elem_of_lookup_1.
      destruct (Forall2_lookup_r _ _ _ _ _ Hread Hk) as (l & Hl & Hq).
      eapply Hall; [|exact Hq]. by eapply list_elem_of_lookup_2.
Qed.

Lemma main_answers_every_question_witness :
  let E := Demo.env Demo.echo_model in
  let w' := (main E Demo.args Demo.world0).2 in
  ∃ out qids,
    files w' !! "out.jsonl"%string = Some out
    ∧ Forall2 (λ l q, line_question_id E l = Ok q) out qids
    ∧ StronglySorted Z.lt qids
    ∧ ∀ q, q ∈ qids ↔ q ∈ [82; 81].
Proof.
  intros E w'.
  apply (main_answers_every_question E Demo.args "out.jsonl" Demo.questions
           [82; 81] Demo.world0 w').
  - reflexivity.
  - reflexivity.
  - discriminate.
  - repeat constructor.
  - reflexivity.
  - reflexivity.
  - reflexivity.
  - intros v id Hid Hv. unfold line_question_id, E.
    cbn [json_loads json_dumps Demo.env]. unfold Demo.dumps. rewrite Hv.
    apply list_elem_of_In in Hid. simpl in Hid.
    destruct Hid as [<-|[<-|[]]]; reflexivity.
  - vm_compute. reflexivity.
Defined.

(** ** The stop-string step, applied twice (lines 204-215) *)

Lemma prefix_empty (s : string) : String.prefix s EmptyString = true → s = EmptyString.
Proof. by destruct s. Qed.

Lemma prefix_length (s t : string) :
  String.prefix s t = true → (String.length s ≤ String.length t)%nat.
Proof.
  revert t. induction s as [|a s IH]; intros [|b t]; simpl; try done; try lia.
  destruct (ascii_dec a b); [|done]. intros H%IH. lia.
Qed.

Lemma length_str_take (n : nat) (t : string) :
  String.length (str_take n t) = Nat.min n (String.length t).
Proof.
  revert t. induction n as [|n IH]; intros [|b t]; simpl; try done.
  by rewrite IH.
Qed.

Lemma prefix_str_take (s t : string) (n : nat) :
  String.prefix s (str_take n t) = true → String.prefix s t = true.
Proof.
  revert t n. induction s as [|a s IH]; intros [|b t] [|n]; simpl; try done.
  destruct (ascii_dec a b); [|done]. apply IH.
Qed.

Lemma prefix_str_take_2 (s t : string) (n : nat) :
  String.prefix s t = true → (String.length s ≤ n)%nat →
  String.prefix s (str_take n t) = true.
Proof.
  revert t n. induction s as [|a s IH]; intros [|b t] [|n]; simpl; try done;
    try lia.
  destruct (ascii_dec a b); [|done]. intros Hp Hn. apply IH; [done|lia].
Qed.

Lemma str_drop_take (k n : nat) (t : string) :
  str_drop k (str_take n t) = str_take (n - k) (str_drop k t).
Proof.
  revert n t. induction k as [|k IH]; intros n t.
  - by rewrite Nat.sub_0_r.
  - destruct n as [|n], t as [|b t]; simpl; try done.
    by destruct (n - k)%nat.
Qed.

(** Cutting at or before the first positive occurrence of [s] leaves no
    first occurrence of [s] at a positive index. *)
Lemma str_find_take_le (output s : string) (n : nat) :
  (0 < str_find output s → Z.of_nat n ≤ str_find output s) →
  str_find (str_take n output) s ≤ 0.
Proof.
  intros Hmin. unfold str_find in *.
  destruct (find_from_spec s (str_take n output) 0)
    as [[-> _]|(k & -> & _ & Hk & Hfirst)]; [lia|].
  destruct k as [|k]; [lia|]. exfalso.
  assert (s ≠ EmptyString) as Hs.
  { intros ->. specialize (Hfirst 0%nat ltac:(lia)).
    by destruct (str_drop 0 (str_take n output)). }
  rewrite str_drop_take in Hk.
  assert (S k < n)%nat as Hkn.
  { destruct (n - S k)%nat eqn:Hd; [|lia].
    destruct (str_drop (S k) output); by apply prefix_empty in Hk. }
  pose proof (prefix_length _ _ Hk) as Hlen. rewrite length_str_take in Hlen.
  apply prefix_str_take in Hk.
  destruct (find_from_spec s output 0)
    as [[_ Hnone]|(k0 & Hk0 & Hk0len & Hk0p & Hk0first)].
  - destruct (decide (S k ≤ String.length output)%nat) as [Hle|Hgt].
    + by rewrite Hnone in Hk.
    + assert (str_drop (S k) output = EmptyString) as Hempty.
      { clear -Hgt. revert Hgt. generalize (S k). intros m. revert m.
        induction output as [|c output IH]; intros [|m] Hm; simpl in *;
          try done; try lia.
        apply IH. lia. }
      rewrite Hempty in Hk. by apply prefix_empty in Hk.
  - assert (k0 ≤ S k)%nat as Hle.
    { destruct (decide (k0 ≤ S k)%nat); [done|].
      by rewrite Hk0first in Hk by lia. }
    destruct k0 as [|k0].
    + specialize (Hfirst 0%nat ltac:(lia)). simpl in Hfirst, Hk0p.
      rewrite prefix_str_take_2 in Hfirst; [done|done|lia].
    + rewrite Hk0 in Hmin. lia.
Qed.

(** X19: after the stop-string step no stop string of the template has
    its first occurrence at a positive index of the output any more, so
    applying the step a second time changes nothing. *)
Theorem truncate_at_stop_str_idempotent (stop : stop_str_t) (output : string) :
  (∀ s, match stop with
        | StopNone => False
        | StopStr s' => s = s'
        | StopList l => s ∈ l
        end →
        str_find (truncate_at_stop_str stop output) s ≤ 0)
  ∧ truncate_at_stop_str stop (truncate_at_stop_str stop output)
    = truncate_at_stop_str stop output.
Proof.
  assert (∀ i, 0 < i ≤ Z.of_nat (String.length output) →
               str_slice_to output i = str_take (Z.to_nat i) output) as Hslice.
  { intros i Hi. unfold str_slice_to, clamp_index.
    rewrite decide_False by lia. by rewrite Z.min_l by lia. }
  destruct stop as [|s'|l].
  - done.
  - assert (str_find (truncate_at_stop_str (StopStr s') output) s' ≤ 0) as Hclean.
    { destruct s' as [|c s'].
      - simpl. rewrite (str_find_startswith output EmptyString); [done|].
        by destruct output.
      - unfold truncate_at_stop_str. case_bool_decide as Hpos; [|lia].
        pose proof (str_find_range output (String c s')).
        rewrite Hslice by lia. apply str_find_take_le. lia. }
    split; [by intros s ->|].
    destruct s' as [|c s']; [done|].
    unfold truncate_at_stop_str at 1.
    by rewrite bool_decide_eq_false_2 by lia.
  - assert (∀ s, s ∈ l → str_find (truncate_at_stop_str (StopList l) output) s ≤ 0)
      as Hclean.
    { destruct l as [|s0 l]; [by intros s Hs%elem_of_nil|].
      unfold truncate_at_stop_str.
      pose proof (merge_sort_head
        (omap (λ s, if bool_decide (0 < str_find output s)
                    then Some (str_find output s) else None) (s0 :: l))) as Hhead.
      destruct (merge_sort Z.le _) as [|i others].
      - intros s Hs. destruct (decide (0 < str_find output s)) as [Hpos|]; [|lia].
        assert (str_find output s
                ∈ omap (λ s, if bool_decide (0 < str_find output s)
                             then Some (str_find output s) else None) (s0 :: l))
          as Hin by (apply elem_of_positive_finds; eauto).
        rewrite Hhead in Hin. by apply elem_of_nil in Hin.
      - destruct Hhead as [(s1 & _ & Hi & Hpos)%elem_of_positive_finds Hmin].
        intros s Hs. pose proof (str_find_range output s1).
        rewrite Hslice by lia. apply str_find_take_le. intros Hpos'.
        rewrite Z2Nat.id by lia. apply Hmin, elem_of_positive_finds. eauto. }
    split; [done|].
    destruct l as [|s0 l]; [done|].
    set (r := truncate_at_stop_str (StopList (s0 :: l)) output) in *.
    unfold truncate_at_stop_str at 1.
    pose proof (merge_sort_head
      (omap (λ s, if bool_decide (0 < str_find r s)
                  then Some (str_find r s) else None) (s0 :: l))) as Hhead.
    destruct (merge_sort Z.le _) as [|i others]; [done|].
    destruct Hhead as [(s1 & Hs1 & Hi & Hpos)%elem_of_positive_finds _].
    specialize (Hclean s1 Hs1). lia.
Qed.

(** ** Files that are sorted already *)

Lemma StronglySorted_lt_NoDup (l : list Z) : StronglySorted Z.lt l → NoDup l.
Proof.
  induction 1 as [|x l _ IH Hall]; constructor; [|done].
  intros Hx. eapply Forall_forall in Hall; [|done]. lia.
Qed.

(** The lines written for given keys are determined by the dictionary. *)
Lemma written_lines_unique (answers : gmap Z string) (qids : list Z)
    (out out' : list string) :
  Forall2 (λ q l, answers !! q = Some l) qids out →
  Forall2 (λ q l, answers !! q = Some l) qids out' →
  out = out'.
Proof.
  intros Hout. revert out'.
  induction Hout as [|q l qs ls Hl _ IH]; intros out' Hout'.
  - by inversion Hout'.
  - inversion Hout' as [|? l' ? ls' Hl' Hrest]; subst.
    rewrite Hl in Hl'. injection Hl' as <-. f_equal. by apply IH.
Qed.

(** X20: a file whose lines are in strictly ascending order of their
    question ids is a fixed point of [reorg_answer_file]: the call returns
    and the world is as it was. *)
Theorem reorg_answer_file_sorted_fixpoint (E : environment) (answer_file : string)
    (w : world) (lines : list string) (qids : list Z) :
  open_ok E answer_file = Ok () →
  files w !! answer_file = Some lines →
  Forall2 (λ l q, line_question_id E l = Ok q) lines qids →
  StronglySorted Z.lt qids →
  reorg_answer_file E answer_file w = (Ok (), w).
Proof.
  intros Hopen Hfile Hread Hsorted.
  assert (Forall (λ l, is_ok (line_question_id E l) = true) lines) as Hparse.
  { apply Forall_forall. intros l [k Hk]%list_elem_of_lookup_1.
    destruct (Forall2_lookup_l _ _ _ _ _ Hread Hk) as (q & _ & Hq).
    by rewrite Hq. }
  destruct (collect_answers_spec E lines ∅ Hparse)
    as (answers & Hcollect & Hfrom & _ & Hall).
  assert (∀ q l, answers !! q = Some l →
                 ∃ k, lines !! k = Some l ∧ qids !! k = Some q) as Hfrom'.
  { intros q l Hl. destruct (Hfrom q l Hl) as [Hempty|[Hin Hq]].
    { by rewrite lookup_empty in Hempty. }
    apply (list_elem_of_lookup_1 lines) in Hin as [k Hk].
    destruct (Forall2_lookup_l _ _ _ _ _ Hread Hk) as (q' & Hq' & Hid).
    rewrite Hq in Hid. injection Hid as ->. eauto. }
  pose proof (StronglySorted_lt_NoDup _ Hsorted) as Hnodup.
  assert (Forall2 (λ q l, answers !! q = Some l) qids lines) as Hlookup.
  { apply Forall2_same_length_lookup. split.
    - apply Forall2_length in Hread. lia.
    - intros k q l Hq Hl.
      destruct (Forall2_lookup_l _ _ _ _ _ Hread Hl) as (q' & Hq' & Hid).
      rewrite Hq in Hq'. injection Hq' as <-.
      destruct (Hall l q) as [l' Hl']; [by eapply list_elem_of_lookup_2|done|].
      destruct (Hfrom' q l' Hl') as (j & Hj & Hqj).
      rewrite (NoDup_lookup _ _ _ _ Hnodup Hqj Hq) in Hj.
      rewrite Hl in Hj. by injection Hj as ->. }
  assert (sorted_keys answers = qids) as Hkeys.
  { apply (StronglySorted_unique_strong Z.lt);
      [intros; lia|apply sorted_keys_ascending|done|].
    apply NoDup_Permutation;
      [apply StronglySorted_lt_NoDup, sorted_keys_ascending|done|].
    intros q. rewrite elem_of_sorted_keys. split.
    - intros [l Hl]. destruct (Hfrom' q l Hl) as (k & _ & Hk).
      by eapply list_elem_of_lookup_2.
    - intros [k Hk]%list_elem_of_lookup_1.
      destruct (Forall2_lookup_l _ _ _ _ _ Hlookup Hk) as (l & _ & Hl). eauto. }
  destruct (write_back_spec answers answer_file (sorted_keys answers) []
              (set_files (<[answer_file := []]> (files w)) w))
    as (out & Hout & Hrun).
  { by rewrite files_set_files, lookup_insert_eq. }
  { intros q Hq. by apply elem_of_sorted_keys. }
  rewrite Hkeys in Hout.
  rewrite (written_lines_unique _ _ _ _ Hout Hlookup) in Hrun.
  unfold reorg_answer_file, read_lines, open_write.
  rewrite bind_unfold, bind_lift, Hopen, Hfile.
  rewrite bind_lift, Hcollect.
  rewrite bind_unfold, bind_lift. unfold modify at 1.
  rewrite Hrun. f_equal.
  rewrite files_set_files, set_files_set_files, insert_insert_eq.
  rewrite insert_id by done. by destruct w.
Qed.

Lemma reorg_answer_file_sorted_fixpoint_witness :
  let E := Demo.env Demo.echo_model in
  let lines := [String "8" (String "1" (String "010" EmptyString));
                String "8" (String "2" (String "010" EmptyString))] in
  let w := set_files {["out.jsonl"%string := lines]} Demo.world0 in
  reorg_answer_file E "out.jsonl" w = (Ok (), w).
Proof.
  intros E lines w.
  apply (reorg_answer_file_sorted_fixpoint E "out.jsonl" w lines [81; 82]).
  - reflexivity.
  - reflexivity.
  - repeat constructor.
  - repeat constructor; lia.
Defined.

(** ** The two names of the answer file (lines 241-242 and 364) *)

Global Instance other_files_preorder (target : string) : PreOrder (other_files target).
Proof.
  split.
  - by intros w path.
  - intros w1 w2 w3 H12 H23 path Hpath. by rewrite H23, H12.
Qed.

Lemma ray_remote_respects (R : relation world) (task : M unit) :
  respects R task → respects R (ray_remote task).
Proof.
  intros Htask w r w'. unfold ray_remote.
  destruct (task w) as [r0 w1] eqn:Hrun. intros [= <- <-]. by eapply Htask.
Qed.

(** [get_model_answers], and so [run_eval], with or without ray and
    whatever the outcome, touches no file but the expanded answer path. *)
Lemma get_model_answers_other_files (E : environment) (model_path model_id : string)
    (questions : list json) (answer_file : string)
    (max_new_token num_choices num_gpus_per_model : Z)
    (max_gpu_memory dtype : option string) (revision : string) :
  respects (other_files (os_path_expanduser E answer_file))
    (get_model_answers E model_path model_id questions answer_file max_new_token
       num_choices num_gpus_per_model max_gpu_memory dtype revision).
Proof.
  unfold get_model_answers.
  apply respects_bind; [apply _|apply respects_lift; apply _|].
  intros [model tokenizer]. apply respects_for_each; [apply _|].
  intros [] question w [[]|e] w' Hrun.
  - apply answer_question_ok in Hrun as (line & _ & Hfiles & _).
    intros path Hpath. by rewrite Hfiles, lookup_insert_ne.
  - by apply answer_question_raise in Hrun as [_ Hother].
Qed.

Lemma run_eval_other_files (E : environment)
    (model_path model_id question_file : string)
    (question_begin question_end : option Z) (answer_file : string)
    (max_new_token num_choices num_gpus_per_model num_gpus_total : Z)
    (max_gpu_memory dtype : option string) (revision : string) :
  respects (other_files (os_path_expanduser E answer_file))
    (run_eval E model_path model_id question_file question_begin question_end
       answer_file max_new_token num_choices num_gpus_per_model num_gpus_total
       max_gpu_memory dtype revision).
Proof.
  unfold run_eval.
  apply respects_bind; [apply _|apply respects_lift; apply _|]. intros questions.
  apply respects_bind; [apply _|apply respects_lift; apply _|]. intros plan.
  unfold dispatch. apply respects_bind; [apply _| |].
  - apply respects_for_each; [apply _|]. intros handles chunk.
    apply respects_bind; [apply _| |intros h; apply respects_mret; apply _].
    destruct plan.1.
    + apply ray_remote_respects, get_model_answers_other_files.
    + apply respects_bind;
        [apply _|apply get_model_answers_other_files
        |intros ?; apply respects_mret; apply _].
  - intros handles.
    destruct plan.1; [apply respects_lift|apply respects_mret]; apply _.
Qed.

(** X21: the answers are appended to [os.path.expanduser(answer_file)],
    but [reorg_answer_file] opens [answer_file] as it was given.  When
    expanding changes the path and there is no file under the unexpanded
    name, the script cannot return: whatever [run_eval] has done, the file
    under the unexpanded name is still missing when the script ends, and
    the script ends with an exception. *)
Theorem main_unexpanded_answer_file (E : environment) (args : arguments)
    (answer_file : string) (w : world) (r : result unit) (w' : world) :
  answer_file = match arg_answer_file args with
                | Some ((String _ _) as f) => f
                | _ => ("data/" ++ arg_bench_name args ++ "/model_answer/"
                          ++ arg_model_id args ++ ".jsonl")%string
                end →
  os_path_expanduser E answer_file ≠ answer_file →
  files w !! answer_file = None →
  main E args w = (r, w') →
  (∃ e, r = Raise e) ∧ files w' !! answer_file = None.
Proof.
  intros Hfile Hexpand Hmissing. unfold main. cbn zeta. rewrite <- Hfile.
  rewrite bind_lift.
  destruct (py_floordiv _ _) as [g|e]; [|intros [= <- <-]; eauto].
  rewrite bind_emit, bind_unfold.
  destruct (run_eval _ _ _ _ _ _ _ _ _ _ _ _ _ _ _) as [[[]|e] w1] eqn:Hrun.
  2: { intros [= <- <-]. split; [eauto|].
       apply run_eval_other_files in Hrun. by rewrite Hrun by done. }
  apply run_eval_other_files in Hrun. specialize (Hrun answer_file).
  cbn [files] in Hrun. rewrite Hmissing in Hrun.
  unfold reorg_answer_file, read_lines. rewrite bind_unfold, bind_lift.
  destruct (open_ok E answer_file) as [[]|e].
  - rewrite Hrun by done. intros [= <- <-]. split; [eauto|]. by apply Hrun.
  - intros [= <- <-]. split; [eauto|]. by apply Hrun.
Qed.

Lemma main_unexpanded_answer_file_witness :
  let E := demo_env_home Demo.echo_model in
  let args := Arguments_ "demo-path" "demo" "mt_bench" None None
                (Some "~/out.jsonl"%string) 1024 2 1 1 None None "main" in
  let run := main E args Demo.world0 in
  (∃ e, run.1 = Raise e) ∧ files run.2 !! "~/out.jsonl"%string = None.
Proof.
  intros E args run.
  apply (main_unexpanded_answer_file E args "~/out.jsonl" Demo.world0 run.1 run.2).
  - reflexivity.
  - discriminate.
  - reflexivity.
  - apply surjective_pairing.
Defined.

(** ** Removing the special tokens (lines 217-222) *)

Lemma remove_sub_absent (old : string) (count : option nat) (s : string) :
  (∀ k, (k ≤ String.length s)%nat → String.prefix old (str_drop k s) = false) →
  remove_sub old count 0 s = s.
Proof.
  induction s as [|c s IH]; intros Habsent; [done|].
  pose proof (Habsent 0%nat ltac:(simpl; lia)) as Hhere. cbn [str_drop] in Hhere.
  assert (∀ k, (k ≤ String.length s)%nat → String.prefix old (str_drop k s) = false)
    as Hlater by (intros k Hk; apply (Habsent (S k)); simpl; lia).
  cbn [remove_sub]. rewrite Hhere. cbn [andb].
  destruct count as [[|n]|]; [done|by rewrite IH..].
Qed.

Lemma remove_sub_empty (count : option nat) (s : string) :
  remove_sub EmptyString count 0 s = s.
Proof.
  induction s as [|c s IH]; [done|].
  cbn [remove_sub]. destruct count as [[|n]|]; [done| |].
  - cbn [String.eqb negb]. rewrite andb_false_r. by rewrite IH.
  - cbn [String.eqb negb]. rewrite andb_false_r. by rewrite IH.
Qed.

Lemma str_remove_all_absent (output tok : string) :
  tok = EmptyString ∨ str_find output tok = -1 →
  str_remove_all output tok = output.
Proof.
  unfold str_remove_all, str_find. intros [->|Hfind]; [apply remove_sub_empty|].
  apply remove_sub_absent.
  destruct (find_from_spec tok output 0) as [[_ Hnone]|(k & Hk & _)]; [done|lia].
Qed.

(** X22: special tokens are removed from the output and nothing else
    is: an output in which no special token of the tokenizer occurs goes
    through the removal unchanged, and so does any output when the special
    token is the empty string. *)
Theorem remove_special_tokens_absent (values : list (string + list string))
    (output : string) :
  (∀ tok, (inl tok ∈ values ∨ ∃ toks, inr toks ∈ values ∧ tok ∈ toks) →
          tok = EmptyString ∨ str_find output tok = -1) →
  remove_special_tokens values output = output.
Proof.
  unfold remove_special_tokens.
  induction values as [|[tok|toks] values IH]; intros Habsent; [done| |].
  - cbn [fold_left]. rewrite str_remove_all_absent.
    + apply IH. intros tok' [Hin|(toks & Hin & Htok)]; apply Habsent.
      * left. by right.
      * right. exists toks. split; [by right|done].
    + apply Habsent. left. by left.
  - cbn [fold_left].
    assert (fold_left str_remove_all toks output = output) as ->.
    { assert (∀ tok, tok ∈ toks → tok = EmptyString ∨ str_find output tok = -1)
        as Htoks.
      { intros tok Htok. apply Habsent. right. exists toks. split; [by left|done]. }
      clear -Htoks. induction toks as [|tok toks IH]; [done|].
      cbn [fold_left]. rewrite str_remove_all_absent by (apply Htoks; by left).
      apply IH. intros tok' Htok'. apply Htoks. by right. }
    apply IH. intros tok' [Hin|(toks' & Hin & Htok)]; apply Habsent.
    + left. by right.
    + right. exists toks'. split; [by right|done].
Qed.

Lemma remove_special_tokens_absent_witness :
  remove_special_tokens [inl "<s>"%string; inr [EmptyString; "</s>"%string]]
                        "1+1 is 2" = "1+1 is 2"%string.
Proof.
  apply (remove_special_tokens_absent
           [inl "<s>"%string; inr [EmptyString; "</s>"%string]] "1+1 is 2").
  intros tok [Hin|(toks & Hin & Htok)].
  - apply list_elem_of_In in Hin. simpl in Hin.
    destruct Hin as [[= <-]|[[=]|[]]]. by right.
  - apply list_elem_of_In in Hin. simpl in Hin.
    destruct Hin as [[=]|[[= <-]|[]]].
    apply list_elem_of_In in Htok. simpl in Htok.
    destruct Htok as [<-|[<-|[]]]; [by left|by right].
Defined.
